(** * RAGCheck: the evaluation harness and the test-set generator

    A shallow embedding of
      - [src/evaluation/evaluator.py]: [parse_evaluation], [evaluate_batch]
        (with its inner [process_question]) and [evaluate_rag_system];
      - [create_test.py]: [TestGenerator.create_tests],
        [TestGenerator.parse_response], [TestGenerator.process_file] and
        [TestGenerator.main];
      - [rag.py] and [src/rag/system.py]: [RAGSystem.query];
      - [src/utils/env_utils.py]: [get_env_variable];
    followed by the properties of the harness stated over that embedding.

    Conventions.
      - A Python [str] is a Rocq [string] whose characters are the code points
        U+0000 to U+00FF; the [str] methods below are the CPython ones on that
        range.
      - A Python exception is a value of [exn]; code that may raise returns an
        [outcome].  Only [Exception] subclasses are modelled.
      - The average is computed in binary64, each number kept as the
        rational it denotes ([Binary64]); a [float] read from a text is kept
        as the exact value of its literal ([PyFloat]).
      - The collaborators (RAG query function, judge, text generator, file
        system, clock, [time.sleep]) are explicit state: nothing is ambient.
      - What the code prints is not represented. *)

From Stdlib Require Import Ascii String ZArith QArith Qabs Lia Lqa.
From Stdlib Require Import Floats.SpecFloat.
From stdpp Require Import gmap strings list pretty.

Local Open Scope Z_scope.

(* ===================================================================== *)
(** * Python values and exceptions                                        *)
(* ===================================================================== *)

(** What a collaborator may hand back where the code expects text: a [str],
    [None] ([RAGSystem.query] returns [None] when no index is loaded, a
    provider may answer with a JSON null), or a value that is no text at
    all, for which a [bool] stands (a judge that hands back its verdict
    instead of the text). *)
Inductive pyval : Type :=
  | PyNone
  | PyStr (s : string)
  | PyBool (b : bool).

(** [format(v)] as an f-string replacement field renders it. *)
Definition py_format (v : pyval) : string :=
  match v with
  | PyNone => "None"
  | PyStr s => s
  | PyBool true => "True"
  | PyBool false => "False"
  end.

(** Truthiness, as used by [if not evaluation_text]. *)
Definition py_truthy (v : pyval) : bool :=
  match v with
  | PyNone => false
  | PyStr EmptyString => false
  | PyStr _ => true
  | PyBool b => b
  end.

Inductive exn_kind : Type :=
  | IndexError | ValueError | OverflowError | FileNotFoundError | OSError
  | ParserError | AttributeError | UnicodeDecodeError | PlainException.

(** An exception: its class and [str(e)]. *)
Record exn : Type := Exn { exn_kind_of : exn_kind; exn_msg : string }.

Inductive outcome (A : Type) : Type :=
  | Ret (a : A)
  | Raise (e : exn).
Arguments Ret {A} a.
Arguments Raise {A} e.

(* ===================================================================== *)
(** * The [str] methods the sources use                                   *)
(* ===================================================================== *)

Module Str.

Definition code (c : ascii) : N := N_of_ascii c.

(** [str.isspace] on one character: TAB..CR, FS..US, SPACE, NEL, NBSP. *)
Definition isspace (c : ascii) : bool :=
  let n := code c in
  ((9 <=? n) && (n <=? 13) || (28 <=? n) && (n <=? 32)
   || (n =? 133) || (n =? 160))%N.

(** [str.isdigit] on one character: the ASCII digits and the three
    superscript digits of Latin-1 (U+00B2, U+00B3, U+00B9). *)
Definition isdigit (c : ascii) : bool :=
  let n := code c in
  ((48 <=? n) && (n <=? 57) || (n =? 178) || (n =? 179) || (n =? 185))%N.

(** The decimal digits that [float] and [int] read. *)
Definition decimal_value (c : ascii) : option Z :=
  let n := code c in
  if ((48 <=? n) && (n <=? 57))%N then Some (Z.of_N n - 48) else None.

Definition is_upper (c : ascii) : bool :=
  let n := code c in
  ((65 <=? n) && (n <=? 90) || (192 <=? n) && (n <=? 222) && negb (n =? 215))%N.

Definition is_lower_with_upper (c : ascii) : bool :=
  let n := code c in
  ((97 <=? n) && (n <=? 122) || (224 <=? n) && (n <=? 254) && negb (n =? 247))%N.

Definition lower_char (c : ascii) : ascii :=
  if is_upper c then ascii_of_N (code c + 32) else c.

Fixpoint lower (s : string) : string :=
  match s with
  | EmptyString => EmptyString
  | String c r => String (lower_char c) (lower r)
  end.

Fixpoint lstrip (s : string) : string :=
  match s with
  | EmptyString => EmptyString
  | String c r => if isspace c then lstrip r else s
  end.

Fixpoint rstrip (s : string) : string :=
  match s with
  | EmptyString => EmptyString
  | String c r =>
      match rstrip r with
      | EmptyString => if isspace c then EmptyString else String c EmptyString
      | r' => String c r'
      end
  end.

Definition strip (s : string) : string := rstrip (lstrip s).

Definition startswith (s p : string) : bool := String.prefix p s.

Fixpoint endswith (s p : string) : bool :=
  String.eqb s p ||
  match s with
  | EmptyString => false
  | String _ r => endswith r p
  end.

(** [needle in hay]. *)
Fixpoint contains (needle hay : string) : bool :=
  String.prefix needle hay ||
  match hay with
  | EmptyString => false
  | String _ r => contains needle r
  end.

Definition cons_head (c : ascii) (parts : list string) : list string :=
  match parts with
  | [] => [String c EmptyString]
  | h :: t => String c h :: t
  end.

(** [s.split(sep)] for a non-empty separator: the occurrences are taken
    left to right and do not overlap; [skip] counts the characters of a
    matched separator still to be passed over. *)
Fixpoint split_from (sep : string) (skip : nat) (s : string) : list string :=
  match s with
  | EmptyString => [EmptyString]
  | String c r =>
      match skip with
      | S k => split_from sep k r
      | O =>
          if String.prefix sep s
          then match String.length sep with
               | S (S k) => EmptyString :: split_from sep (S k) r
               | _ => EmptyString :: split_from sep O r
               end
          else cons_head c (split_from sep O r)
      end
  end.

Definition split (sep s : string) : list string := split_from sep O s.

(** [s.split(sep, 1)]: at most one cut, at the first occurrence. *)
Fixpoint split1_from (sep : string) (s : string) : string * option string :=
  match s with
  | EmptyString => (EmptyString, None)
  | String c r =>
      if String.prefix sep s
      then (EmptyString, Some (String.substring (String.length sep)
                                 (String.length s - String.length sep) s))
      else let '(h, t) := split1_from sep r in (String c h, t)
  end.

Definition split1 (sep s : string) : list string :=
  match split1_from sep s with
  | (h, None) => [h]
  | (h, Some t) => [h; t]
  end.

(** [s.replace(old, new)] for a non-empty [old]. *)
Fixpoint replace_from (old new : string) (skip : nat) (s : string) : string :=
  match s with
  | EmptyString => EmptyString
  | String c r =>
      match skip with
      | S k => replace_from old new k r
      | O =>
          if String.prefix old s
          then match String.length old with
               | S (S k) => new +:+ replace_from old new (S k) r
               | _ => new +:+ replace_from old new O r
               end
          else String c (replace_from old new O r)
      end
  end.

Definition replace (old new s : string) : string := replace_from old new O s.

(** [''.join(filter(p, s))]. *)
Fixpoint filter_chars (p : ascii -> bool) (s : string) : string :=
  match s with
  | EmptyString => EmptyString
  | String c r => if p c then String c (filter_chars p r) else filter_chars p r
  end.

(** [s.capitalize()]: the first character in title case, the rest in lower
    case.  U+00DF capitalizes to two characters.  The capitals of U+00B5
    and U+00FF lie above U+00FF; the model keeps those two characters. *)
Definition capitalize (s : string) : string :=
  match s with
  | EmptyString => EmptyString
  | String c r =>
      if (code c =? 223)%N then "Ss" +:+ lower r
      else if is_lower_with_upper c
           then String (ascii_of_N (code c - 32)) (lower r)
           else String c (lower r)
  end.

(** [x in xs] for a list of strings. *)
Definition mem (x : string) (xs : list string) : bool :=
  existsb (String.eqb x) xs.

(** [any(keyword in line for keyword in keywords)]. *)
Definition any_in (keywords : list string) (line : string) : bool :=
  existsb (fun keyword => contains keyword line) keywords.

Definition nl : string := String (ascii_of_N 10) EmptyString.

End Str.

(* ===================================================================== *)
(** * Response parser: [parse_evaluation]                                 *)
(* ===================================================================== *)

Definition DEFAULT_SCORE : string := "0".
Definition DEFAULT_EXPLANATION : string := "Failed to parse evaluation".
Definition SCORE_KEYWORDS : list string := ["score"; "score:"].
Definition EXPLANATION_KEYWORDS : list string := ["explanation"; "explanation:"].

(** The digits of a line: [''.join(filter(str.isdigit, line))]. *)
Definition score_text_of (line : string) : string :=
  Str.filter_chars Str.isdigit line.

(** One turn of the [for line in lines] loop on [(score, explanation)].
    [line.split(':', 1)[1]] raises [IndexError] on a line without a colon;
    the handler's [continue] ends the turn with [explanation] unchanged. *)
Definition parse_line (st : string * string) (line : string) : string * string :=
  let '(score, explanation) := st in
  let score :=
    if Str.any_in SCORE_KEYWORDS line
    then let score_text := score_text_of line in
         if Str.mem score_text ["0"; "1"] then score_text else score
    else score in
  let explanation :=
    if Str.any_in EXPLANATION_KEYWORDS line
    then match Str.split1 ":" line !! 1%nat with
         | Some rest =>
             let explanation := Str.strip rest in
             if negb (String.eqb explanation EmptyString)
             then Str.capitalize explanation else explanation
         | None => explanation
         end
    else explanation in
  (score, explanation).

(** [lines = [line.lower().strip() for line in text.strip().split('\n')]]. *)
Definition evaluation_lines (text : string) : list string :=
  (fun line => Str.strip (Str.lower line)) <$> Str.split Str.nl (Str.strip text).

(** The fault of [evaluation_text.strip()], the first thing the [try] block
    evaluates: only a [str] has the method. *)
Definition strip_fault (evaluation_text : pyval) : option exn :=
  match evaluation_text with
  | PyStr _ => None
  | PyNone =>
      Some (Exn AttributeError "'NoneType' object has no attribute 'strip'")
  | PyBool _ =>
      Some (Exn AttributeError "'bool' object has no attribute 'strip'")
  end.

(** [parse_evaluation].  The truth test comes before the [try]; a fault
    inside the [try] is caught by [except Exception as e] and turned into
    the default score with an explanation that names it.  On a [str] none
    of the methods used raises. *)
Definition parse_evaluation (evaluation_text : pyval) : string * string :=
  if negb (py_truthy evaluation_text)
  then (DEFAULT_SCORE, DEFAULT_EXPLANATION)
  else
    match strip_fault evaluation_text with
    | Some e => (DEFAULT_SCORE, "Error in evaluation parsing: " +:+ exn_msg e)
    | None =>
        let lines := evaluation_lines (py_format evaluation_text) in
        let '(score, explanation) :=
          fold_left parse_line lines (DEFAULT_SCORE, DEFAULT_EXPLANATION) in
        let score := if Str.mem score ["0"; "1"] then score else DEFAULT_SCORE in
        (score, explanation)
    end.

(* ===================================================================== *)
(** * Numbers read from text: [float(str)]                                *)
(* ===================================================================== *)

(** A Python [float], without the rounding to binary64: a finite value is
    kept as the exact rational its literal denotes. *)
Inductive pyfloat : Type :=
  | Finite (q : Q)
  | Inf (negative : bool)
  | NaN.

Module PyFloat.

(** [digit (["_"] digit)*] after a first digit was read: the value so far,
    the number of digits, and the unread text. *)
Fixpoint digits_from (acc : Z) (cnt : nat) (s : string) : Z * nat * string :=
  match s with
  | EmptyString => (acc, cnt, s)
  | String c r =>
      match Str.decimal_value c with
      | Some d => digits_from (acc * 10 + d) (S cnt) r
      | None =>
          if Ascii.eqb c "_"
          then match r with
               | String c2 r2 =>
                   match Str.decimal_value c2 with
                   | Some d => digits_from (acc * 10 + d) (S cnt) r2
                   | None => (acc, cnt, s)
                   end
               | EmptyString => (acc, cnt, s)
               end
          else (acc, cnt, s)
      end
  end.

Definition digitpart (s : string) : option (Z * nat * string) :=
  match s with
  | String c r =>
      match Str.decimal_value c with
      | Some d => Some (digits_from d 1 r)
      | None => None
      end
  | EmptyString => None
  end.

(** [[digitpart] "." digitpart | digitpart ["."]]: the digits as one
    integer, the number of digits after the point, the unread text. *)
Definition number (s : string) : option (Z * nat * string) :=
  match digitpart s with
  | Some (ip, _, rest) =>
      match rest with
      | String "." r =>
          match digitpart r with
          | Some (fp, n, rest') =>
              Some (ip * 10 ^ Z.of_nat n + fp, n, rest')
          | None => Some (ip, O, r)
          end
      | _ => Some (ip, O, rest)
      end
  | None =>
      match s with
      | String "." r => digitpart r
      | _ => None
      end
  end.

Definition sign (s : string) : bool * string :=
  match s with
  | String "-" r => (true, r)
  | String "+" r => (false, r)
  | _ => (false, s)
  end.

(** [("e" | "E") [sign] digitpart], or nothing. *)
Definition exponent (s : string) : option (Z * string) :=
  match s with
  | String c r =>
      if Ascii.eqb c "e" || Ascii.eqb c "E"
      then let '(neg, r) := sign r in
           match digitpart r with
           | Some (e, _, rest) => Some (if neg then - e else e, rest)
           | None => None
           end
      else Some (0, s)
  | EmptyString => Some (0, s)
  end.

Definition floatnumber (s : string) : option Q :=
  match number s with
  | Some (m, n, rest) =>
      match exponent rest with
      | Some (e, EmptyString) =>
          Some (Qred (inject_Z m * Qpower (inject_Z 10) (e - Z.of_nat n)))
      | _ => None
      end
  | None => None
  end.

(** [float(s)] for a [str]: [None] stands for the [ValueError]. *)
Definition of_str (s : string) : option pyfloat :=
  let '(neg, body) := sign (Str.strip s) in
  let word := Str.lower body in
  if Str.mem word ["inf"; "infinity"] then Some (Inf neg)
  else if String.eqb word "nan" then Some NaN
  else match floatnumber body with
       | Some q => Some (Finite (if neg then Qred (- q) else q))
       | None => None
       end.

Definition of_Z (z : Z) : pyfloat := Finite (inject_Z z).

(** [x + y] on floats. *)
Definition add (x y : pyfloat) : pyfloat :=
  match x, y with
  | Finite a, Finite b => Finite (Qred (a + b))
  | NaN, _ | _, NaN => NaN
  | Inf n, Inf m => if Bool.eqb n m then Inf n else NaN
  | Inf n, Finite _ | Finite _, Inf n => Inf n
  end.

End PyFloat.

(* ===================================================================== *)
(** * Numbers the code computes: binary64                                 *)
(* ===================================================================== *)

(** The arithmetic of [evaluate_rag_system] on [float]s.  Its numbers are
    finite and not negative; such a number is kept as the rational it
    denotes, and an operation is the exact operation followed by the
    rounding of IEEE 754 binary64: to the nearest number with 53 significant
    bits whose last bit has an exponent of at least -1074, ties to the even
    significand. *)
Module Binary64.

(** The integer nearest to [a / b] for [b > 0], ties to even. *)
Definition div_rne (a b : Z) : Z :=
  let q := a / b in
  let r := a mod b in
  if 2 * r <? b then q
  else if b <? 2 * r then q + 1
  else if Z.even q then q else q + 1.

(** The [k] with [2 ^ k <= a / b < 2 ^ (k + 1)], for positive [a] and [b]. *)
Definition ilog (a b : Z) : Z :=
  let k := Z.log2 a - Z.log2 b in
  if (if 0 <=? k then b * 2 ^ k <=? a else b <=? a * 2 ^ (- k))
  then k else k - 1.

(** The binary64 number nearest to [a / b], for [0 <= a], [0 < b] and a
    quotient below [2 ^ 1024]: [e] is the exponent of its last bit. *)
Definition round (a b : Z) : Q :=
  if a <=? 0 then 0%Q
  else
    let e := Z.max (ilog a b - 52) (-1074) in
    if 0 <=? e
    then inject_Z (div_rne a (b * 2 ^ e) * 2 ^ e)
    else Qred (Qmake (div_rne (a * 2 ^ (- e)) b) (Z.to_pos (2 ^ (- e)))).

(** [a / b] on two [int]s: the quotient, rounded once. *)
Definition truediv (a b : Z) : Q := round a b.

(** [x * c] for a [float] and an [int] that converts exactly: the product,
    rounded once. *)
Definition mul (x : Q) (c : Z) : Q := round (Qnum x * c) (Z.pos (Qden x)).

(** The same two operations in the Standard Library's specification of
    IEEE 754 arithmetic, for comparison. *)
Definition of_int (z : Z) : spec_float :=
  match z with
  | Z0 => S754_zero false
  | Z.pos p => S754_finite false p 0
  | Z.neg p => S754_finite true p 0
  end.

Definition to_Q (x : spec_float) : option Q :=
  match x with
  | S754_zero _ => Some 0%Q
  | S754_finite s m e =>
      let v := if 0 <=? e then inject_Z (Z.pos m * 2 ^ e)
               else Qred (Qmake (Z.pos m) (Z.to_pos (2 ^ (- e)))) in
      Some (if s then Qopp v else v)
  | _ => None
  end.

Definition spec_percent (a b : Z) : option Q :=
  to_Q (SFmul 53 1024 (SFdiv 53 1024 (of_int a) (of_int b)) (of_int 100)).

End Binary64.

(* ===================================================================== *)
(** * Rate-limited caller: [TestGenerator.create_tests]                   *)
(* ===================================================================== *)

(** What the retry loop does to the outside: calls of [chain.invoke] made so
    far, and the durations passed to [time.sleep], oldest first. *)
Record caller_state : Type := CallerState {
  invocations : nat;
  sleeps : list pyfloat
}.

Definition caller_init : caller_state := CallerState 0 [].

(** [time.sleep(secs)] by the checks CPython documents: a negative or NaN
    duration is a [ValueError]; a duration whose nanosecond count does not
    fit the signed 64-bit clock type (so also an infinite one) is an
    [OverflowError].  What a platform does with a duration close to that
    limit is left to [sleep_on] below. *)
Definition sleep_accepts (secs : pyfloat) : bool :=
  match secs with
  | Finite q =>
      Qle_bool 0 q && Qle_bool (q * inject_Z (10 ^ 9)) (inject_Z (2 ^ 63 - 1))
  | _ => false
  end.

Definition time_sleep (secs : pyfloat) (st : caller_state) : outcome caller_state :=
  match secs with
  | Finite q =>
      if negb (Qle_bool 0 q)
      then Raise (Exn ValueError "sleep length must be non-negative")
      else if Qle_bool (q * inject_Z (10 ^ 9)) (inject_Z (2 ^ 63 - 1))
           then Ret (CallerState (invocations st) (sleeps st ++ [secs]))
           else Raise (Exn OverflowError "timestamp too large to convert to C PyTime_t")
  | Inf _ => Raise (Exn OverflowError "timestamp too large to convert to C PyTime_t")
  | NaN => Raise (Exn ValueError "Invalid value NaN (not a number)")
  end.

(** [time.sleep] on any platform: [fault k secs] is the exception, if any,
    that the call with duration [secs] raises once [k] calls of
    [chain.invoke] have been made. *)
Definition sleep_on (fault : nat -> pyfloat -> option exn) (secs : pyfloat)
    (st : caller_state) : outcome caller_state :=
  match fault (invocations st) secs with
  | Some e => Raise e
  | None => Ret (CallerState (invocations st) (sleeps st ++ [secs]))
  end.

(** The documented checks, as such a platform. *)
Definition documented_fault (k : nat) (secs : pyfloat) : option exn :=
  match time_sleep secs caller_init with
  | Raise e => Some e
  | Ret _ => None
  end.

Definition max_retries : nat := 5.
Definition initial_retry_delay : Z := 2.
Definition default_wait_time : pyfloat := PyFloat.of_Z 60.

Definition is_rate_limit (error_message : string) : bool :=
  Str.contains "rate_limit_exceeded" error_message.

(** The [wait_time] of the rate-limit arm: 60 unless the text after the
    marker, up to the next full stop, reads as a float.  The bare [except]
    covers the [ValueError] of [float]; the two subscripts cannot fail once
    the marker is present. *)
Definition rate_limit_wait (error_message : string) : pyfloat :=
  let wait_time := default_wait_time in
  if Str.contains "Please try again in" error_message
  then match Str.split "Please try again in" error_message !! 1%nat with
       | Some after =>
           match Str.split "." after !! 0%nat with
           | Some wait_time_str =>
               match PyFloat.of_str (Str.strip wait_time_str) with
               | Some w => w
               | None => wait_time
               end
           | None => wait_time
           end
       | None => wait_time
       end
  else wait_time.

Definition terminal_error : exn :=
  Exn PlainException
      ("Failed to complete after " +:+ pretty (N.of_nat max_retries) +:+ " attempts.").

(** The [for attempt in range(max_retries)] loop with [remaining] turns to
    go.  [sleep] is [time.sleep]; [invoke k] is what the [k]-th call of
    [chain.invoke] (counting from 0) does: return the response or raise.  A
    fault of [time.sleep] is raised inside the handler and so leaves
    [create_tests]. *)
Fixpoint retry_loop (sleep : pyfloat -> caller_state -> outcome caller_state)
    (invoke : nat -> outcome string) (remaining : nat)
    (retry_delay : Z) (st : caller_state) : outcome string * caller_state :=
  match remaining with
  | O => (Raise terminal_error, st)
  | S remaining' =>
      let called := CallerState (S (invocations st)) (sleeps st) in
      match invoke (invocations st) with
      | Ret response => (Ret response, called)
      | Raise e =>
          let error_message := exn_msg e in
          if Str.contains "rate_limit_exceeded" error_message
          then
            let wait_time := rate_limit_wait error_message in
            match sleep wait_time called with
            | Ret slept => retry_loop sleep invoke remaining' retry_delay slept
            | Raise e' => (Raise e', called)
            end
          else
            match sleep (PyFloat.of_Z retry_delay) called with
            | Ret slept =>
                retry_loop sleep invoke remaining' (retry_delay * 2) slept
            | Raise e' => (Raise e', called)
            end
      end
  end.

(** [create_tests(context, id, num_tests)] with a given [time.sleep]:
    [chain] is the prompt template piped into the model, as a function of
    the template's arguments. *)
Definition create_tests_on
    (sleep : pyfloat -> caller_state -> outcome caller_state)
    (chain : string -> string -> Z -> nat -> outcome string)
    (context id : string) (num_tests : Z) (st : caller_state)
    : outcome string * caller_state :=
  retry_loop sleep (chain context id num_tests) max_retries initial_retry_delay st.

(** [create_tests] with the [time.sleep] of the documented checks. *)
Definition create_tests := create_tests_on time_sleep.

(* ===================================================================== *)
(** * Test-set generator: [TestGenerator.parse_response]                  *)
(* ===================================================================== *)

(** An entry of [data]: the dict with keys id, question_num, question,
    answer ([process_file] adds filename afterwards). *)
Record TestCase : Type := MkTestCase {
  tc_id : string;
  tc_question_num : string;
  tc_question : string;
  tc_answer : string
}.

(** The local variables of [parse_response] between two lines. *)
Record parser_state : Type := ParserState {
  data : list TestCase;
  current_id : string;
  current_question_num : string;
  current_question : string;
  current_answer : string
}.

Definition parser_init : parser_state :=
  ParserState [] EmptyString EmptyString EmptyString EmptyString.

Definition no_colon : exn := Exn IndexError "list index out of range".

(** [line.split(':', 1)[k]]. *)
Definition colon_part (k : nat) (line : string) : outcome string :=
  match Str.split1 ":" line !! k with
  | Some part => Ret part
  | None => Raise no_colon
  end.

(** The tag before the colon with its prefix removed:
    [line.split(':',1)[0].replace(prefix, '').strip()]. *)
Definition tag_number (prefix line : string) : string :=
  match Str.split1 ":" line with
  | head :: _ => Str.strip (Str.replace prefix EmptyString head)
  | [] => EmptyString
  end.

(** One turn of [for line in lines]. *)
Definition parse_response_line (st : parser_state) (line : string)
    : outcome parser_state :=
  if Str.startswith line "id:"
  then Ret (ParserState (data st) (Str.strip (Str.replace "id:" EmptyString line))
              (current_question_num st) (current_question st) (current_answer st))
  else if Str.startswith line "question_"
  then let question_num := tag_number "question_" line in
       match colon_part 1 line with
       | Ret text =>
           Ret (ParserState (data st) (current_id st) question_num
                  (Str.strip text) (current_answer st))
       | Raise e => Raise e
       end
  else if Str.startswith line "answer_"
  then let answer_num := tag_number "answer_" line in
       if String.eqb answer_num (current_question_num st)
       then match colon_part 1 line with
            | Ret text =>
                let answer := Str.strip text in
                Ret (ParserState
                       (data st ++ [MkTestCase (current_id st) (current_question_num st)
                                      (current_question st) answer])
                       (current_id st) (current_question_num st) EmptyString EmptyString)
            | Raise e => Raise e
            end
       else Ret st
  else Ret st.

Fixpoint parse_response_lines (lines : list string) (st : parser_state)
    : outcome parser_state :=
  match lines with
  | [] => Ret st
  | line :: rest =>
      match parse_response_line st line with
      | Ret st' => parse_response_lines rest st'
      | Raise e => Raise e
      end
  end.

Definition parse_response (response_text : string) : outcome (list TestCase) :=
  match parse_response_lines (Str.split Str.nl (Str.strip response_text)) parser_init with
  | Ret st => Ret (data st)
  | Raise e => Raise e
  end.

(* ===================================================================== *)
(** * Batch evaluator: [evaluate_batch] and its [process_question]        *)
(* ===================================================================== *)

(** A record of the test set, as [test_df.to_dict('records')] yields it.
    [id] and [question_num] are only ever copied, so their text stands for
    them. *)
Record row : Type := Row {
  row_id : string;
  row_question_num : string;
  row_question : string;
  row_answer : string;
  row_filename : string
}.

(** The dict [process_question] returns. *)
Record result : Type := Result {
  question_id : string;
  question_num : string;
  question : string;
  expected_answer : string;
  rag_response : pyval;
  score : string;
  explanation : string;
  source_file : string
}.

(** The keys of that dict, in insertion order: the report's columns. *)
Definition result_keys : list string :=
  ["question_id"; "question_num"; "question"; "expected_answer";
   "rag_response"; "score"; "explanation"; "source_file"].

(** The f-string [eval_prompt]. *)
Definition eval_prompt (r : row) (rag_response : pyval) : string :=
  "Evaluate if the RAG system's response includes the expected answer." +:+ Str.nl
  +:+ Str.nl
  +:+ "Question: " +:+ row_question r +:+ Str.nl
  +:+ "Expected Answer: " +:+ row_answer r +:+ Str.nl
  +:+ "RAG System Response: " +:+ py_format rag_response +:+ Str.nl
  +:+ Str.nl
  +:+ "Instructions:" +:+ Str.nl
  +:+ "1. Compare the RAG response with the expected answer" +:+ Str.nl
  +:+ "2. Score 1 if the RAG response includes the expected answer" +:+ Str.nl
  +:+ "3. Score 0 if it does not include the expected answer" +:+ Str.nl
  +:+ "4. Provide a brief explanation for your score" +:+ Str.nl
  +:+ Str.nl
  +:+ "You must respond using EXACTLY this format:" +:+ Str.nl
  +:+ "Score: [0 or 1]" +:+ Str.nl
  +:+ "Explanation: [your brief explanation]" +:+ Str.nl
  +:+ Str.nl
  +:+ "Do not include any other text in your response.".

(** The dict of the [except Exception as e] arm. *)
Definition error_result (r : row) (e : exn) : result :=
  Result (row_id r) (row_question_num r) (row_question r) (row_answer r)
         (PyStr "ERROR") "0" ("Error during evaluation: " +:+ exn_msg e)
         (row_filename r).

(** The progress bar: [tqdm(total=..., desc=...)]. *)
Record tqdm : Type := Tqdm {
  total : nat;
  counted : nat;
  desc : string;
  closed : bool
}.

(** [bool(pbar)] for an [Optional[tqdm]]: a bar with a known total is true
    exactly when that total is positive. *)
Definition pbar_truthy (pbar : option tqdm) : bool :=
  match pbar with
  | Some bar => (0 <? total bar)%nat
  | None => false
  end.

(** [range(0, n, step)] for a positive [step]. *)
Definition py_range (n step : nat) : list nat :=
  (fun k => (k * step)%nat) <$> seq 0 ((n + step - 1) / step)%nat.

Section Evaluator.

(** The state of the collaborators and the two collaborators: each call may
    return a value or raise, and may change that state. *)
Context {W : Type}.
Variable rag_query_fn : string -> W -> outcome pyval * W.
Variable evaluator_model : string -> W -> outcome pyval * W.

Definition process_question (r : row) (w : W) : result * W :=
  match rag_query_fn (row_question r) w with
  | (Raise e, w1) => (error_result r e, w1)
  | (Ret response, w1) =>
      match evaluator_model (eval_prompt r response) w1 with
      | (Raise e, w2) => (error_result r e, w2)
      | (Ret evaluation, w2) =>
          let '(score, explanation) := parse_evaluation evaluation in
          (Result (row_id r) (row_question_num r) (row_question r) (row_answer r)
                  response score explanation (row_filename r), w2)
      end
  end.

(** ** [asyncio.gather]

    [gather] starts one task per awaitable and returns their results in the
    order of the awaitables.  [sched] says which of the tasks still pending
    completes next (its position among them, modulo their number; 0 once
    [sched] is used up), so every list is a schedule and every completion
    order has one.  A finished task stores its result in its own slot. *)
Section Gather.
Context {R : Type}.

Fixpoint run_tasks (n : nat) (sched : list nat)
    (pending : list (nat * (W -> R * W))) (slots : list (option R)) (w : W)
    : list (option R) * W :=
  match n with
  | O => (slots, w)
  | S n' =>
      let k := (hd O sched mod length pending)%nat in
      match pending !! k with
      | Some (i, t) =>
          let '(r, w') := t w in
          run_tasks n' (tl sched) (delete k pending) (<[i := Some r]> slots) w'
      | None => (slots, w)
      end
  end.

Definition gather (tasks : list (W -> R * W)) (sched : list nat) (w : W)
    : list R * W :=
  let n := length tasks in
  let '(slots, w') :=
    run_tasks n sched (zip (seq 0 n) tasks) (replicate n None) w in
  (omap (fun slot => slot) slots, w').
End Gather.

(** ** The loop over batches

    [sched_of i] is the completion order inside the batch that starts at
    index [i]. *)
Section Batches.
Variable questions : list row.
Variable batch_size : nat.
Variable sched_of : nat -> list nat.

Definition batch_description (i : nat) : string :=
  "Processing batch " +:+ pretty (N.of_nat (i / batch_size + 1)) +:+ "/"
  +:+ pretty (N.of_nat (length questions / batch_size + 1)).

Definition pbar_progress (pbar : option tqdm) (i count : nat) : option tqdm :=
  if pbar_truthy pbar
  then (fun bar => Tqdm (total bar) (counted bar + count) (batch_description i)
                        (closed bar)) <$> pbar
  else pbar.

Fixpoint batch_loop (starts : list nat) (results : list result)
    (pbar : option tqdm) (w : W) : list result * option tqdm * W :=
  match starts with
  | [] => (results, pbar, w)
  | i :: starts' =>
      let batch := take batch_size (drop i questions) in
      let '(batch_results, w') :=
        gather (process_question <$> batch) (sched_of i) w in
      batch_loop starts' (results ++ batch_results)
                 (pbar_progress pbar i (length batch)) w'
  end.
End Batches.

(** [evaluate_batch].  [range] refuses a zero step and is empty for a
    negative one. *)
Definition evaluate_batch (questions : list row) (batch_size : Z)
    (pbar : option tqdm) (sched_of : nat -> list nat) (w : W)
    : outcome (list result) * option tqdm * W :=
  if batch_size =? 0
  then (Raise (Exn ValueError "range() arg 3 must not be zero"), pbar, w)
  else if batch_size <? 0
  then (Ret [], pbar, w)
  else
    let step := Z.to_nat batch_size in
    let '(results, pbar', w') :=
      batch_loop questions step sched_of
                 (py_range (length questions) step) [] pbar w in
    (Ret results, pbar', w').

End Evaluator.

(* ===================================================================== *)
(** * Aggregator and reporter: [evaluate_rag_system]                      *)
(* ===================================================================== *)

(** What a path names.  The content of a CSV file is kept parsed: a test set
    as its records, a report as its header (absent until [writeheader]) and
    its records. *)
Inductive node : Type :=
  | Dir
  | TestSetFile (rows : list row)
  | ReportFile (header : option (list string)) (rows : list result).

Definition empty_file : node := ReportFile None [].

(** The surroundings of a run: the file system as a map from the path
    strings handed to the operating system, the clock reading already
    formatted by [strftime("%Y%m%d_%H%M%S")], the paths the operating system
    refuses to create or open for writing (permissions, a missing parent
    directory, a full disk), and the state of the collaborators. *)
Record world (W : Type) : Type := World {
  fs : gmap string node;
  now : string;
  refused : string -> bool;
  ext : W
}.
Arguments World {W} fs now refused ext.
Arguments fs {W} w.
Arguments now {W} w.
Arguments refused {W} w p.
Arguments ext {W} w.

Definition path_exists (files : gmap string node) (p : string) : bool :=
  bool_decide (is_Some (files !! p)).

(** [pd.read_csv(path)] on an existing path that holds a test set or a
    directory.  A report file is no test set: pandas would read it as a
    table without the test-set columns, and what [process_question] does
    with such rows is not described here; the reader's fault stands in for
    it, and the properties that depend on it exclude such a path. *)
Definition read_csv (files : gmap string node) (p : string) : outcome (list row) :=
  match files !! p with
  | Some (TestSetFile rows) => Ret rows
  | Some Dir => Raise (Exn OSError ("Is a directory: " +:+ p))
  | _ => Raise (Exn ParserError ("Error tokenizing data: " +:+ p))
  end.

(** [test_df.head(num_tests)] for [num_tests >= 1]. *)
Definition head_rows (num_tests : option Z) (rows : list row) : list row :=
  match num_tests with
  | Some k => take (Z.to_nat k) rows
  | None => rows
  end.

(** The first pass over the results; its two totals are reassigned before
    they are read. *)
Definition first_pass (results : list result) : pyfloat * Z :=
  fold_left
    (fun '(total_score, valid_scores) r =>
       match PyFloat.of_str (score r) with
       | Some x => (PyFloat.add total_score x, valid_scores + 1)
       | None => (total_score, valid_scores)
       end)
    results (PyFloat.of_Z 0, 0).

Definition is_valid_score (s : string) : bool := Str.mem s ["0"; "1"].

(** [int(s)], which the code applies to ['0'] and ['1'] only. *)
Definition int_of_score (s : string) : Z :=
  match s with
  | String c EmptyString => default 0 (Str.decimal_value c)
  | _ => 0
  end.

Definition sum_Z (xs : list Z) : Z := foldr Z.add 0 xs.

(** Lines 199 to 211: the average.  [total_score / valid_scores] divides
    two [int]s and [* 100] multiplies the [float] that gives, each with its
    rounding. *)
Definition average_of (results : list result) : Q :=
  let '(total_score, valid_scores) := first_pass results in
  let total_score :=
    sum_Z ((fun r => int_of_score (score r))
             <$> List.filter (fun r => is_valid_score (score r)) results) in
  let valid_scores :=
    sum_Z ((fun _ => 1)
             <$> List.filter (fun r => is_valid_score (score r)) results) in
  if 0 <? valid_scores
  then Binary64.mul (Binary64.truediv total_score valid_scores) 100
  else 0%Q.

Definition auto_output_name (timestamp : string) : string :=
  "rag_evaluation_results_" +:+ timestamp +:+ ".csv".

(** The path the report is opened at. *)
Definition report_path (output_path : option string) (timestamp : string) : string :=
  "results/" +:+ match output_path with
                 | Some p => p
                 | None => auto_output_name timestamp
                 end.

Definition refusal (p : string) : exn := Exn OSError ("cannot write: " +:+ p).

(** [if not os.path.exists("results"): os.makedirs("results")]. *)
Definition ensure_results_dir (files : gmap string node) (refuse : string -> bool)
    : outcome (gmap string node) :=
  if path_exists files "results" then Ret files
  else if refuse "results" then Raise (refusal "results")
  else Ret (<["results" := Dir]> files).

(** [open(path, 'w')]: the file is created empty, or emptied. *)
Definition open_w (files : gmap string node) (refuse : string -> bool) (p : string)
    : outcome (gmap string node) :=
  if refuse p then Raise (refusal p) else Ret (<[p := empty_file]> files).

(** The [with open(...)] block: [results[0].keys()] is evaluated once the
    file is open, then the header and the records are written. *)
Definition write_report (files : gmap string node) (p : string)
    (results : list result) : outcome unit * gmap string node :=
  match results !! 0%nat with
  | None => (Raise (Exn IndexError "list index out of range"), files)
  | Some _ => (Ret tt, <[p := ReportFile (Some result_keys) results]> files)
  end.

Section Reporter.
Context {W : Type}.
Variable rag_query_fn : string -> W -> outcome pyval * W.
Variable evaluator_model : string -> W -> outcome pyval * W.

(** The body of the [try]: an exception raised in it is printed and raised
    again unchanged, and the bar is closed on every way out; neither the
    console nor the bar is part of [world]. *)
Definition run_and_report (questions : list row) (output_path : option string)
    (batch_size : Z) (sched_of : nat -> list nat) (w : world W)
    : outcome Q * world W :=
  let output_path :=
    match output_path with
    | Some p => p
    | None => auto_output_name (now w)
    end in
  let pbar := Some (Tqdm (length questions) 0 "Evaluating questions" false) in
  match evaluate_batch rag_query_fn evaluator_model questions batch_size pbar
          sched_of (ext w) with
  | (Raise e, _, x) => (Raise e, World (fs w) (now w) (refused w) x)
  | (Ret results, _, x) =>
      let average_score := average_of results in
      let output_path := "results/" +:+ output_path in
      match ensure_results_dir (fs w) (refused w) with
      | Raise e => (Raise e, World (fs w) (now w) (refused w) x)
      | Ret files1 =>
          match open_w files1 (refused w) output_path with
          | Raise e => (Raise e, World files1 (now w) (refused w) x)
          | Ret files2 =>
              match write_report files2 output_path results with
              | (Raise e, files3) => (Raise e, World files3 (now w) (refused w) x)
              | (Ret _, files3) =>
                  (Ret average_score, World files3 (now w) (refused w) x)
              end
          end
      end
  end.

Definition evaluate_rag_system (test_set_path : string)
    (output_path : option string) (batch_size : Z) (num_tests : option Z)
    (sched_of : nat -> list nat) (w : world W) : outcome Q * world W :=
  if negb (path_exists (fs w) test_set_path)
  then (Raise (Exn FileNotFoundError
                 ("Test set file not found: " +:+ test_set_path)), w)
  else if batch_size <? 1
  then (Raise (Exn ValueError "batch_size must be at least 1"), w)
  else if match num_tests with Some k => k <? 1 | None => false end
  then (Raise (Exn ValueError "num_tests must be at least 1"), w)
  else
    match read_csv (fs w) test_set_path with
    | Raise e => (Raise e, w)
    | Ret rows =>
        run_and_report (head_rows num_tests rows) output_path batch_size
                       sched_of w
    end.

End Reporter.

(* ===================================================================== *)
(** * Vocabulary of the properties                                        *)
(* ===================================================================== *)

(** The duration slept after a failure with message [error_message] while
    the back-off delay is [retry_delay], and the delay afterwards. *)
Definition wait_for (error_message : string) (retry_delay : Z) : pyfloat :=
  if is_rate_limit error_message
  then rate_limit_wait error_message
  else PyFloat.of_Z retry_delay.

Definition next_delay (error_message : string) (retry_delay : Z) : Z :=
  if is_rate_limit error_message then retry_delay else retry_delay * 2.

(** A line the score loop accepts: it holds a score keyword and its digits,
    put together, are exactly "0" or "1". *)
Definition accepted_score (line : string) : option string :=
  if Str.any_in SCORE_KEYWORDS line && Str.mem (score_text_of line) ["0"; "1"]
  then Some (score_text_of line)
  else None.

(** The digits of the last accepted line, if any line is accepted. *)
Definition last_accepted (lines : list string) : option string :=
  last (omap accepted_score lines).

(** The number of results whose score is [s]. *)
Definition count_score (s : string) (results : list result) : Z :=
  Z.of_nat (length (List.filter (fun r => String.eqb (score r) s) results)).

(** A result list with the given scores and nothing else of interest. *)
Definition results_scored (scores : list string) : list result :=
  (fun s => Result EmptyString EmptyString EmptyString EmptyString PyNone s
                   EmptyString EmptyString) <$> scores.

(** [res] carries the identity of the question [r] it was computed for. *)
Definition answers (r : row) (res : result) : Prop :=
  question_id res = row_id r /\ question_num res = row_question_num r /\
  question res = row_question r /\ expected_answer res = row_answer r /\
  source_file res = row_filename r.

Section EvaluatorVocabulary.
Context {W : Type}.
Variable rag_query_fn : string -> W -> outcome pyval * W.
Variable evaluator_model : string -> W -> outcome pyval * W.

(** The fault, if any, that evaluating [r] meets when its task runs in
    collaborator state [w]: raised by the RAG call, or else by the judge. *)
Definition fault_at (r : row) (w : W) : option exn :=
  match rag_query_fn (row_question r) w with
  | (Raise e, _) => Some e
  | (Ret response, w1) =>
      match evaluator_model (eval_prompt r response) w1 with
      | (Raise e, _) => Some e
      | (Ret _, _) => None
      end
  end.

(** What the two collaborators hand back for [r] in state [w] when neither
    raises: the RAG response and the judge's text. *)
Definition judged_at (r : row) (w : W) : option (pyval * pyval) :=
  match rag_query_fn (row_question r) w with
  | (Raise _, _) => None
  | (Ret response, w1) =>
      match evaluator_model (eval_prompt r response) w1 with
      | (Raise _, _) => None
      | (Ret evaluation, _) => Some (response, evaluation)
      end
  end.

(** [res] is what [process_question] returns for [r] in some state. *)
Definition evaluated (r : row) (res : result) : Prop :=
  exists w, res = (process_question rag_query_fn evaluator_model r w).1.

End EvaluatorVocabulary.

(** What holds in [run_tasks] between two completions: every pending entry
    is a task of the call under its own index, every filled slot holds a
    result of the task of that index, and an empty slot belongs to a pending
    task. *)
Definition gather_inv {W R : Type} (tasks : list (W -> R * W))
    (pending : list (nat * (W -> R * W))) (slots : list (option R)) : Prop :=
  Forall (fun p => tasks !! p.1 = Some p.2) pending /\
  Forall2 (fun t s => match s with
                      | None => True
                      | Some r => exists w, r = (t w).1
                      end) tasks slots /\
  (forall i, slots !! i = Some None -> i ∈ pending.*1).

(** The run may create the results directory and the report. *)
Definition report_writable {W : Type} (w : world W) (output_path : option string)
    : bool :=
  (path_exists (fs w) "results" || negb (refused w "results"))
  && negb (refused w (report_path output_path (now w))).

(** The file system once the results directory is there. *)
Definition with_results_dir (files : gmap string node) : gmap string node :=
  if path_exists files "results" then files else <["results" := Dir]> files.

(* ===================================================================== *)
(** * A small run, used to instantiate the properties                     *)
(* ===================================================================== *)

Module Sample.

(** Collaborators whose state counts the calls made so far.  The RAG
    function has no index for "q3" and is down for "q2"; the judge always
    approves. *)
Definition rag (q : string) (calls : nat) : outcome pyval * nat :=
  if String.eqb q "q2" then (Raise (Exn PlainException "connection reset"), S calls)
  else if String.eqb q "q3" then (Ret PyNone, S calls)
  else (Ret (PyStr ("passage for " +:+ q)), S calls).

Definition judge (prompt : string) (calls : nat) : outcome pyval * nat :=
  (Ret (PyStr ("Score: 1" +:+ Str.nl +:+ "Explanation: it is included")), S calls).

Definition q1 : row := Row "1" "1" "q1" "a1" "doc1.txt".
Definition q2 : row := Row "1" "2" "q2" "a2" "doc1.txt".
Definition q3 : row := Row "2" "1" "q3" "a3" "doc2.txt".
Definition questions : list row := [q1; q2; q3].

(** In every batch the second task completes first. *)
Definition sched_of (i : nat) : list nat := [1%nat; 0%nat].

Definition world0 : world nat :=
  World {[ "data/test.csv" := TestSetFile questions ]} "20240131_120000"
        (fun _ => false) 0%nat.

(** A test set with its header line only. *)
Definition world_empty : world nat :=
  World {[ "data/test.csv" := TestSetFile [] ]} "20240131_120000"
        (fun _ => false) 0%nat.

(** A generator that is unreachable on every call, and one that recovers
    on its third. *)
Definition chain_down (context id : string) (num_tests : Z) (k : nat)
    : outcome string :=
  Raise (Exn PlainException "connection reset").

Definition chain_recovers (context id : string) (num_tests : Z) (k : nat)
    : outcome string :=
  if (k <? 2)%nat then Raise (Exn PlainException "connection reset")
  else Ret "id: 1".

End Sample.

(* ===================================================================== *)
(** * Further parts of the sources                                        *)
(* ===================================================================== *)

(** ** [RAGSystem.query] ([rag.py], [src/rag/system.py])

    Of the object only [query_engine] matters to [query]: it is [None] until
    [load_index] has run.  A loaded engine is the function from the query
    text to the joined texts of the retrieved nodes, which may raise. *)
Record RAGSystem (W : Type) : Type := MkRAGSystem {
  query_engine : option (string -> W -> outcome pyval * W)
}.
Arguments MkRAGSystem {W} query_engine.
Arguments query_engine {W} _.

Definition RAGSystem_query {W : Type} (self : RAGSystem W) (query_text : string)
    (w : W) : outcome pyval * W :=
  match query_engine self with
  | None => (Ret PyNone, w)
  | Some engine => engine query_text w
  end.

(** ** [TestGenerator.process_file] and [TestGenerator.main] ([create_test.py]) *)

(** [os.path.basename(p)]: what follows the last slash. *)
Definition basename (p : string) : string :=
  default EmptyString (last (Str.split "/" p)).

(** The documents folder: the text of every file that can be read. *)
Definition read_document (documents : gmap string string) (file_path : string)
    : outcome string :=
  match documents !! file_path with
  | Some text => Ret text
  | None => Raise (Exn FileNotFoundError ("No such file or directory: " +:+ file_path))
  end.

(** [item['filename'] = filename]: the dict becomes a record of the test set. *)
Definition with_filename (filename : string) (item : TestCase) : row :=
  Row (tc_id item) (tc_question_num item) (tc_question item) (tc_answer item)
      filename.

(** [process_file((file_path, id_counter, num_tests))].  Each call runs its
    own retry loop, so it starts from [caller_init] and hands back what that
    loop did. *)
Definition process_file (chain : string -> string -> Z -> nat -> outcome string)
    (documents : gmap string string) (args : string * nat * Z)
    : outcome (list row) * caller_state :=
  let '(file_path, id_counter, num_tests) := args in
  let filename := basename file_path in
  match read_document documents file_path with
  | Raise e => (Raise e, caller_init)
  | Ret context =>
      match create_tests chain context (pretty (N.of_nat id_counter)) num_tests
              caller_init with
      | (Raise e, st) => (Raise e, st)
      | (Ret response, st) =>
          match parse_response (Str.strip response) with
          | Raise e => (Raise e, st)
          | Ret parsed_data => (Ret (with_filename filename <$> parsed_data), st)
          end
      end
  end.

(** [args_list = [(file_path, idx + 1, num_tests_per_file) for idx, file_path
    in enumerate(files)]]. *)
Definition args_list (files : list string) (num_tests_per_file : Z)
    : list (string * nat * Z) :=
  imap (fun idx file_path => (file_path, S idx, num_tests_per_file)) files.

(** [list(executor.map(...))]: the results in the order of the arguments, or
    the exception of the first argument, in that order, whose call raised. *)
Fixpoint collect_results {A : Type} (results : list (outcome A)) : outcome (list A) :=
  match results with
  | [] => Ret []
  | Ret a :: rest =>
      match collect_results rest with
      | Ret others => Ret (a :: others)
      | Raise e => Raise e
      end
  | Raise e :: _ => Raise e
  end.

Definition num_tests_per_file : Z := 20.

(** [main], given what [glob.glob] lists: the CSV files on disk before and
    after, as their records.  [data.extend] cannot raise, so its handler is
    never entered. *)
Definition generator_main (chain : string -> string -> Z -> nat -> outcome string)
    (documents : gmap string string) (files : list string)
    (csv_files : gmap string (list row))
    : outcome unit * gmap string (list row) :=
  let futures :=
    (fun args => (process_file chain documents args).1)
      <$> args_list files num_tests_per_file in
  match collect_results futures with
  | Raise e => (Raise e, csv_files)
  | Ret parsed => (Ret tt, <["output.csv" := concat parsed]> csv_files)
  end.

(** ** [get_env_variable] ([src/utils/env_utils.py]) *)

(** The faults that can leave [get_env_variable]: [input] at the end of the
    input; the two refusals of [os.environ[name] = value] (a name that is
    empty or holds an equals sign, a [ValueError] or an [OSError] by the
    version of Python; a null character, a [ValueError]); and the exception
    of an operation on the [.env] file. *)
Inductive env_fault : Type :=
  | EOFError
  | IllegalName
  | EmbeddedNull
  | FileFault (e : exn).

Inductive env_outcome (A : Type) : Type :=
  | EnvRet (a : A)
  | EnvRaise (e : env_fault).
Arguments EnvRet {A} a.
Arguments EnvRaise {A} e.

(** The process environment, the lines still to be typed, the text of the
    [.env] file of the working directory when there is one, and what the
    operating system does to that file: the exception, if any, of opening
    and reading it when it is there (no permission, a directory, bytes that
    do not decode), and the exception, if any, of opening it for writing or
    of writing it, with what the failed operation leaves of the file. *)
Record env_state : Type := EnvState {
  environ : gmap string string;
  stdin : list string;
  dotenv : option string;
  read_fault : option exn;
  write_fault : option (exn * option string)
}.

(** An insertion-ordered [dict] with [str] keys and values. *)
Fixpoint dict_set (key val : string) (d : list (string * string))
    : list (string * string) :=
  match d with
  | [] => [(key, val)]
  | (k, v) :: rest =>
      if String.eqb k key then (k, val) :: rest
      else (k, v) :: dict_set key val rest
  end.

Fixpoint dict_get (key : string) (d : list (string * string)) : option string :=
  match d with
  | [] => None
  | (k, v) :: rest => if String.eqb k key then Some v else dict_get key rest
  end.

(** [for line in f]: the lines of a text, each with its newline; [current]
    is the part already read of the line being read. *)
Fixpoint file_lines_from (current : string) (text : string) : list string :=
  match text with
  | EmptyString =>
      match current with
      | EmptyString => []
      | _ => [current]
      end
  | String c rest =>
      if Ascii.eqb c (ascii_of_N 10)
      then (current +:+ Str.nl) :: file_lines_from EmptyString rest
      else file_lines_from (current +:+ String c EmptyString) rest
  end.

Definition file_lines (text : string) : list string :=
  file_lines_from EmptyString text.

(** One turn of the reading loop; [None] stands for the [ValueError] of
    unpacking anything but two parts into [key, val]. *)
Definition read_env_line (existing_vars : option (list (string * string)))
    (line : string) : option (list (string * string)) :=
  match existing_vars with
  | None => None
  | Some vars =>
      if Str.contains "=" line
      then match Str.split1 "=" (Str.strip line) with
           | [key; val] => Some (dict_set key val vars)
           | _ => None
           end
      else Some vars
  end.

(** What a file opened for reading in text mode delivers: a carriage return
    followed by a line feed, and a carriage return alone, arrive as one line
    feed. *)
Fixpoint universal_newlines (text : string) : string :=
  match text with
  | EmptyString => EmptyString
  | String c rest =>
      if Ascii.eqb c (ascii_of_N 13)
      then match rest with
           | String c' _ =>
               if Ascii.eqb c' (ascii_of_N 10) then universal_newlines rest
               else String (ascii_of_N 10) (universal_newlines rest)
           | EmptyString => String (ascii_of_N 10) EmptyString
           end
      else String c (universal_newlines rest)
  end.

Definition read_env (text : string) : option (list (string * string)) :=
  fold_left read_env_line (file_lines (universal_newlines text)) (Some []).

(** The writing loop: one [key=val] line per entry. *)
Fixpoint write_env (vars : list (string * string)) : string :=
  match vars with
  | [] => EmptyString
  | (key, val) :: rest => key +:+ "=" +:+ val +:+ Str.nl +:+ write_env rest
  end.

Definition has_null (s : string) : bool :=
  Str.contains (String (ascii_of_N 0) EmptyString) s.

(** [os.environ[name] = value]. *)
Definition environ_set (name value : string) (env : gmap string string)
    : env_outcome (gmap string string) :=
  if has_null name || has_null value then EnvRaise EmbeddedNull
  else if String.eqb name EmptyString || Str.contains "=" name
  then EnvRaise IllegalName
  else EnvRet (<[name := value]> env).

(** Lines 29 to 35: the entries of [.env] when the file is there.  [None]
    as the result of the reading loop is the [ValueError] of the unpacking;
    it is kept apart from [env_fault] because it cannot occur. *)
Definition existing_env (st : env_state)
    : env_outcome (option (list (string * string))) :=
  match dotenv st with
  | None => EnvRet (Some [])
  | Some text =>
      match read_fault st with
      | Some e => EnvRaise (FileFault e)
      | None => EnvRet (read_env text)
      end
  end.

(** The body of [if not value]: the prompt, [os.environ[name] = value], and
    the update of [.env] when [persist] is set.  The environment is changed
    before the file is opened. *)
Definition prompt_and_store (variable_name : string) (persist : bool)
    (st : env_state) : option (env_outcome string * env_state) :=
  match stdin st with
  | [] => Some (EnvRaise EOFError, st)
  | value :: typed =>
      let unchanged :=
        EnvState (environ st) typed (dotenv st) (read_fault st) (write_fault st) in
      match environ_set variable_name value (environ st) with
      | EnvRaise e => Some (EnvRaise e, unchanged)
      | EnvRet env =>
          let stored :=
            EnvState env typed (dotenv st) (read_fault st) (write_fault st) in
          if persist
          then
            match existing_env st with
            | EnvRaise e => Some (EnvRaise e, stored)
            | EnvRet None => None
            | EnvRet (Some existing_vars) =>
                let existing_vars := dict_set variable_name value existing_vars in
                match write_fault st with
                | Some (e, remains) =>
                    Some (EnvRaise (FileFault e),
                          EnvState env typed remains (read_fault st) (write_fault st))
                | None =>
                    Some (EnvRet value,
                          EnvState env typed (Some (write_env existing_vars))
                                   (read_fault st) (write_fault st))
                end
            end
          else Some (EnvRet value, stored)
      end
  end.

(** [get_env_variable(variable_name, persist)]. *)
Definition get_env_variable (variable_name : string) (persist : bool)
    (st : env_state) : option (env_outcome string * env_state) :=
  match environ st !! variable_name with
  | Some (String c v) => Some (EnvRet (String c v), st)
  | _ => prompt_and_store variable_name persist st
  end.

(* ===================================================================== *)
(** * Vocabulary of the further properties                                *)
(* ===================================================================== *)

(** Every character of [s] satisfies [p]. *)
Fixpoint all_chars (p : ascii -> bool) (s : string) : bool :=
  match s with
  | EmptyString => true
  | String c r => p c && all_chars p r
  end.

Definition is_decimal (c : ascii) : bool :=
  match Str.decimal_value c with
  | Some _ => true
  | None => false
  end.

(** A string of ASCII digits, as a question number or an id is. *)
Definition digits_only (s : string) : bool := all_chars is_decimal s.

Definition is_newline (c : ascii) : bool := Ascii.eqb c (ascii_of_N 10).

(** A text on one line without surrounding white space. *)
Definition tidy (s : string) : Prop :=
  Str.strip s = s /\ all_chars (fun c => negb (is_newline c)) s = true.

(** ['\n'.join(lines)]. *)
Fixpoint join_lines (lines : list string) : string :=
  match lines with
  | [] => EmptyString
  | [line] => line
  | line :: rest => line +:+ Str.nl +:+ join_lines rest
  end.

(** A response in the format the prompt asks for: the id line, then for
    every pair its question line and its answer line. *)
Definition pair_lines (item : TestCase) : list string :=
  [ "question_" +:+ tc_question_num item +:+ ": " +:+ tc_question item;
    "answer_" +:+ tc_question_num item +:+ ": " +:+ tc_answer item ].

Definition render_response (id : string) (items : list TestCase) : string :=
  join_lines (("id: " +:+ id) :: concat (pair_lines <$> items)).

(** An item as the format can carry it under the id [id]. *)
Definition well_formed_item (id : string) (item : TestCase) : Prop :=
  tc_id item = id /\
  digits_only (tc_question_num item) = true /\
  tidy (tc_question item) /\
  tidy (tc_answer item) /\ tc_answer item <> EmptyString.

(** [line] is a question line numbered [num] whose text is [text]. *)
Definition question_line (num text line : string) : Prop :=
  Str.startswith line "id:" = false /\
  Str.startswith line "question_" = true /\
  tag_number "question_" line = num /\
  exists raw, colon_part 1 line = Ret raw /\ Str.strip raw = text.

(** [line] is an answer line numbered [num] whose text is [text]. *)
Definition answer_line (num text line : string) : Prop :=
  Str.startswith line "id:" = false /\
  Str.startswith line "question_" = false /\
  Str.startswith line "answer_" = true /\
  tag_number "answer_" line = num /\
  exists raw, colon_part 1 line = Ret raw /\ Str.strip raw = text.

(** An emitted item comes from an answer line of its number among [lines],
    and its question, unless empty, from a question line of that number. *)
Definition item_from_lines (lines : list string) (item : TestCase) : Prop :=
  (exists line, line ∈ lines /\
                answer_line (tc_question_num item) (tc_answer item) line) /\
  (tc_question item = EmptyString \/
   exists line, line ∈ lines /\
                question_line (tc_question_num item) (tc_question item) line).

Definition is_answer_line (line : string) : bool :=
  negb (Str.startswith line "id:") && negb (Str.startswith line "question_")
  && Str.startswith line "answer_".

(** What the loop keeps true of its state after the lines [seen]. *)
Definition parser_inv (seen : list string) (st : parser_state) : Prop :=
  Forall (item_from_lines seen) (data st) /\
  (current_question st = EmptyString \/
   exists line, line ∈ seen /\
     question_line (current_question_num st) (current_question st) line) /\
  (length (data st) <= length (List.filter is_answer_line seen))%nat.

(** An explanation line the loop accepts: it holds an explanation keyword
    and a colon; what follows the first colon, stripped and capitalized, is
    the explanation. *)
Definition accepted_explanation (line : string) : option string :=
  if Str.any_in EXPLANATION_KEYWORDS line
  then match Str.split1 ":" line !! 1%nat with
       | Some rest =>
           Some (if negb (String.eqb (Str.strip rest) EmptyString)
                 then Str.capitalize (Str.strip rest) else Str.strip rest)
       | None => None
       end
  else None.

Definition last_explanation (lines : list string) : option string :=
  last (omap accepted_explanation lines).

(** How a retry loop that starts at call [k0] with [s0] waits behind it and
    [remaining] attempts to go can end in the state [st'], when [time.sleep]
    raises as [fault] says.  It returns the response of its last call, every
    call before having failed.  Or it raises after calls that all failed:
    the terminal error once the attempts are used up, or at once the
    exception of [time.sleep] when the wait after the last call is
    refused. *)
Definition retry_outcome (fault : nat -> pyfloat -> option exn)
    (invoke : nat -> outcome string) (k0 s0 remaining : nat)
    (r : outcome string) (st' : caller_state) : Prop :=
  let calls := invocations st' in
  (k0 <= calls <= k0 + remaining)%nat /\
  match r with
  | Ret v =>
      (k0 < calls)%nat /\ invoke (calls - 1)%nat = Ret v /\
      (forall k, (k0 <= k < calls - 1)%nat -> exists e, invoke k = Raise e) /\
      length (sleeps st') = (s0 + (calls - 1 - k0))%nat
  | Raise e =>
      (forall k, (k0 <= k < calls)%nat -> exists e', invoke k = Raise e') /\
      ((e = terminal_error /\ calls = (k0 + remaining)%nat /\
        length (sleeps st') = (s0 + remaining)%nat) \/
       ((k0 < calls)%nat /\
        (exists secs, fault calls secs = Some e) /\
        length (sleeps st') = (s0 + (calls - 1 - k0))%nat))
  end.

(** How many of the first [k] failures were ordinary ones, and the back-off
    delay they leave. *)
Definition ordinary_before (message : nat -> string) (k : nat) : nat :=
  length (List.filter (fun j => negb (is_rate_limit (message j))) (seq 0 k)).

Definition delay_before (message : nat -> string) (k : nat) : Z :=
  initial_retry_delay * 2 ^ Z.of_nat (ordinary_before message k).



(** The number of batches, [ceil(n / step)]. *)
Definition batch_count (n step : nat) : nat := ((n + step - 1) / step)%nat.

(** The line [write_env] writes for an entry. *)
Definition env_line (entry : string * string) : string :=
  entry.1 +:+ "=" +:+ entry.2 +:+ Str.nl.

Definition plain_char (c : ascii) : bool :=
  negb (is_newline c) && negb (Ascii.eqb c (ascii_of_N 13)).

(** An entry that its line gives back: no line break in the key or the
    value, no equals sign in the key, no white space before the key or
    after the value. *)
Definition clean_entry (entry : string * string) : Prop :=
  all_chars plain_char entry.1 = true /\
  all_chars plain_char entry.2 = true /\
  all_chars (fun c => negb (Ascii.eqb "=" c)) entry.1 = true /\
  Str.lstrip entry.1 = entry.1 /\
  Str.rstrip entry.2 = entry.2.

Definition clean_dict (vars : list (string * string)) : Prop :=
  NoDup vars.*1 /\ Forall clean_entry vars.

(** The [.env] file is absent and [vars] is empty, or the file is what
    [write_env] writes for [vars]. *)
Definition env_file_holds (st : env_state) (vars : list (string * string))
    : Prop :=
  match dotenv st with
  | None => vars = []
  | Some text => text = write_env vars
  end.

(** The variable is not set, or set to the empty string. *)
Definition unset (variable_name : string) (st : env_state) : Prop :=
  environ st !! variable_name = None \/
  environ st !! variable_name = Some EmptyString.

(** Further sample inputs.  The first two collaborators count their calls:
    their state is the pair of the number of RAG calls and the number of
    judge calls. *)
Module Further.

Definition rag (q : string) (calls : nat * nat) : outcome pyval * (nat * nat) :=
  (if String.eqb q "q2" then Raise (Exn PlainException "connection reset")
   else Ret (PyStr ("passage for " +:+ q)),
   (S calls.1, calls.2)).

Definition judge (prompt : string) (calls : nat * nat)
    : outcome pyval * (nat * nat) :=
  (Ret (PyStr ("Score: 1" +:+ Str.nl +:+ "Explanation: it is included")),
   (calls.1, S calls.2)).

(** The same answers, without any state. *)
Definition rag_pure (q : string) (w : unit) : outcome pyval * unit :=
  (if String.eqb q "q2" then Raise (Exn PlainException "connection reset")
   else Ret (PyStr ("passage for " +:+ q)), tt).

Definition judge_pure (prompt : string) (w : unit) : outcome pyval * unit :=
  (Ret (PyStr ("Score: 1" +:+ Str.nl +:+ "Explanation: it is included")), tt).

Definition tqdm0 : tqdm := Tqdm 3 0 "Evaluating questions" false.

(** A model that answers in the format on its first call. *)
Definition chain_answers (context id : string) (num_tests : Z) (k : nat)
    : outcome string :=
  Ret (render_response id [MkTestCase id "1" "What is it?" "A test"]).

(** A model that fails on every call, rate limited on every other one. *)
Definition limited_error (k : nat) : exn :=
  if Nat.even k then Exn PlainException "connection reset"
  else Exn PlainException "rate_limit_exceeded: quota".

Definition chain_limited (context id : string) (num_tests : Z) (k : nat)
    : outcome string :=
  Raise (limited_error k).

Definition documents : gmap string string :=
  {[ "documents/a.txt" := "Text of a."; "documents/b.txt" := "Text of b." ]}.

Definition env0 : env_state :=
  EnvState {[ "HOME" := "/root" ]} ["sk-123"]
           (Some ("# keys" +:+ Str.nl +:+ "OTHER=1" +:+ Str.nl)) None None.

(** The same with a [.env] file that may not be read. *)
Definition env_locked : env_state :=
  EnvState {[ "HOME" := "/root" ]} ["sk-123"]
           (Some ("OTHER=1" +:+ Str.nl))
           (Some (Exn OSError "[Errno 13] Permission denied: '.env'")) None.

End Further.

(* ===================================================================== *)
(** * Facts about strings                                                 *)
(* ===================================================================== *)

Section StrFacts.

Lemma append_cons (x : ascii) (a b : string) :
  String x a +:+ b = String x (a +:+ b).
Proof. reflexivity. Qed.

Lemma append_assoc (a b c : string) : (a +:+ b) +:+ c = a +:+ b +:+ c.
Proof.
  induction a as [|x a IH]; [reflexivity|].
  rewrite !append_cons. by rewrite IH.
Qed.

Lemma length_append (a b : string) :
  String.length (a +:+ b) = (String.length a + String.length b)%nat.
Proof.
  induction a as [|x a IH]; [reflexivity|].
  rewrite append_cons. simpl. by rewrite IH.
Qed.

Lemma prefix_append (a b : string) : String.prefix a (a +:+ b) = true.
Proof.
  induction a as [|x a IH]; [by destruct b|].
  rewrite append_cons. simpl.
  destruct (ascii_dec x x); [exact IH|done].
Qed.

Lemma contains_append (needle a b : string) :
  Str.contains needle b = true -> Str.contains needle (a +:+ b) = true.
Proof.
  intros Hb. induction a as [|x a IH]; [exact Hb|].
  rewrite append_cons. simpl. rewrite IH. apply orb_true_r.
Qed.

Lemma contains_here (needle b : string) :
  Str.contains needle (needle +:+ b) = true.
Proof.
  pose proof (prefix_append needle b) as H.
  destruct (needle +:+ b); cbn [Str.contains]; by rewrite H.
Qed.

Lemma eval_prompt_renders_none (r : row) :
  Str.contains "RAG System Response: None" (eval_prompt r PyNone) = true.
Proof.
  unfold eval_prompt. cbn [py_format].
  do 9 apply contains_append.
  rewrite <- append_assoc.
  change ("RAG System Response: " +:+ "None") with "RAG System Response: None".
  apply contains_here.
Qed.

End StrFacts.

(* ===================================================================== *)
(** * Properties of [asyncio.gather] and of the batch loop                *)
(* ===================================================================== *)

Section GatherFacts.
Context {W R : Type}.
Implicit Types (tasks : list (W -> R * W)) (slots : list (option R)).

Lemma gather_inv_init tasks :
  gather_inv tasks (zip (seq 0 (length tasks)) tasks)
             (replicate (length tasks) None).
Proof.
  split; [|split].
  - apply Forall_lookup. intros j [i t] Hj.
    apply lookup_zip_with_Some in Hj as (a & b & Heq & Ha & Hb).
    inversion Heq; subst. apply lookup_seq in Ha as [-> _]. exact Hb.
  - apply Forall2_same_length_lookup. split.
    + by rewrite length_replicate.
    + intros i t s _ Hs. apply lookup_replicate in Hs as [-> _]. exact I.
  - intros i Hi. apply lookup_replicate in Hi as [_ Hi].
    rewrite fst_zip; [|by rewrite length_seq].
    apply elem_of_seq. lia.
Qed.

Lemma gather_inv_step tasks pending slots k i t r w :
  gather_inv tasks pending slots ->
  pending !! k = Some (i, t) ->
  r = (t w).1 ->
  gather_inv tasks (delete k pending) (<[i := Some r]> slots).
Proof.
  intros (Hp & Hs & He) Hk ->. split; [|split].
  - by apply Forall_delete.
  - assert (tasks !! i = Some t) as Hi.
    { eapply Forall_lookup in Hp; [|exact Hk]. exact Hp. }
    rewrite <- (list_insert_id tasks i t Hi).
    apply Forall2_insert; [exact Hs|]. by exists w.
  - intros j Hj.
    destruct (decide (j = i)) as [->|Hne].
    + apply lookup_lt_Some in Hj as Hlt. rewrite length_insert in Hlt.
      rewrite list_lookup_insert_eq in Hj by exact Hlt. discriminate.
    + rewrite list_lookup_insert_ne in Hj by congruence.
      apply He in Hj. apply list_elem_of_fmap in Hj as ([j' t'] & -> & Hin).
      apply list_elem_of_lookup in Hin as (m & Hm).
      simpl in Hne.
      assert (m <> k) as Hmk by (intros ->; rewrite Hk in Hm; congruence).
      apply list_elem_of_fmap. exists (j', t'). split; [done|].
      apply list_elem_of_lookup.
      destruct (decide (m < k)%nat).
      * exists m. by rewrite list_lookup_delete_lt.
      * exists (pred m). rewrite list_lookup_delete_ge by lia.
        by replace (S (pred m)) with m by lia.
Qed.

Lemma run_tasks_filled tasks n sched pending slots w :
  length pending = n ->
  gather_inv tasks pending slots ->
  Forall2 (fun t s => exists w', s = Some (t w').1) tasks
          (run_tasks n sched pending slots w).1.
Proof.
  revert sched pending slots w.
  induction n as [|n IH]; intros sched pending slots w Hlen Hinv; simpl.
  - destruct pending; [|done]. destruct Hinv as (_ & Hs & He).
    apply Forall2_same_length_lookup. split; [by eapply Forall2_length|].
    intros i t s Ht Hsl.
    destruct s as [r|].
    + eapply Forall2_lookup_lr in Hs; [|exact Ht|exact Hsl].
      destruct Hs as [w' ->]. by exists w'.
    + apply He in Hsl. by apply elem_of_nil in Hsl.
  - set (k := (hd 0%nat sched mod length pending)%nat).
    assert (k < length pending)%nat as Hk
      by (apply Nat.mod_upper_bound; lia).
    apply lookup_lt_is_Some in Hk as [[i t] Hk]. rewrite Hk.
    destruct (t w) as [r w'] eqn:Htw.
    apply IH.
    + rewrite length_delete; [lia|]. by eexists.
    + eapply gather_inv_step; [exact Hinv|exact Hk|]. by rewrite Htw.
Qed.

(** The results of [gather] come in the order of the awaitables, whatever
    the completion order: the [i]-th is a result of the [i]-th task. *)
Lemma gather_in_order tasks sched w :
  Forall2 (fun t r => exists w', r = (t w').1) tasks (gather tasks sched w).1.
Proof.
  unfold gather.
  pose proof (run_tasks_filled tasks (length tasks) sched
                (zip (seq 0 (length tasks)) tasks)
                (replicate (length tasks) None) w) as H.
  destruct (run_tasks _ _ _ _ _) as [slots w'].
  simpl in *.
  assert (Forall2 (fun t s => exists w', s = Some (t w').1) tasks slots) as Hs.
  { apply H; [|apply gather_inv_init].
    rewrite length_zip_with, length_seq. lia. }
  clear H. induction Hs as [|t s ts ss [w1 ->] _ IH]; simpl.
  - constructor.
  - constructor; [by exists w1 | exact IH].
Qed.

End GatherFacts.

Section BatchFacts.
Context {W : Type}.
Variable rag_query_fn : string -> W -> outcome pyval * W.
Variable evaluator_model : string -> W -> outcome pyval * W.

Abbreviation process_question := (process_question rag_query_fn evaluator_model).
Abbreviation evaluated := (evaluated rag_query_fn evaluator_model).
Abbreviation fault_at := (fault_at rag_query_fn evaluator_model).
Abbreviation judged_at := (judged_at rag_query_fn evaluator_model).

(** Both arms of [process_question] copy the identity of the row. *)
Lemma process_question_answers r w : answers r (process_question r w).1.
Proof.
  unfold process_question, answers.
  destruct (rag_query_fn _ w) as [[response|e] w1]; [|by simpl].
  destruct (evaluator_model _ w1) as [[evaluation|e] w2]; [|by simpl].
  by destruct (parse_evaluation evaluation).
Qed.

(** A fault of either collaborator yields the sentinel entry and nothing
    else does. *)
Lemma process_question_fault r w e :
  fault_at r w = Some e -> (process_question r w).1 = error_result r e.
Proof.
  unfold fault_at, process_question.
  destruct (rag_query_fn _ w) as [[response|e1] w1]; [|by intros [= ->]].
  destruct (evaluator_model _ w1) as [[evaluation|e2] w2]; [done|].
  by intros [= ->].
Qed.

Lemma process_question_judged r w :
  fault_at r w = None ->
  exists response evaluation,
    judged_at r w = Some (response, evaluation) /\
    (process_question r w).1 =
      Result (row_id r) (row_question_num r) (row_question r) (row_answer r)
             response (parse_evaluation evaluation).1
             (parse_evaluation evaluation).2 (row_filename r).
Proof.
  unfold fault_at, judged_at, process_question.
  destruct (rag_query_fn _ w) as [[response|e1] w1]; [|done].
  destruct (evaluator_model _ w1) as [[evaluation|e2] w2]; [|done].
  intros _. exists response, evaluation. split; [done|].
  by destruct (parse_evaluation evaluation).
Qed.

Lemma gather_evaluated (batch : list row) sched w :
  Forall2 evaluated batch (gather (process_question <$> batch) sched w).1.
Proof.
  pose proof (gather_in_order (process_question <$> batch) sched w) as H.
  apply Forall2_fmap_l in H.
  eapply Forall2_impl; [exact H|]. intros r res [w' ->]. by exists w'.
Qed.

(** After the batches that start at [m * step], ..., the results are those
    of the first questions, in order. *)
Lemma batch_loop_evaluated questions step sched_of cnt :
  forall m results pbar w,
    Forall2 evaluated (take (m * step) questions) results ->
    Forall2 evaluated (take ((m + cnt) * step) questions)
      (batch_loop rag_query_fn evaluator_model questions step sched_of
         ((fun k => (k * step)%nat) <$> seq m cnt) results pbar w).1.1.
Proof.
  induction cnt as [|cnt IH]; intros m results pbar w Hres; simpl.
  - by rewrite Nat.add_0_r.
  - pose proof (gather_evaluated (take step (drop (m * step) questions))
                  (sched_of (m * step)%nat) w) as Hb.
    destruct (gather _ _ w) as [batch_results w'].
    replace ((m + S cnt) * step)%nat with ((S m + cnt) * step)%nat by lia.
    apply IH.
    replace (S m * step)%nat with (m * step + step)%nat by lia.
    rewrite <- take_take_drop. by apply Forall2_app.
Qed.

Lemma py_range_covers (n step : nat) :
  (0 < step)%nat -> (n <= (n + step - 1) / step * step)%nat.
Proof.
  intros Hstep.
  pose proof (Nat.div_mod_eq (n + step - 1) step) as Hdm.
  pose proof (Nat.mod_upper_bound (n + step - 1) step) as Hmod.
  nia.
Qed.

(** [evaluate_batch] with a positive batch size returns, and its list
    holds, position by position, an evaluation of each question. *)
Lemma evaluate_batch_evaluated questions batch_size pbar sched_of w :
  1 <= batch_size ->
  exists results pbar' w',
    evaluate_batch rag_query_fn evaluator_model questions batch_size pbar
                   sched_of w = (Ret results, pbar', w') /\
    Forall2 evaluated questions results.
Proof.
  intros Hb. unfold evaluate_batch.
  destruct (Z.eqb_spec batch_size 0) as [|_]; [lia|].
  destruct (Z.ltb_spec batch_size 0) as [|_]; [lia|].
  set (step := Z.to_nat batch_size).
  assert (0 < step)%nat as Hstep by (subst step; lia).
  pose proof (batch_loop_evaluated questions step sched_of
                ((length questions + step - 1) / step)%nat 0%nat [] pbar w) as H.
  unfold py_range.
  destruct (batch_loop _ _ _ _ _ _ _ _ _) as [[results pbar'] w'].
  exists results, pbar', w'. split; [done|].
  simpl in H. specialize (H ltac:(constructor)).
  rewrite take_ge in H by (by apply py_range_covers). exact H.
Qed.

End BatchFacts.

(* ===================================================================== *)
(** * Batch evaluator: the properties                                     *)
(* ===================================================================== *)

Section BatchEvaluator.
Context {W : Type}.
Variable rag_query_fn : string -> W -> outcome pyval * W.
Variable evaluator_model : string -> W -> outcome pyval * W.

(** C1.  For every list of questions, every batch size of at least 1 and
    every completion order inside the batches, [evaluate_batch] returns a
    list as long as the list of questions whose [i]-th entry is the
    evaluation of the [i]-th question and carries that question's id,
    number, text, expected answer and source file. *)
Theorem evaluate_batch_length_and_order
    (questions : list row) (batch_size : Z) (pbar : option tqdm)
    (sched_of : nat -> list nat) (w : W) :
  1 <= batch_size ->
  exists results pbar' w',
    evaluate_batch rag_query_fn evaluator_model questions batch_size pbar
                   sched_of w = (Ret results, pbar', w') /\
    length results = length questions /\
    forall i r, questions !! i = Some r ->
      exists res, results !! i = Some res /\ answers r res /\
                  evaluated rag_query_fn evaluator_model r res.
Proof.
  intros Hb.
  destruct (evaluate_batch_evaluated rag_query_fn evaluator_model questions
              batch_size pbar sched_of w Hb) as (results & pbar' & w' & Heq & Hall).
  exists results, pbar', w'. split; [exact Heq|]. split.
  - symmetry. by eapply Forall2_length.
  - intros i r Hi.
    destruct (Forall2_lookup_l _ _ _ _ _ Hall Hi) as (res & Hres & Hev).
    exists res. split; [exact Hres|]. split; [|exact Hev].
    destruct Hev as [wi ->]. apply process_question_answers.
Qed.

(** C2, as the code has it.  Whatever faults are met, [evaluate_batch]
    returns one entry per question.  A fault of the RAG call or of the
    judge call makes the entry of its question the sentinel (rag_response
    "ERROR", score "0", explanation "Error during evaluation: " and the
    fault).  A fault of parsing does not: it is caught inside
    [parse_evaluation], and the entry keeps the RAG response, with score
    "0" and the explanation "Error in evaluation parsing: " and the fault.
    The entry of any other question holds the RAG response and the score
    and explanation parsed from the judge's text.  So a fault changes the
    entry of its own question only and never ends the batch. *)
Theorem evaluate_batch_isolates_faults
    (questions : list row) (batch_size : Z) (pbar : option tqdm)
    (sched_of : nat -> list nat) (w : W) :
  1 <= batch_size ->
  exists results pbar' w',
    evaluate_batch rag_query_fn evaluator_model questions batch_size pbar
                   sched_of w = (Ret results, pbar', w') /\
    length results = length questions /\
    forall i r, questions !! i = Some r ->
      exists res wi,
        results !! i = Some res /\
        res = (process_question rag_query_fn evaluator_model r wi).1 /\
        match fault_at rag_query_fn evaluator_model r wi with
        | Some e =>
            rag_response res = PyStr "ERROR" /\ score res = "0" /\
            explanation res = "Error during evaluation: " +:+ exn_msg e /\
            answers r res
        | None =>
            exists response evaluation,
              judged_at rag_query_fn evaluator_model r wi
                = Some (response, evaluation) /\
              rag_response res = response /\
              score res = (parse_evaluation evaluation).1 /\
              explanation res = (parse_evaluation evaluation).2 /\
              answers r res /\
              (forall e,
                 py_truthy evaluation = true ->
                 strip_fault evaluation = Some e ->
                 score res = "0" /\
                 explanation res
                 = "Error in evaluation parsing: " +:+ exn_msg e)
        end.
Proof.
  intros Hb.
  destruct (evaluate_batch_evaluated rag_query_fn evaluator_model questions
              batch_size pbar sched_of w Hb) as (results & pbar' & w' & Heq & Hall).
  exists results, pbar', w'. split; [exact Heq|]. split.
  - symmetry. by eapply Forall2_length.
  - intros i r Hi.
    destruct (Forall2_lookup_l _ _ _ _ _ Hall Hi) as (res & Hres & [wi Hev]).
    exists res, wi. split; [exact Hres|]. split; [exact Hev|].
    pose proof (process_question_answers rag_query_fn evaluator_model r wi) as Hans.
    rewrite <- Hev in Hans.
    destruct (fault_at rag_query_fn evaluator_model r wi) as [e|] eqn:Hf.
    + apply process_question_fault in Hf. rewrite Hf in Hev. by subst res.
    + apply process_question_judged in Hf as (response & evaluation & Hj & Hpq).
      exists response, evaluation. rewrite Hpq in Hev. subst res.
      split; [exact Hj|]. do 3 (split; [reflexivity|]).
      split; [exact Hans|].
      intros e Htrue Hstrip. cbn [score explanation].
      unfold parse_evaluation. rewrite Htrue, Hstrip. by split.
Qed.

(** C8.  When the RAG function returns [None] for a question, the judge is
    called on the prompt that renders the response as the text None; the
    entry is the sentinel only if the judge itself raises, and when the
    judge answers the entry keeps [None] as rag_response and takes its
    score and explanation from [parse_evaluation]. *)
Theorem process_question_none_response (r : row) (w w1 : W) :
  rag_query_fn (row_question r) w = (Ret PyNone, w1) ->
  process_question rag_query_fn evaluator_model r w =
    match evaluator_model (eval_prompt r PyNone) w1 with
    | (Raise e, w2) => (error_result r e, w2)
    | (Ret evaluation, w2) =>
        (Result (row_id r) (row_question_num r) (row_question r) (row_answer r)
                PyNone (parse_evaluation evaluation).1
                (parse_evaluation evaluation).2 (row_filename r), w2)
    end /\
  Str.contains "RAG System Response: None" (eval_prompt r PyNone) = true /\
  forall evaluation w2,
    evaluator_model (eval_prompt r PyNone) w1 = (Ret evaluation, w2) ->
    let res := (process_question rag_query_fn evaluator_model r w).1 in
    fault_at rag_query_fn evaluator_model r w = None /\
    rag_response res = PyNone /\ rag_response res <> PyStr "ERROR" /\
    score res = (parse_evaluation evaluation).1.
Proof.
  intros Hrag.
  assert (process_question rag_query_fn evaluator_model r w =
    match evaluator_model (eval_prompt r PyNone) w1 with
    | (Raise e, w2) => (error_result r e, w2)
    | (Ret evaluation, w2) =>
        (Result (row_id r) (row_question_num r) (row_question r) (row_answer r)
                PyNone (parse_evaluation evaluation).1
                (parse_evaluation evaluation).2 (row_filename r), w2)
    end) as Hpq.
  { unfold process_question. rewrite Hrag.
    destruct (evaluator_model _ w1) as [[evaluation|e] w2]; [|done].
    by destruct (parse_evaluation evaluation). }
  split; [exact Hpq|]. split.
  - apply eval_prompt_renders_none.
  - intros evaluation w2 Hj res. subst res. rewrite Hpq, Hj. simpl.
    unfold fault_at. rewrite Hrag, Hj. done.
Qed.

End BatchEvaluator.

Lemma evaluate_batch_length_and_order_witness :
  1 <= 2 /\
  exists results pbar' w',
    evaluate_batch Sample.rag Sample.judge Sample.questions 2 None
                   Sample.sched_of 0%nat = (Ret results, pbar', w') /\
    length results = length Sample.questions /\
    forall i r, Sample.questions !! i = Some r ->
      exists res, results !! i = Some res /\ answers r res /\
                  evaluated Sample.rag Sample.judge r res.
Proof.
  split; [lia|].
  apply (evaluate_batch_length_and_order Sample.rag Sample.judge
           Sample.questions 2 None Sample.sched_of 0%nat).
  lia.
Defined.

Lemma evaluate_batch_isolates_faults_witness :
  1 <= 2 /\
  exists results pbar' w',
    evaluate_batch Sample.rag Sample.judge Sample.questions 2 None
                   Sample.sched_of 0%nat = (Ret results, pbar', w') /\
    length results = length Sample.questions.
Proof.
  split; [lia|].
  destruct (evaluate_batch_isolates_faults Sample.rag Sample.judge
              Sample.questions 2 None Sample.sched_of 0%nat)
    as (results & pbar' & w' & Heq & Hlen & _); [lia|].
  exists results, pbar', w'. split; [exact Heq | exact Hlen].
Defined.

Lemma process_question_none_response_witness :
  Sample.rag (row_question Sample.q3) 0%nat = (Ret PyNone, 1%nat) /\
  rag_response (process_question Sample.rag Sample.judge Sample.q3 0%nat).1 = PyNone /\
  score (process_question Sample.rag Sample.judge Sample.q3 0%nat).1 = "1".
Proof.
  split; [reflexivity|].
  destruct (process_question_none_response Sample.rag Sample.judge
              Sample.q3 0%nat 1%nat eq_refl) as (_ & _ & H).
  destruct (H _ _ eq_refl) as (_ & Hresp & _ & Hscore).
  split; [exact Hresp | exact Hscore].
Defined.

(** C2 as stated fails for a fault of parsing.  Of three questions the
    judge answers the second with the value [True] where its text is
    expected; [evaluation_text.strip()] raises inside [parse_evaluation],
    which catches the fault, and the entry of that question keeps the RAG
    response instead of the sentinel "ERROR". *)
Lemma parse_fault_keeps_rag_response :
  let rag := fun (q : string) (w : unit) =>
               (Ret (PyStr ("passage for " +:+ q)), w) in
  let judge := fun (prompt : string) (w : unit) =>
                 (Ret (if Str.contains "Question: q2" prompt then PyBool true
                       else PyStr ("Score: 1" +:+ Str.nl +:+ "Explanation: ok")),
                  w) in
  strip_fault (PyBool true)
  = Some (Exn AttributeError "'bool' object has no attribute 'strip'") /\
  (fun res => (rag_response res, score res, explanation res)) <$>
    match evaluate_batch rag judge Sample.questions 2 None Sample.sched_of tt with
    | (Ret results, _, _) => results
    | (Raise _, _, _) => []
    end
  = [(PyStr "passage for q1", "1", "Ok");
     (PyStr "passage for q2", "0",
      "Error in evaluation parsing: 'bool' object has no attribute 'strip'");
     (PyStr "passage for q3", "1", "Ok")].
Proof. vm_compute. split; reflexivity. Qed.

(** In the sample run the second question alone meets a fault: its entry is
    the sentinel and the two others are scored by the judge. *)
Example sample_batch_entries :
  (fun res => (rag_response res, score res)) <$>
    match evaluate_batch Sample.rag Sample.judge Sample.questions 2 None
            Sample.sched_of 0%nat with
    | (Ret results, _, _) => results
    | (Raise _, _, _) => []
    end
  = [(PyStr "passage for q1", "1"); (PyStr "ERROR", "0"); (PyNone, "1")].
Proof. vm_compute. reflexivity. Qed.

(* ===================================================================== *)
(** * Binary64: bounds and rounding error                                 *)
(* ===================================================================== *)

Section Binary64Facts.
Import Binary64.

Lemma div_rne_near (a b : Z) :
  0 < b -> - b <= 2 * (div_rne a b * b - a) <= b.
Proof.
  intros Hb. unfold div_rne.
  pose proof (Z.div_mod a b ltac:(lia)) as Hdm.
  pose proof (Z.mod_pos_bound a b Hb) as Hr.
  destruct (Z.ltb_spec (2 * (a mod b)) b); [nia|].
  destruct (Z.ltb_spec b (2 * (a mod b))); [nia|].
  destruct (Z.even (a / b)); nia.
Qed.

Lemma div_rne_nonneg (a b : Z) : 0 <= a -> 0 < b -> 0 <= div_rne a b.
Proof.
  intros Ha Hb. unfold div_rne.
  pose proof (Z.div_pos a b Ha Hb).
  destruct (_ <? _); [lia|]. destruct (_ <? _); [lia|].
  destruct (Z.even _); lia.
Qed.

Lemma div_rne_le (a b K : Z) : 0 < b -> a <= K * b -> div_rne a b <= K.
Proof.
  intros Hb Ha. unfold div_rne.
  pose proof (Z.div_mod a b ltac:(lia)) as Hdm.
  pose proof (Z.mod_pos_bound a b Hb) as Hr.
  assert (a / b <= K) as Hq by nia.
  destruct (Z.ltb_spec (2 * (a mod b)) b); [lia|].
  assert (a / b <> K) by nia.
  destruct (_ <? _); [lia|]. destruct (Z.even _); lia.
Qed.

Lemma div_rne_exact (c b : Z) : 0 < b -> div_rne (c * b) b = c.
Proof.
  intros Hb. unfold div_rne.
  rewrite Z.div_mul, Z.mod_mul by lia.
  destruct (Z.ltb_spec (2 * 0) b); [reflexivity | lia].
Qed.

Lemma ilog_lower (a b : Z) :
  0 < a -> 0 < b -> 0 <= ilog a b -> b * 2 ^ ilog a b <= a.
Proof.
  intros Ha Hb. unfold ilog.
  pose proof (Z.log2_spec a Ha) as [Ha1 Ha2].
  pose proof (Z.log2_spec b Hb) as [Hb1 Hb2].
  pose proof (Z.log2_nonneg a) as Hla. pose proof (Z.log2_nonneg b) as Hlb.
  set (la := Z.log2 a) in *. set (lb := Z.log2 b) in *.
  destruct (Z.leb_spec 0 (la - lb)) as [Hk|Hk].
  - destruct (Z.leb_spec (b * 2 ^ (la - lb)) a) as [Hle|Hgt]; [done|].
    intros Hk1.
    assert (2 ^ la = 2 ^ Z.succ lb * 2 ^ (la - lb - 1)) as Hpow.
    { rewrite <- Z.pow_add_r by lia. f_equal. lia. }
    pose proof (Z.pow_pos_nonneg 2 (la - lb - 1) ltac:(lia) ltac:(lia)).
    nia.
  - destruct (_ <=? _); lia.
Qed.

Lemma ilog_upper (a b K : Z) :
  0 < a -> 0 < b -> 0 <= K -> a < b * 2 ^ (K + 1) -> ilog a b <= K.
Proof.
  intros Ha Hb HK Hlt.
  destruct (Z.le_gt_cases (ilog a b) K) as [|Hgt]; [done|].
  pose proof (ilog_lower a b Ha Hb ltac:(lia)) as Hlow.
  assert (2 ^ (K + 1) <= 2 ^ ilog a b) by (apply Z.pow_le_mono_r; lia).
  nia.
Qed.

(** The exponent of the last bit and the scaled significand of [round]. *)
Lemma round_cases (a b : Z) :
  0 < a -> 0 < b ->
  let e := Z.max (ilog a b - 52) (-1074) in
  (0 <= e /\ round a b = inject_Z (div_rne a (b * 2 ^ e) * 2 ^ e)) \/
  (e < 0 /\
   round a b = Qred (Qmake (div_rne (a * 2 ^ (- e)) b) (Z.to_pos (2 ^ (- e))))).
Proof.
  intros Ha Hb e. unfold round.
  destruct (Z.leb_spec a 0); [lia|]. fold e.
  destruct (Z.leb_spec 0 e); [by left | by right].
Qed.

Lemma round_nonpos (a b : Z) : a <= 0 -> round a b = 0%Q.
Proof. intros Ha. unfold round. by destruct (Z.leb_spec a 0); [|lia]. Qed.

Lemma round_nonneg (a b : Z) : 0 < b -> (0 <= round a b)%Q.
Proof.
  intros Hb. destruct (Z.le_gt_cases a 0) as [Ha|Ha].
  { rewrite round_nonpos by exact Ha. apply Qle_refl. }
  destruct (round_cases a b Ha Hb) as [[He ->] | [He ->]].
  - change 0%Q with (inject_Z 0). rewrite <- Zle_Qle.
    pose proof (Z.pow_pos_nonneg 2 (Z.max (ilog a b - 52) (-1074))
                  ltac:(lia) He).
    pose proof (div_rne_nonneg a (b * 2 ^ Z.max (ilog a b - 52) (-1074))
                  ltac:(lia) ltac:(nia)).
    nia.
  - rewrite Qred_correct. unfold Qle. cbn [Qnum Qden].
    pose proof (Z.pow_pos_nonneg 2 (- Z.max (ilog a b - 52) (-1074))
                  ltac:(lia) ltac:(lia)).
    pose proof (div_rne_nonneg (a * 2 ^ (- Z.max (ilog a b - 52) (-1074))) b
                  ltac:(nia) Hb).
    lia.
Qed.

Lemma round_le (a b c : Z) :
  0 < b -> 0 <= c -> a < b * 2 ^ 53 -> a <= c * b ->
  (round a b <= inject_Z c)%Q.
Proof.
  intros Hb Hc Hlt Hle. destruct (Z.le_gt_cases a 0) as [Ha|Ha].
  { rewrite round_nonpos by exact Ha.
    change 0%Q with (inject_Z 0). by rewrite <- Zle_Qle. }
  pose proof (ilog_upper a b 52 Ha Hb ltac:(lia) Hlt) as Hk.
  destruct (round_cases a b Ha Hb) as [[He ->] | [He ->]].
  - assert (Z.max (ilog a b - 52) (-1074) = 0) as -> by lia.
    rewrite <- Zle_Qle. rewrite Z.pow_0_r, !Z.mul_1_r.
    by apply div_rne_le.
  - rewrite Qred_correct. unfold Qle. cbn [Qnum Qden inject_Z].
    set (N := 2 ^ (- Z.max (ilog a b - 52) (-1074))).
    assert (0 < N) as HN by (apply Z.pow_pos_nonneg; lia).
    rewrite Z2Pos.id by exact HN.
    pose proof (div_rne_le (a * N) b (c * N) Hb ltac:(nia)). lia.
Qed.

Lemma round_exact (c b : Z) :
  0 < b -> 0 < c < 2 ^ 53 -> (round (c * b) b == inject_Z c)%Q.
Proof.
  intros Hb [Hc0 Hc].
  assert (0 < c * b) as Ha by nia.
  pose proof (ilog_upper (c * b) b 52 Ha Hb ltac:(lia) ltac:(nia)) as Hk.
  destruct (round_cases (c * b) b Ha Hb) as [[He ->] | [He ->]].
  - assert (Z.max (ilog (c * b) b - 52) (-1074) = 0) as -> by lia.
    rewrite Z.pow_0_r, !Z.mul_1_r. by rewrite div_rne_exact.
  - rewrite Qred_correct. set (N := 2 ^ (- Z.max (ilog (c * b) b - 52) (-1074))).
    assert (0 < N) as HN by (apply Z.pow_pos_nonneg; lia).
    replace (c * b * N) with (c * N * b) by lia.
    rewrite div_rne_exact by exact Hb.
    unfold Qeq. cbn [Qnum Qden inject_Z].
    rewrite Z2Pos.id by exact HN. lia.
Qed.


(** The rounding error: half a unit in the last place. *)
Lemma round_near (a b K : Z) :
  0 < a -> 0 < b -> 0 <= K <= 51 -> a < b * 2 ^ (K + 1) ->
  (Qmake a (Z.to_pos b) - Qmake 1 (Z.to_pos (2 ^ (53 - K))) <= round a b
   <= Qmake a (Z.to_pos b) + Qmake 1 (Z.to_pos (2 ^ (53 - K))))%Q.
Proof.
  intros Ha Hb HK Hlt.
  pose proof (ilog_upper a b K Ha Hb ltac:(lia) Hlt) as Hk.
  destruct (round_cases a b Ha Hb) as [[He _] | [He ->]]; [lia|].
  set (e := Z.max (ilog a b - 52) (-1074)) in *.
  set (N := 2 ^ (- e)).
  assert (0 < N) as HN by (apply Z.pow_pos_nonneg; lia).
  assert (2 ^ (53 - K) <= 2 * N) as HPN.
  { subst N. rewrite <- (Z.pow_succ_r 2 (- e)) by lia.
    apply Z.pow_le_mono_r; lia. }
  assert (0 < 2 ^ (53 - K)) as HP by (apply Z.pow_pos_nonneg; lia).
  pose proof (div_rne_near (a * N) b Hb) as Hnear.
  set (m := div_rne (a * N) b) in *.
  rewrite Qred_correct. unfold Qle, Qminus, Qplus, Qopp. cbn [Qnum Qden].
  rewrite !Pos2Z.inj_mul, !Z2Pos.id by lia.
  set (P := 2 ^ (53 - K)) in *.
  split; nia.
Qed.

(** [(t / v) * 100] in binary64 against the exact [100 * t / v], for
    [0 <= t <= v]. *)
Lemma average_near (t v : Z) :
  0 <= t <= v -> 0 < v ->
  (Qmake (100 * t) (Z.to_pos v) - Qmake 1 (2 ^ 45)
   <= mul (truediv t v) 100
   <= Qmake (100 * t) (Z.to_pos v) + Qmake 1 (2 ^ 45))%Q.
Proof.
  intros [Ht0 Htv] Hv. unfold truediv, mul.
  destruct (Z.eq_dec t 0) as [->|Hne].
  { rewrite (round_nonpos 0 v) by lia. cbn [Qnum Qden].
    rewrite (round_nonpos (0 * 100)) by lia.
    unfold Qle, Qminus, Qplus, Qopp. cbn [Qnum Qden].
    rewrite ?Pos2Z.inj_mul, (Z2Pos.id v) by lia.
    change (Z.pos (2 ^ 45)) with 35184372088832. split; nia. }
  pose proof (round_near t v 0 ltac:(lia) Hv ltac:(lia)
                ltac:(change (2 ^ (0 + 1)) with 2; lia)) as [Hy1 Hy2].
  pose proof (round_le t v 1 Hv ltac:(lia)
                ltac:(change (2 ^ 53) with 9007199254740992; lia) ltac:(lia))
    as Hy3.
  pose proof (round_nonneg t v Hv) as Hy0.
  change (Z.to_pos (2 ^ (53 - 0))) with (2 ^ 53)%positive in *.
  destruct (round t v) as [n d]. cbn [Qnum Qden].
  assert (0 <= n) as Hn by (unfold Qle in Hy0; cbn in Hy0; lia).
  assert (n <= Z.pos d) as Hnd by (unfold Qle in Hy3; cbn in Hy3; lia).
  unfold Qle, Qminus, Qplus, Qopp in Hy1, Hy2. cbn [Qnum Qden] in Hy1, Hy2.
  rewrite ?Pos2Z.inj_mul, ?(Z2Pos.id v) in Hy1, Hy2 by lia.
  destruct (Z.eq_dec n 0) as [->|Hn0].
  { rewrite (round_nonpos (0 * 100)) by lia.
    unfold Qle, Qminus, Qplus, Qopp. cbn [Qnum Qden].
    rewrite ?Pos2Z.inj_mul, ?(Z2Pos.id v) by lia.
    change (Z.pos (2 ^ 45)) with 35184372088832.
    change (Z.pos (2 ^ 53)) with 9007199254740992 in *.
    split; nia. }
  pose proof (round_near (n * 100) (Z.pos d) 6 ltac:(lia) ltac:(lia)
                ltac:(lia) ltac:(change (2 ^ (6 + 1)) with 128; lia))
    as [Ha1 Ha2].
  change (Z.to_pos (2 ^ (53 - 6))) with (2 ^ 47)%positive in *.
  destruct (round (n * 100) (Z.pos d)) as [p q].
  unfold Qle, Qminus, Qplus, Qopp in Ha1, Ha2 |- *. cbn [Qnum Qden] in Ha1, Ha2 |- *.
  rewrite ?Pos2Z.inj_mul, ?(Z2Pos.id v) in Ha1, Ha2 |- * by lia.
  rewrite ?Pos2Z.id in Ha1, Ha2.
  change (Z.pos (2 ^ 45)) with 35184372088832.
  change (Z.pos (2 ^ 53)) with 9007199254740992 in *.
  change (Z.pos (2 ^ 47)) with 140737488355328 in *.
  split; nia.
Qed.

(** The same with the quotient written as the claim has it. *)
Lemma percent_near (t v : Z) :
  0 <= t <= v -> 0 < v ->
  (Qabs (mul (truediv t v) 100 - inject_Z 100 * inject_Z t / inject_Z v)
   <= 1 # 2 ^ 45)%Q.
Proof.
  intros Ht Hv. pose proof (average_near t v Ht Hv) as [Hlo Hhi].
  assert (inject_Z 100 * inject_Z t / inject_Z v
          == Qmake (100 * t) (Z.to_pos v))%Q as ->.
  { rewrite Qmake_Qdiv, Z2Pos.id, inject_Z_mult by exact Hv. reflexivity. }
  apply Qabs_Qle_condition. split; lra.
Qed.

(** [(t / v) * 100] lies between 0 and 100 for [0 <= t <= v]. *)
Lemma percent_bounds (t v : Z) :
  0 <= t <= v -> 0 < v ->
  (0 <= mul (truediv t v) 100 <= inject_Z 100)%Q.
Proof.
  intros [Ht0 Htv] Hv. unfold truediv, mul.
  pose proof (round_le t v 1 Hv ltac:(lia)
                ltac:(change (2 ^ 53) with 9007199254740992; lia) ltac:(lia))
    as Hy.
  pose proof (round_nonneg t v Hv) as Hy0.
  destruct (round t v) as [n d]. cbn [Qnum Qden].
  unfold Qle in Hy, Hy0. cbn in Hy, Hy0.
  split; [by apply round_nonneg|].
  apply round_le; [lia | lia | | lia].
  change (2 ^ 53) with 9007199254740992. lia.
Qed.

(** [(v / v) * 100] is 100, and [(0 / v) * 100] is 0. *)
Lemma percent_all (v : Z) : 0 < v -> (mul (truediv v v) 100 == inject_Z 100)%Q.
Proof.
  intros Hv. unfold truediv, mul.
  pose proof (round_exact 1 v Hv ltac:(done)) as Hy.
  rewrite Z.mul_1_l in Hy.
  destruct (round v v) as [n d]. cbn [Qnum Qden].
  unfold Qeq in Hy. cbn in Hy.
  assert (n = Z.pos d) as -> by lia.
  rewrite Z.mul_comm. by apply round_exact.
Qed.

Lemma percent_none (v : Z) : mul (truediv 0 v) 100 = 0%Q.
Proof. reflexivity. Qed.

(** On a grid of counts the two operations agree with the Standard
    Library's specification of binary64 division and multiplication. *)
Lemma percent_agrees_with_SpecFloat :
  forallb
    (fun v =>
       forallb
         (fun t =>
            match spec_percent (Z.of_nat t) (Z.of_nat v) with
            | Some q =>
                let r := mul (truediv (Z.of_nat t) (Z.of_nat v)) 100 in
                (Qnum q =? Qnum r) && (Z.pos (Qden q) =? Z.pos (Qden r))
            | None => false
            end)
         (seq 0 (S v)))
    (seq 1 64)
  = true.
Proof. vm_compute. reflexivity. Qed.

End Binary64Facts.

(* ===================================================================== *)
(** * Aggregator: the average                                             *)
(* ===================================================================== *)

Section Average.

Lemma valid_score_cases (s : string) :
  is_valid_score s = true -> s = "0" \/ s = "1".
Proof.
  unfold is_valid_score, Str.mem. simpl.
  destruct (String.eqb_spec s "0") as [->|_]; [by left|].
  destruct (String.eqb_spec s "1") as [->|_]; [by right|done].
Qed.

Lemma sum_Z_cons (x : Z) (xs : list Z) : sum_Z (x :: xs) = x + sum_Z xs.
Proof. reflexivity. Qed.

Lemma count_score_cons (s : string) (r : result) (results : list result) :
  count_score s (r :: results)
  = (if String.eqb (score r) s then 1 else 0) + count_score s results.
Proof.
  unfold count_score. cbn [List.filter].
  destruct (String.eqb (score r) s); cbn [length]; lia.
Qed.

Lemma sum_ones (results : list result) :
  sum_Z ((fun _ => 1) <$> List.filter (fun r => is_valid_score (score r)) results)
  = count_score "0" results + count_score "1" results.
Proof.
  induction results as [|r results IH]; [reflexivity|].
  rewrite !count_score_cons. cbn [List.filter].
  destruct (is_valid_score (score r)) eqn:Hv.
  - rewrite fmap_cons, sum_Z_cons, IH.
    destruct (valid_score_cases _ Hv) as [-> | ->]; simpl; lia.
  - rewrite IH.
    destruct (String.eqb_spec (score r) "0") as [E|_];
      [rewrite E in Hv; discriminate|].
    destruct (String.eqb_spec (score r) "1") as [E|_];
      [rewrite E in Hv; discriminate|].
    lia.
Qed.

Lemma sum_scores (results : list result) :
  sum_Z ((fun r => int_of_score (score r))
           <$> List.filter (fun r => is_valid_score (score r)) results)
  = count_score "1" results.
Proof.
  induction results as [|r results IH]; [reflexivity|].
  rewrite !count_score_cons. cbn [List.filter].
  destruct (is_valid_score (score r)) eqn:Hv.
  - rewrite fmap_cons, sum_Z_cons, IH.
    destruct (valid_score_cases _ Hv) as [-> | ->]; simpl; lia.
  - rewrite IH.
    destruct (String.eqb_spec (score r) "1") as [E|_];
      [rewrite E in Hv; discriminate|].
    lia.
Qed.

Lemma count_score_nonneg s results : 0 <= count_score s results.
Proof. unfold count_score. lia. Qed.

(** The average in terms of the two counts. *)
Lemma average_of_counts (results : list result) :
  average_of results =
    if count_score "0" results + count_score "1" results =? 0 then 0%Q
    else Binary64.mul
           (Binary64.truediv (count_score "1" results)
              (count_score "0" results + count_score "1" results)) 100.
Proof.
  unfold average_of. destruct (first_pass results) as [t0 v0].
  cbv beta iota zeta. rewrite sum_ones, sum_scores.
  pose proof (count_score_nonneg "0" results).
  pose proof (count_score_nonneg "1" results).
  destruct (Z.eqb_spec (count_score "0" results + count_score "1" results) 0)
    as [E|E].
  - by rewrite E.
  - by destruct (Z.ltb_spec 0 (count_score "0" results + count_score "1" results));
      [|lia].
Qed.

Lemma count_score_filter_valid (s : string) (results : list result) :
  is_valid_score s = true ->
  count_score s (List.filter (fun r => is_valid_score (score r)) results)
  = count_score s results.
Proof.
  intros Hs. induction results as [|r rs IH]; [reflexivity|].
  cbn [List.filter].
  destruct (is_valid_score (score r)) eqn:Hv.
  - rewrite !count_score_cons. by rewrite IH.
  - rewrite count_score_cons, IH.
    destruct (String.eqb_spec (score r) s) as [E|_];
      [rewrite E in Hv; congruence | lia].
Qed.

(** C3, as the code has it.  The average is [(ones / valid) * 100] computed
    in binary64, where [ones] counts the results scored "1" and [valid]
    those scored "0" or "1": it lies within [2 ^ -45] of
    [100 * ones / valid] but need not equal it.  A result with any other
    score is left out of both counts, so removing such results changes
    nothing; without a valid score the average is 0; and the scores 1, 1,
    0, invalid, 0 average to 50. *)
Theorem average_score_formula (results : list result) :
  let ones := count_score "1" results in
  let valid := count_score "0" results + count_score "1" results in
  average_of results =
    (if valid =? 0 then 0%Q
     else Binary64.mul (Binary64.truediv ones valid) 100) /\
  (valid <> 0 ->
   (Qabs (average_of results - inject_Z 100 * inject_Z ones / inject_Z valid)
    <= 1 # 2 ^ 45)%Q) /\
  average_of (List.filter (fun r => is_valid_score (score r)) results)
  = average_of results /\
  average_of (results_scored ["1"; "1"; "0"; "invalid"; "0"]) = 50%Q.
Proof.
  intros ones valid. subst ones valid.
  split; [apply average_of_counts|]. split; [|split].
  - intros Hvalid. rewrite average_of_counts.
    pose proof (count_score_nonneg "0" results).
    pose proof (count_score_nonneg "1" results).
    destruct (Z.eqb_spec (count_score "0" results + count_score "1" results) 0)
      as [|_]; [done|].
    apply percent_near; lia.
  - rewrite !average_of_counts.
    by rewrite !count_score_filter_valid by reflexivity.
  - vm_compute. reflexivity.
Qed.

(** C3 as stated fails: 7 results scored "1" and 18 scored "0" average to
    28.000000000000004, the binary64 result of [(7 / 25) * 100], which
    exceeds [100 * 7 / 25 = 28] by [2 ^ -48]. *)
Lemma average_of_seven_in_twenty_five :
  let results := results_scored (replicate 7 "1" ++ replicate 18 "0") in
  count_score "1" results = 7 /\ count_score "0" results = 18 /\
  average_of results = 7881299347898369 # 281474976710656 /\
  ~ (average_of results == inject_Z 100 * inject_Z 7 / inject_Z 25)%Q /\
  (average_of results - inject_Z 100 * inject_Z 7 / inject_Z 25
   == 1 # 2 ^ 48)%Q.
Proof.
  vm_compute. split; [reflexivity|]. split; [reflexivity|].
  split; [reflexivity|]. split; [discriminate | reflexivity].
Qed.

End Average.

(* ===================================================================== *)
(** * Response parser: the score                                          *)
(* ===================================================================== *)

Section ParserScore.

Lemma parse_line_score (s e line : string) :
  (parse_line (s, e) line).1 = default s (accepted_score line).
Proof.
  unfold parse_line, accepted_score.
  destruct (Str.any_in SCORE_KEYWORDS line); [|reflexivity].
  destruct (Str.mem (score_text_of line) ["0"; "1"]); reflexivity.
Qed.

Lemma accepted_score_valid (line d : string) :
  accepted_score line = Some d -> Str.mem d ["0"; "1"] = true.
Proof.
  unfold accepted_score.
  destruct (Str.any_in SCORE_KEYWORDS line); [|done].
  destruct (Str.mem (score_text_of line) ["0"; "1"]) eqn:Hm; [|done].
  by intros [= <-].
Qed.

(** The loop keeps the digits of the last accepted line. *)
Lemma parse_lines_score (lines : list string) :
  forall s e,
    (fold_left parse_line lines (s, e)).1 = default s (last_accepted lines).
Proof.
  unfold last_accepted.
  induction lines as [|line lines IH]; intros s e; [reflexivity|].
  cbn [fold_left].
  destruct (parse_line (s, e) line) as [s' e'] eqn:Hstep.
  rewrite IH.
  assert (s' = default s (accepted_score line)) as ->
    by (rewrite <- parse_line_score with (e := e); by rewrite Hstep).
  cbn [omap list_omap].
  destruct (accepted_score line) as [d|]; [|reflexivity].
  cbn [default]. rewrite last_cons.
  destruct (last (omap accepted_score lines)); reflexivity.
Qed.

Lemma parse_lines_valid (lines : list string) :
  forall s e,
    Str.mem s ["0"; "1"] = true ->
    Str.mem (fold_left parse_line lines (s, e)).1 ["0"; "1"] = true.
Proof.
  induction lines as [|line lines IH]; intros s e Hs; [exact Hs|].
  cbn [fold_left].
  destruct (parse_line (s, e) line) as [s' e'] eqn:Hstep.
  apply IH.
  assert (s' = default s (accepted_score line)) as ->
    by (rewrite <- parse_line_score with (e := e); by rewrite Hstep).
  destruct (accepted_score line) as [d|] eqn:Ha; [|exact Hs].
  by eapply accepted_score_valid.
Qed.

(** The score in terms of the accepted lines, and its range. *)
Lemma parse_evaluation_last_accepted (evaluation_text : pyval) :
  (parse_evaluation evaluation_text).1 =
    (if py_truthy evaluation_text
     then default DEFAULT_SCORE
                  (last_accepted (evaluation_lines (py_format evaluation_text)))
     else DEFAULT_SCORE) /\
  is_valid_score (parse_evaluation evaluation_text).1 = true.
Proof.
  destruct evaluation_text as [|text|[|]];
    [by split | | split; vm_compute; reflexivity | by split].
  unfold parse_evaluation. cbn [strip_fault py_format].
  destruct (py_truthy (PyStr text)); [|by split].
  cbn [negb].
  pose proof (parse_lines_score (evaluation_lines text)
                DEFAULT_SCORE DEFAULT_EXPLANATION) as Hlast.
  pose proof (parse_lines_valid (evaluation_lines text)
                DEFAULT_SCORE DEFAULT_EXPLANATION eq_refl) as Hvalid.
  destruct (fold_left parse_line _ _) as [s e].
  cbn [fst] in *. rewrite Hvalid. cbn [fst]. by split.
Qed.

(** A text without a score keyword on any line has no accepted line. *)
Lemma last_accepted_no_score_line (lines : list string) :
  Forall (fun line => Str.any_in SCORE_KEYWORDS line = false) lines ->
  last_accepted lines = None.
Proof.
  unfold last_accepted. intros Hnone.
  induction Hnone as [|line lines Hline _ IH]; [reflexivity|].
  cbn [omap list_omap]. unfold accepted_score at 1. rewrite Hline.
  exact IH.
Qed.

(** When exactly one line holds a score keyword and its only digit is a 0
    or a 1, that digit is the last accepted one. *)
Lemma last_accepted_single (before after : list string) (line : string) :
  Forall (fun l => Str.any_in SCORE_KEYWORDS l = false) before ->
  Forall (fun l => Str.any_in SCORE_KEYWORDS l = false) after ->
  Str.any_in SCORE_KEYWORDS line = true ->
  Str.mem (score_text_of line) ["0"; "1"] = true ->
  last_accepted (before ++ line :: after) = Some (score_text_of line).
Proof.
  intros Hb Ha Hk Hd. unfold last_accepted.
  rewrite omap_app. cbn [omap list_omap].
  pose proof (last_accepted_no_score_line after Ha) as Hafter.
  unfold last_accepted in Hafter.
  assert (accepted_score line = Some (score_text_of line)) as ->
    by (unfold accepted_score; by rewrite Hk, Hd).
  rewrite last_app, last_cons, Hafter. reflexivity.
Qed.

(** C4, as the code has it.  The score [parse_evaluation] returns is the
    digit string of the last line (lower-cased and stripped) that holds a
    score keyword and whose digits, put together, are exactly 0 or 1; when
    the text is empty or [None], or no line is such (so also when no line
    holds a score keyword), it is the default 0.  The score is always 0 or
    1. *)
Theorem parse_evaluation_score (evaluation_text : pyval) :
  (parse_evaluation evaluation_text).1 =
    (if py_truthy evaluation_text
     then default DEFAULT_SCORE
                  (last_accepted (evaluation_lines (py_format evaluation_text)))
     else DEFAULT_SCORE) /\
  is_valid_score (parse_evaluation evaluation_text).1 = true /\
  (forall lines,
     Forall (fun line => Str.any_in SCORE_KEYWORDS line = false) lines ->
     last_accepted lines = None) /\
  (forall before line after,
     Forall (fun l => Str.any_in SCORE_KEYWORDS l = false) before ->
     Forall (fun l => Str.any_in SCORE_KEYWORDS l = false) after ->
     Str.any_in SCORE_KEYWORDS line = true ->
     Str.mem (score_text_of line) ["0"; "1"] = true ->
     last_accepted (before ++ line :: after) = Some (score_text_of line)).
Proof.
  destruct (parse_evaluation_last_accepted evaluation_text) as [Hscore Hvalid].
  split; [exact Hscore|]. split; [exact Hvalid|]. split.
  - apply last_accepted_no_score_line.
  - intros before line after. apply last_accepted_single.
Qed.

(** A text without a score keyword on any line gets the default score. *)
Lemma parse_evaluation_no_score_line (evaluation_text : pyval) :
  Forall (fun line => Str.any_in SCORE_KEYWORDS line = false)
         (evaluation_lines (py_format evaluation_text)) ->
  (parse_evaluation evaluation_text).1 = DEFAULT_SCORE.
Proof.
  intros Hnone.
  destruct (parse_evaluation_last_accepted evaluation_text) as [-> _].
  destruct (py_truthy evaluation_text); [|reflexivity].
  by rewrite last_accepted_no_score_line.
Qed.

(** C4 as stated fails: the judge echoes the format line of
    [EVALUATION_FORMAT] and fills in 1.  The line holds a score keyword
    and ends in 1, its digits are 011, and the score is 0. *)
Lemma parse_evaluation_echoed_format :
  evaluation_lines "Score (0 or 1): 1" = ["score (0 or 1): 1"] /\
  Str.any_in SCORE_KEYWORDS "score (0 or 1): 1" = true /\
  Str.endswith "score (0 or 1): 1" "1" = true /\
  score_text_of "score (0 or 1): 1" = "011" /\
  (parse_evaluation (PyStr "Score (0 or 1): 1")).1 = "0".
Proof. vm_compute. repeat split. Qed.

Example parse_plain :
  parse_evaluation (PyStr ("Score: 1" +:+ Str.nl +:+ "Explanation: it matches"))
  = ("1", "It matches").
Proof. vm_compute. reflexivity. Qed.

Example parse_empty :
  parse_evaluation (PyStr EmptyString) = (DEFAULT_SCORE, DEFAULT_EXPLANATION).
Proof. reflexivity. Qed.

Example parse_last_score_line_wins :
  (parse_evaluation (PyStr ("Score: 1" +:+ Str.nl +:+ "Score: 0"))).1 = "0".
Proof. vm_compute. reflexivity. Qed.

End ParserScore.

(* ===================================================================== *)
(** * Rate-limited caller: the properties                                 *)
(* ===================================================================== *)

Section RetryCaller.

Lemma time_sleep_accepted (secs : pyfloat) (st : caller_state) :
  sleep_accepts secs = true ->
  time_sleep secs st = Ret (CallerState (invocations st) (sleeps st ++ [secs])).
Proof.
  destruct secs as [q| |]; [|done|done]. cbn [sleep_accepts time_sleep].
  intros [H0 H1]%andb_true_iff. by rewrite H0, H1.
Qed.

(** One failed attempt whose wait [time.sleep] accepts: the call is
    counted, the wait is slept, the loop goes on. *)
Lemma retry_loop_failed invoke remaining retry_delay st e :
  invoke (invocations st) = Raise e ->
  sleep_accepts (wait_for (exn_msg e) retry_delay) = true ->
  retry_loop time_sleep invoke (S remaining) retry_delay st =
    retry_loop time_sleep invoke remaining (next_delay (exn_msg e) retry_delay)
      (CallerState (S (invocations st))
                   (sleeps st ++ [wait_for (exn_msg e) retry_delay])).
Proof.
  intros Hcall Hsleep. cbn [retry_loop]. rewrite Hcall.
  unfold wait_for, next_delay, is_rate_limit in *.
  destruct (Str.contains "rate_limit_exceeded" (exn_msg e));
    by rewrite (time_sleep_accepted _ _ Hsleep).
Qed.

Lemma retry_loop_succeeded invoke remaining retry_delay st v :
  invoke (invocations st) = Ret v ->
  retry_loop time_sleep invoke (S remaining) retry_delay st =
    (Ret v, CallerState (S (invocations st)) (sleeps st)).
Proof. intros Hcall. cbn [retry_loop]. by rewrite Hcall. Qed.

(** A failure without the rate-limit signal waits the back-off delay and
    doubles it. *)
Lemma backoff_wait (error_message : string) (retry_delay : Z) :
  is_rate_limit error_message = false ->
  wait_for error_message retry_delay = PyFloat.of_Z retry_delay /\
  next_delay error_message retry_delay = retry_delay * 2.
Proof. intros H. unfold wait_for, next_delay. by rewrite H. Qed.

(** C5.  A generator that raises an error without the rate-limit signal
    on every call is called exactly 5 times, each failure followed by its
    back-off wait (2, 4, 8, 16, 32), and [create_tests] then raises the
    terminal error, whose message names the 5 attempts.  A generator that
    fails on its first two calls and then succeeds makes [create_tests]
    return the success value after 3 calls and exactly two waits, provided
    [time.sleep] accepts the two waits (as it does every back-off wait). *)
Theorem create_tests_retry_bounds :
  (forall chain context id num_tests,
     (forall k, exists e,
         chain context id num_tests k = Raise e /\
         is_rate_limit (exn_msg e) = false) ->
     create_tests chain context id num_tests caller_init =
       (Raise terminal_error,
        CallerState 5 (PyFloat.of_Z <$> [2; 4; 8; 16; 32]))) /\
  exn_msg terminal_error = "Failed to complete after 5 attempts." /\
  (forall chain context id num_tests e1 e2 v,
     chain context id num_tests 0%nat = Raise e1 ->
     chain context id num_tests 1%nat = Raise e2 ->
     chain context id num_tests 2%nat = Ret v ->
     sleep_accepts (wait_for (exn_msg e1) 2) = true ->
     sleep_accepts (wait_for (exn_msg e2) (next_delay (exn_msg e1) 2)) = true ->
     create_tests chain context id num_tests caller_init =
       (Ret v,
        CallerState 3 [wait_for (exn_msg e1) 2;
                       wait_for (exn_msg e2) (next_delay (exn_msg e1) 2)])).
Proof.
  split; [|split; [reflexivity|]].
  - intros chain context id num_tests Hdown.
    unfold create_tests, create_tests_on, max_retries, initial_retry_delay,
      caller_init.
    set (invoke := chain context id num_tests).
    assert (forall remaining d st,
              sleep_accepts (PyFloat.of_Z d) = true ->
              retry_loop time_sleep invoke (S remaining) d st =
                retry_loop time_sleep invoke remaining (d * 2)
                  (CallerState (S (invocations st))
                               (sleeps st ++ [PyFloat.of_Z d]))) as Hstep.
    { intros remaining d st Hd.
      destruct (Hdown (invocations st)) as (e & He & Hrl).
      destruct (backoff_wait (exn_msg e) d Hrl) as [Hw Hn].
      rewrite (retry_loop_failed invoke remaining d st e He) by (by rewrite Hw).
      by rewrite Hw, Hn. }
    do 5 (rewrite Hstep by reflexivity; cbn [invocations sleeps]).
    reflexivity.
  - intros chain context id num_tests e1 e2 v H0 H1 H2 Hs1 Hs2.
    unfold create_tests, create_tests_on, max_retries, initial_retry_delay,
      caller_init.
    rewrite (retry_loop_failed _ _ _ _ e1) by done.
    cbn [invocations sleeps].
    rewrite (retry_loop_failed _ _ _ _ e2) by done.
    cbn [invocations sleeps].
    by rewrite (retry_loop_succeeded _ _ _ _ v).
Qed.

Lemma create_tests_retry_bounds_witness :
  (forall k, exists e,
      Sample.chain_down "text" "1" 3 k = Raise e /\
      is_rate_limit (exn_msg e) = false) /\
  create_tests Sample.chain_down "text" "1" 3 caller_init =
    (Raise terminal_error, CallerState 5 (PyFloat.of_Z <$> [2; 4; 8; 16; 32])) /\
  create_tests Sample.chain_recovers "text" "1" 3 caller_init =
    (Ret "id: 1", CallerState 3 [PyFloat.of_Z 2; PyFloat.of_Z 4]).
Proof.
  assert (forall k, exists e,
             Sample.chain_down "text" "1" 3 k = Raise e /\
             is_rate_limit (exn_msg e) = false) as Hdown.
  { intros k. eexists. split; reflexivity. }
  split; [exact Hdown|]. split.
  - exact (proj1 create_tests_retry_bounds Sample.chain_down "text" "1" 3 Hdown).
  - exact (proj2 (proj2 create_tests_retry_bounds) Sample.chain_recovers
             "text" "1" 3 (Exn PlainException "connection reset")
             (Exn PlainException "connection reset") "id: 1"
             eq_refl eq_refl eq_refl eq_refl eq_refl).
Defined.

(** C6 at two rate-limit messages that suggest a wait with a fraction.
    The text between the marker and the next full stop is " 1" (" 7" in
    the provider's usual wording, where a unit follows), so the wait is 1
    (7): neither the suggested 1.5 (7.66) nor the default 60.  [float]
    itself reads "1.5" as 1.5, and a suggestion without a full stop inside
    the number is used as it stands. *)
Theorem rate_limit_wait_drops_fraction :
  let plain :=
    "Error code: 429 - rate_limit_exceeded: Rate limit reached. Please try again in 1.5. Visit the dashboard" in
  let usual :=
    "Error code: 429 - rate_limit_exceeded: Rate limit reached. Please try again in 7.66s. Visit the dashboard" in
  is_rate_limit plain = true /\ wait_for plain 2 = Finite 1 /\
  is_rate_limit usual = true /\ wait_for usual 2 = Finite 7 /\
  PyFloat.of_str "1.5" = Some (Finite (3 # 2)) /\
  default_wait_time = Finite 60 /\
  wait_for "rate_limit_exceeded. Please try again in 20. Visit the dashboard" 2
    = Finite 20.
Proof. vm_compute. repeat split. Qed.

(** Without the marker, or when the text up to the full stop is not a
    number, the rate-limit wait is the default 60. *)
Lemma rate_limit_wait_default (error_message : string) :
  Str.contains "Please try again in" error_message = false ->
  rate_limit_wait error_message = default_wait_time.
Proof. intros H. unfold rate_limit_wait. by rewrite H. Qed.

Example rate_limit_wait_unit_suffix :
  rate_limit_wait "rate_limit_exceeded. Please try again in 20s. Visit the dashboard"
  = default_wait_time.
Proof. vm_compute. reflexivity. Qed.

(** A suggested wait that [time.sleep] refuses ends [create_tests] at once
    with the fault of [time.sleep]. *)
Example create_tests_negative_suggestion :
  create_tests
    (fun _ _ _ _ =>
       Raise (Exn PlainException "rate_limit_exceeded. Please try again in -1. "))
    "text" "1" 3 caller_init
  = (Raise (Exn ValueError "sleep length must be non-negative"),
     CallerState 1 []).
Proof. vm_compute. reflexivity. Qed.

End RetryCaller.

(* ===================================================================== *)
(** * Test-set generator: what [parse_response] emits                     *)
(* ===================================================================== *)

Section ResponseParser.

(** A line either leaves [data] alone or is an answer line whose number
    equals the recorded question number; then it appends one entry made
    of the recorded id, number and question text, clears the question and
    answer texts and keeps the question number. *)
Lemma parse_response_line_emission (st st' : parser_state) (line : string) :
  parse_response_line st line = Ret st' ->
  data st' = data st \/
  (Str.startswith line "answer_" = true /\
   tag_number "answer_" line = current_question_num st /\
   exists answer,
     data st' = data st ++ [MkTestCase (current_id st) (current_question_num st)
                              (current_question st) answer] /\
     current_question st' = EmptyString /\ current_answer st' = EmptyString /\
     current_question_num st' = current_question_num st).
Proof.
  unfold parse_response_line.
  destruct (Str.startswith line "id:"); [intros [= <-]; by left|].
  destruct (Str.startswith line "question_").
  { destruct (colon_part 1 line); [intros [= <-]; by left | done]. }
  destruct (Str.startswith line "answer_"); [|intros [= <-]; by left].
  destruct (String.eqb_spec (tag_number "answer_" line) (current_question_num st))
    as [Hnum|_]; [|intros [= <-]; by left].
  destruct (colon_part 1 line) as [text|]; [|done].
  intros [= <-]. right. split; [done|]. split; [exact Hnum|].
  by exists (Str.strip text).
Qed.

(** C7 at a response that repeats an answer line.  The first answer_1
    line emits the pair; the question number is still recorded afterwards,
    so the second answer_1 line emits an entry whose question is empty. *)
Theorem parse_response_repeated_answer :
  let response_text :=
    "id: 7" +:+ Str.nl +:+ "question_1: What is the capital?" +:+ Str.nl
    +:+ "answer_1: Paris" +:+ Str.nl +:+ "answer_1: It is Paris" in
  parse_response response_text =
    Ret [MkTestCase "7" "1" "What is the capital?" "Paris";
         MkTestCase "7" "1" EmptyString "It is Paris"] /\
  parse_response_line (ParserState [] "7" "1" "What is the capital?" EmptyString)
                      "answer_1: Paris" =
    Ret (ParserState [MkTestCase "7" "1" "What is the capital?" "Paris"]
                     "7" "1" EmptyString EmptyString).
Proof. vm_compute. split; reflexivity. Qed.

Example parse_response_unmatched_question_dropped :
  parse_response ("id: 7" +:+ Str.nl +:+ "question_1: first?" +:+ Str.nl
                  +:+ "question_2: second?" +:+ Str.nl +:+ "answer_1: one")
  = Ret [].
Proof. vm_compute. reflexivity. Qed.

(** A question line without a colon is not dropped: the [IndexError] of
    the subscript leaves [parse_response]. *)
Example parse_response_colonless_line :
  parse_response ("id: 7" +:+ Str.nl +:+ "question_1 first?") = Raise no_colon.
Proof. vm_compute. reflexivity. Qed.

Example parse_response_pairs :
  parse_response ("id: 7" +:+ Str.nl +:+ "question_1: first?" +:+ Str.nl
                  +:+ "answer_1: one" +:+ Str.nl +:+ "question_2: second?"
                  +:+ Str.nl +:+ "answer_2: two")
  = Ret [MkTestCase "7" "1" "first?" "one"; MkTestCase "7" "2" "second?" "two"].
Proof. vm_compute. reflexivity. Qed.

End ResponseParser.

(* ===================================================================== *)
(** * Reporter: where the report goes                                     *)
(* ===================================================================== *)

Section ReporterFacts.
Context {W : Type}.
Variable rag_query_fn : string -> W -> outcome pyval * W.
Variable evaluator_model : string -> W -> outcome pyval * W.

Lemma report_path_not_results (output_path : option string) (timestamp : string) :
  report_path output_path timestamp <> "results".
Proof.
  unfold report_path. intros H. apply (f_equal String.length) in H.
  rewrite length_append in H. simpl in H. lia.
Qed.

Lemma report_path_not_literal (p timestamp : string) :
  report_path (Some p) timestamp <> p.
Proof.
  unfold report_path. intros H. apply (f_equal String.length) in H.
  rewrite length_append in H. simpl in H. lia.
Qed.

(** What [ensure_results_dir] can do to the file system. *)
Lemma ensure_results_dir_files files refuse files1 :
  ensure_results_dir files refuse = Ret files1 ->
  files1 = with_results_dir files /\
  (forall p, p <> "results" -> files1 !! p = files !! p) /\
  (files1 !! "results" = files !! "results" \/ files1 !! "results" = Some Dir).
Proof.
  unfold ensure_results_dir, with_results_dir.
  destruct (path_exists files "results").
  - intros [= <-]. split; [done|]. split; [done|by left].
  - destruct (refuse "results"); [done|]. intros [= <-].
    split; [done|]. split.
    + intros p Hp. by rewrite lookup_insert_ne.
    + right. by rewrite lookup_insert_eq.
Qed.

(** The files a run of the [try] body may touch, and what a run that
    returns leaves at the report path. *)
Lemma run_and_report_files questions output_path batch_size sched_of
    (w : world W) r w' :
  run_and_report rag_query_fn evaluator_model questions output_path batch_size
                 sched_of w = (r, w') ->
  let path := report_path output_path (now w) in
  (forall p, p <> path -> p <> "results" -> fs w' !! p = fs w !! p) /\
  (fs w' !! "results" = fs w !! "results" \/ fs w' !! "results" = Some Dir) /\
  (forall average, r = Ret average ->
     exists results,
       fs w' !! path = Some (ReportFile (Some result_keys) results) /\
       average = average_of results).
Proof.
  unfold run_and_report.
  change ("results/" +:+ match output_path with
                         | Some p => p
                         | None => auto_output_name (now w)
                         end)
    with (report_path output_path (now w)).
  pose proof (report_path_not_results output_path (now w)) as Hnr.
  set (path := report_path output_path (now w)) in *.
  destruct (evaluate_batch _ _ _ _ _ _ _) as [[[results|e] pbar'] x].
  2: { intros [= <- <-]. cbn. split; [done|]. split; [by left|done]. }
  destruct (ensure_results_dir (fs w) (refused w)) as [files1|e] eqn:Hdir.
  2: { intros [= <- <-]. cbn. split; [done|]. split; [by left|done]. }
  apply ensure_results_dir_files in Hdir as (_ & Hother & Hres).
  unfold open_w. destruct (refused w path).
  { intros [= <- <-]. cbn. split; [|split; [exact Hres|done]].
    intros p _ Hp. by apply Hother. }
  unfold write_report. destruct (results !! 0%nat) as [first|].
  - intros [= <- <-]. cbn. split; [|split].
    + intros p Hp Hp'. rewrite !lookup_insert_ne by done. by apply Hother.
    + rewrite !lookup_insert_ne by done. exact Hres.
    + intros average [= <-]. exists results. by rewrite lookup_insert_eq.
  - intros [= <- <-]. cbn. split; [|split; [|done]].
    + intros p Hp Hp'. rewrite lookup_insert_ne by done. by apply Hother.
    + rewrite lookup_insert_ne by done. exact Hres.
Qed.

(** What [run_and_report] does, case by case. *)
Lemma run_and_report_cases questions output_path batch_size sched_of
    (w : world W) :
  1 <= batch_size ->
  let path := report_path output_path (now w) in
  exists results pbar' x,
    evaluate_batch rag_query_fn evaluator_model questions batch_size
      (Some (Tqdm (length questions) 0 "Evaluating questions" false))
      sched_of (ext w) = (Ret results, pbar', x) /\
    Forall2 (evaluated rag_query_fn evaluator_model) questions results /\
    run_and_report rag_query_fn evaluator_model questions output_path
                   batch_size sched_of w
    = if path_exists (fs w) "results" || negb (refused w "results")
      then if refused w path
           then (Raise (refusal path),
                 World (with_results_dir (fs w)) (now w) (refused w) x)
           else match results with
                | [] => (Raise (Exn IndexError "list index out of range"),
                         World (<[path := empty_file]> (with_results_dir (fs w)))
                               (now w) (refused w) x)
                | _ :: _ =>
                    (Ret (average_of results),
                     World (<[path := ReportFile (Some result_keys) results]>
                              (<[path := empty_file]> (with_results_dir (fs w))))
                           (now w) (refused w) x)
                end
      else (Raise (refusal "results"), World (fs w) (now w) (refused w) x).
Proof.
  intros Hb path.
  destruct (evaluate_batch_evaluated rag_query_fn evaluator_model questions
              batch_size
              (Some (Tqdm (length questions) 0 "Evaluating questions" false))
              sched_of (ext w) Hb) as (results & pbar' & x & Heq & Hall).
  exists results, pbar', x. split; [exact Heq|]. split; [exact Hall|].
  unfold run_and_report. rewrite Heq.
  change ("results/" +:+ match output_path with
                         | Some p => p
                         | None => auto_output_name (now w)
                         end) with path.
  unfold ensure_results_dir, with_results_dir.
  destruct (path_exists (fs w) "results"); cbn [orb negb].
  - unfold open_w. destruct (refused w path); [reflexivity|].
    unfold write_report. by destruct results.
  - destruct (refused w "results"); cbn [negb]; [reflexivity|].
    unfold open_w. destruct (refused w path); [reflexivity|].
    unfold write_report. by destruct results.
Qed.

(** C9.  Whatever the arguments, the report path is "results/" followed by
    the caller's [output_path], or by the generated name
    rag_evaluation_results_<timestamp>.csv when none is given.  A run over
    at least one question, with a batch size of at least 1, [num_tests]
    absent or at least 1, and an operating system that lets it create the
    results directory and open the report, returns with the report written
    at that path, one entry per question, the results directory being
    created when it was absent.  However a run ends, no path but that one
    and the results directory is touched, so the path the caller gave is
    left as it was (or holds the new results directory when the caller gave
    "results"). *)
Theorem report_written_under_results
    (test_set_path : string) (output_path : option string) (batch_size : Z)
    (num_tests : option Z) (sched_of : nat -> list nat) (w : world W)
    (r : outcome Q) (w' : world W) :
  evaluate_rag_system rag_query_fn evaluator_model test_set_path output_path
                      batch_size num_tests sched_of w = (r, w') ->
  let path := report_path output_path (now w) in
  path = "results/" +:+ match output_path with
                        | Some p => p
                        | None => "rag_evaluation_results_" +:+ now w +:+ ".csv"
                        end /\
  (forall rows,
     fs w !! test_set_path = Some (TestSetFile rows) ->
     head_rows num_tests rows <> [] ->
     1 <= batch_size ->
     (forall k, num_tests = Some k -> 1 <= k) ->
     report_writable w output_path = true ->
     exists results,
       r = Ret (average_of results) /\
       Forall2 (evaluated rag_query_fn evaluator_model)
               (head_rows num_tests rows) results /\
       fs w' = <[path := ReportFile (Some result_keys) results]>
                 (with_results_dir (fs w)) /\
       fs w' !! path = Some (ReportFile (Some result_keys) results) /\
       fs w' !! "results" = Some (default Dir (fs w !! "results"))) /\
  (forall average, r = Ret average ->
     exists results,
       fs w' !! path = Some (ReportFile (Some result_keys) results) /\
       average = average_of results) /\
  (forall p, p <> path -> p <> "results" -> fs w' !! p = fs w !! p) /\
  (forall p, output_path = Some p ->
     p <> path /\
     (fs w' !! p = fs w !! p \/ p = "results" /\ fs w' !! p = Some Dir)).
Proof.
  intros Hrun path.
  assert ((forall p, p <> path -> p <> "results" -> fs w' !! p = fs w !! p) /\
          (fs w' !! "results" = fs w !! "results" \/
           fs w' !! "results" = Some Dir) /\
          (forall average, r = Ret average ->
             exists results,
               fs w' !! path = Some (ReportFile (Some result_keys) results) /\
               average = average_of results)) as (Hother & Hres & Hret).
  { revert Hrun. unfold evaluate_rag_system.
    destruct (negb (path_exists (fs w) test_set_path));
      [intros [= <- <-]; split; [done|split; [by left|done]]|].
    destruct (batch_size <? 1);
      [intros [= <- <-]; split; [done|split; [by left|done]]|].
    destruct (match num_tests with Some k => k <? 1 | None => false end);
      [intros [= <- <-]; split; [done|split; [by left|done]]|].
    destruct (read_csv (fs w) test_set_path) as [rows|e];
      [|intros [= <- <-]; split; [done|split; [by left|done]]].
    apply run_and_report_files. }
  split; [reflexivity|]. split; [|split; [exact Hret|]]; [|split; [exact Hother|]].
  - intros rows Hfile Hrows Hb Hnum Hwr.
    revert Hrun. unfold evaluate_rag_system.
    assert (path_exists (fs w) test_set_path = true) as ->.
    { unfold path_exists. apply bool_decide_eq_true. by rewrite Hfile. }
    cbn [negb].
    destruct (Z.ltb_spec batch_size 1) as [|_]; [lia|].
    assert (match num_tests with Some k => k <? 1 | None => false end = false)
      as ->.
    { destruct num_tests as [k|]; [|done].
      specialize (Hnum k eq_refl). apply Z.ltb_ge. lia. }
    unfold read_csv. rewrite Hfile.
    destruct (run_and_report_cases (head_rows num_tests rows) output_path
                batch_size sched_of w Hb)
      as (results & pbar' & x & _ & Hall & ->).
    fold path. unfold report_writable in Hwr. fold path in Hwr.
    apply andb_true_iff in Hwr as [-> Hopen].
    apply negb_true_iff in Hopen. rewrite Hopen.
    destruct results as [|res results].
    { apply Forall2_length in Hall.
      by destruct (head_rows num_tests rows). }
    intros [= <- <-]. exists (res :: results). cbn [fs].
    pose proof (report_path_not_results output_path (now w)) as Hnr.
    fold path in Hnr.
    split; [reflexivity|]. split; [exact Hall|].
    split; [apply insert_insert_eq|]. split; [apply lookup_insert_eq|].
    rewrite !lookup_insert_ne by done. unfold with_results_dir, path_exists.
    destruct (fs w !! "results") as [n|] eqn:Hdir.
    + rewrite bool_decide_eq_true_2 by eauto. exact Hdir.
    + rewrite bool_decide_eq_false_2 by (by intros [? ?]).
      by rewrite lookup_insert_eq.
  - intros p ->. split.
    + intros H. symmetry in H. by apply report_path_not_literal in H.
    + destruct (decide (p = "results")) as [->|Hp].
      * destruct Hres as [Hres|Hres]; [by left | by right].
      * left. apply Hother; [|exact Hp].
        intros H. symmetry in H. by apply report_path_not_literal in H.
Qed.

Lemma evaluate_batch_no_questions batch_size pbar sched_of (x : W) :
  1 <= batch_size ->
  evaluate_batch rag_query_fn evaluator_model [] batch_size pbar sched_of x
  = (Ret [], pbar, x).
Proof.
  intros Hb. unfold evaluate_batch.
  destruct (Z.eqb_spec batch_size 0) as [|_]; [lia|].
  destruct (Z.ltb_spec batch_size 0) as [|_]; [lia|].
  unfold py_range. cbn [length].
  rewrite Nat.div_small by lia. reflexivity.
Qed.

(** C10.  On a test set without data rows, with a batch size of at least 1
    and [num_tests] absent or at least 1, and with the results directory
    and the report path writable, [evaluate_rag_system] does not return:
    the average over the empty result list is computed as 0, the report
    file is created empty, and the [IndexError] of [results[0]] is
    raised out of the call, leaving the empty file behind. *)
Theorem empty_test_set_raises
    (test_set_path : string) (output_path : option string) (batch_size : Z)
    (num_tests : option Z) (sched_of : nat -> list nat) (w : world W) :
  fs w !! test_set_path = Some (TestSetFile []) ->
  1 <= batch_size ->
  (forall k, num_tests = Some k -> 1 <= k) ->
  report_writable w output_path = true ->
  let path := report_path output_path (now w) in
  let w' := World (<[path := empty_file]> (with_results_dir (fs w)))
                  (now w) (refused w) (ext w) in
  evaluate_rag_system rag_query_fn evaluator_model test_set_path output_path
                      batch_size num_tests sched_of w
  = (Raise (Exn IndexError "list index out of range"), w') /\
  fs w' !! path = Some empty_file /\
  (average_of [] == 0)%Q.
Proof.
  intros Hfile Hb Hnum Hwr path w'.
  split; [|split; [apply lookup_insert_eq | reflexivity]].
  unfold evaluate_rag_system.
  assert (path_exists (fs w) test_set_path = true) as ->.
  { unfold path_exists. apply bool_decide_eq_true. by rewrite Hfile. }
  cbn [negb].
  destruct (Z.ltb_spec batch_size 1) as [|_]; [lia|].
  assert (match num_tests with Some k => k <? 1 | None => false end = false) as ->.
  { destruct num_tests as [k|]; [|done].
    specialize (Hnum k eq_refl). apply Z.ltb_ge. lia. }
  unfold read_csv. rewrite Hfile.
  assert (head_rows num_tests [] = []) as ->
    by (destruct num_tests; [apply take_nil | done]).
  unfold run_and_report.
  rewrite evaluate_batch_no_questions by exact Hb.
  change ("results/" +:+ match output_path with
                         | Some p => p
                         | None => auto_output_name (now w)
                         end) with path.
  unfold report_writable in Hwr.
  apply andb_true_iff in Hwr as [Hdir Hopen].
  apply negb_true_iff in Hopen. fold path in Hopen.
  unfold ensure_results_dir, with_results_dir in *. subst w'.
  destruct (path_exists (fs w) "results"); cbn [orb negb] in Hdir.
  - unfold open_w. rewrite Hopen. reflexivity.
  - apply negb_true_iff in Hdir. rewrite Hdir.
    unfold open_w. rewrite Hopen. reflexivity.
Qed.

End ReporterFacts.

Lemma report_written_under_results_witness :
  let run := evaluate_rag_system Sample.rag Sample.judge "data/test.csv"
               (Some "out.csv") 2 None Sample.sched_of Sample.world0 in
  run = (run.1, run.2) /\
  (exists results,
     run.1 = Ret (average_of results) /\
     fs run.2 !! "results/out.csv"
     = Some (ReportFile (Some result_keys) results) /\
     length results = 3%nat) /\
  fs run.2 !! "results" = Some Dir /\
  fs run.2 !! "out.csv" = None /\
  report_path (Some "out.csv") (now Sample.world0) = "results/out.csv".
Proof.
  intros run.
  pose proof (report_written_under_results Sample.rag Sample.judge
                "data/test.csv" (Some "out.csv") 2 None Sample.sched_of
                Sample.world0 run.1 run.2 eq_refl)
    as (Hpath & Hwritten & _ & _ & Hlit).
  destruct (Hwritten Sample.questions eq_refl ltac:(discriminate) ltac:(lia)
              ltac:(discriminate) eq_refl)
    as (results & Hret & Hall & _ & Hreport & Hdir).
  split; [reflexivity|]. split; [|split; [exact Hdir|split; [|exact Hpath]]].
  - exists results. split; [exact Hret|]. split; [exact Hreport|].
    symmetry. exact (Forall2_length _ _ _ Hall).
  - destruct (Hlit "out.csv" eq_refl) as [_ [H | [H _]]]; [|discriminate H].
    rewrite H. reflexivity.
Defined.

Lemma empty_test_set_raises_witness :
  fs Sample.world_empty !! "data/test.csv" = Some (TestSetFile []) /\
  1 <= 5 /\
  report_writable Sample.world_empty None = true /\
  (evaluate_rag_system Sample.rag Sample.judge "data/test.csv" None 5 None
     Sample.sched_of Sample.world_empty).1
  = Raise (Exn IndexError "list index out of range").
Proof.
  split; [reflexivity|]. split; [lia|]. split; [reflexivity|].
  destruct (empty_test_set_raises Sample.rag Sample.judge "data/test.csv" None 5
              None Sample.sched_of Sample.world_empty eq_refl ltac:(lia)
              ltac:(discriminate) eq_refl) as [-> _].
  reflexivity.
Defined.

(** The sample run returns the average of its three entries, the binary64
    number 66.66666666666666, and leaves the report under the results
    directory. *)
Example sample_run_average :
  let run := evaluate_rag_system Sample.rag Sample.judge "data/test.csv"
               (Some "out.csv") 2 None Sample.sched_of Sample.world0 in
  run.1 = Ret (2345624805922133 # 35184372088832) /\
  dom (fs run.2) = {[ "data/test.csv"; "results"; "results/out.csv" ]}.
Proof. vm_compute. split; reflexivity. Qed.

(* ===================================================================== *)
(** * Further facts about characters and strings                          *)
(* ===================================================================== *)

Section CharFacts.

Lemma lower_char_idem (c : ascii) :
  Str.lower_char (Str.lower_char c) = Str.lower_char c.
Proof. destruct c as [[] [] [] [] [] [] [] []]; reflexivity. Qed.

Lemma isspace_lower_char (c : ascii) :
  Str.isspace (Str.lower_char c) = Str.isspace c.
Proof. destruct c as [[] [] [] [] [] [] [] []]; reflexivity. Qed.

Lemma is_newline_lower_char (c : ascii) :
  is_newline (Str.lower_char c) = is_newline c.
Proof. destruct c as [[] [] [] [] [] [] [] []]; reflexivity. Qed.

Lemma is_decimal_not_space (c : ascii) :
  is_decimal c = true -> Str.isspace c = false.
Proof. destruct c as [[] [] [] [] [] [] [] []]; (reflexivity || discriminate). Qed.

Lemma prefix_nil (s : string) : String.prefix EmptyString s = true.
Proof. by destruct s. Qed.

(** A one-character separator matches at a position exactly when the
    character there is the separator. *)
Lemma prefix_char (a c : ascii) (r : string) :
  String.prefix (String a EmptyString) (String c r) = Ascii.eqb a c.
Proof.
  cbn [String.prefix]. destruct (ascii_dec a c) as [->|Hne].
  - by rewrite prefix_nil, Ascii.eqb_refl.
  - symmetry. by apply Ascii.eqb_neq.
Qed.

Lemma split_char_cons (a c : ascii) (r : string) :
  Str.split (String a EmptyString) (String c r) =
    if Ascii.eqb a c
    then EmptyString :: Str.split (String a EmptyString) r
    else Str.cons_head c (Str.split (String a EmptyString) r).
Proof.
  unfold Str.split. cbn [Str.split_from]. rewrite prefix_char.
  by destruct (Ascii.eqb a c).
Qed.

Lemma lower_nil_iff (s : string) : Str.lower s = EmptyString <-> s = EmptyString.
Proof. by destruct s. Qed.

Lemma lower_idem (s : string) : Str.lower (Str.lower s) = Str.lower s.
Proof.
  induction s as [|c s IH]; [reflexivity|].
  cbn [Str.lower]. by rewrite lower_char_idem, IH.
Qed.

Lemma lstrip_lower (s : string) :
  Str.lstrip (Str.lower s) = Str.lower (Str.lstrip s).
Proof.
  induction s as [|c s IH]; [reflexivity|].
  cbn [Str.lower Str.lstrip]. rewrite isspace_lower_char.
  by destruct (Str.isspace c).
Qed.

Lemma rstrip_lower (s : string) :
  Str.rstrip (Str.lower s) = Str.lower (Str.rstrip s).
Proof.
  induction s as [|c s IH]; [reflexivity|].
  cbn [Str.lower Str.rstrip]. rewrite IH, isspace_lower_char.
  destruct (Str.rstrip s); cbn [Str.lower]; [|reflexivity].
  by destruct (Str.isspace c).
Qed.

Lemma strip_lower (s : string) :
  Str.strip (Str.lower s) = Str.lower (Str.strip s).
Proof. unfold Str.strip. by rewrite lstrip_lower, rstrip_lower. Qed.

Lemma split_lines_lower (s : string) :
  Str.split Str.nl (Str.lower s) = Str.lower <$> Str.split Str.nl s.
Proof.
  unfold Str.nl.
  induction s as [|c s IH]; [reflexivity|].
  cbn [Str.lower]. rewrite !split_char_cons, IH.
  pose proof (is_newline_lower_char c) as Hnl. unfold is_newline in Hnl.
  rewrite (Ascii.eqb_sym _ (Str.lower_char c)), Hnl, (Ascii.eqb_sym c).
  destruct (Ascii.eqb _ c); [reflexivity|].
  by destruct (Str.split _ s).
Qed.

Lemma evaluation_lines_lower (s : string) :
  evaluation_lines (Str.lower s) = evaluation_lines s.
Proof.
  unfold evaluation_lines.
  rewrite strip_lower, split_lines_lower, <- list_fmap_compose.
  apply list_fmap_ext. intros _ line _. cbn. by rewrite lower_idem.
Qed.

(** Without the separator there is no second part. *)
Lemma split1_no_separator (sep s : string) :
  Str.contains sep s = false -> Str.split1 sep s = [s].
Proof.
  unfold Str.split1. intros Hno.
  assert (Str.split1_from sep s = (s, None)) as ->; [|reflexivity].
  induction s as [|c s IH]; [reflexivity|].
  cbn [Str.contains] in Hno. apply orb_false_iff in Hno as [Hp Hs].
  cbn [Str.split1_from]. rewrite Hp, (IH Hs). reflexivity.
Qed.

End CharFacts.

(* ===================================================================== *)
(** * Response parser: letter case and the explanation                    *)
(* ===================================================================== *)

Section ParserFurther.

Lemma parse_evaluation_lower (s : string) :
  parse_evaluation (PyStr (Str.lower s)) = parse_evaluation (PyStr s).
Proof.
  unfold parse_evaluation.
  assert (py_truthy (PyStr (Str.lower s)) = py_truthy (PyStr s)) as ->
    by (by destruct s).
  cbn [py_format]. by rewrite evaluation_lines_lower.
Qed.

(** X1.  [parse_evaluation] looks at a text through [str.lower] only: two
    texts of Latin-1 characters (the strings of this development) with the
    same lower-case form, [s.lower() == t.lower()], give the same score and
    the same explanation.  On these characters [str.lower] works character
    by character and keeps the length; nothing is said here of texts
    outside Latin-1, where it does not. *)
Theorem parse_evaluation_case_insensitive (s t : string) :
  Str.lower s = Str.lower t ->
  parse_evaluation (PyStr s) = parse_evaluation (PyStr t).
Proof.
  intros Hcase.
  rewrite <- (parse_evaluation_lower s), <- (parse_evaluation_lower t).
  by rewrite Hcase.
Qed.

Lemma parse_evaluation_case_insensitive_witness :
  Str.lower "SCORE: 1" = Str.lower "Score: 1" /\
  parse_evaluation (PyStr "SCORE: 1") = parse_evaluation (PyStr "Score: 1").
Proof.
  split; [reflexivity|].
  apply (parse_evaluation_case_insensitive "SCORE: 1" "Score: 1").
  reflexivity.
Defined.

Lemma parse_line_explanation (s e line : string) :
  (parse_line (s, e) line).2 = default e (accepted_explanation line).
Proof.
  unfold parse_line, accepted_explanation.
  destruct (Str.any_in EXPLANATION_KEYWORDS line); [|reflexivity].
  destruct (Str.split1 ":" line !! 1%nat); reflexivity.
Qed.

Lemma parse_lines_explanation (lines : list string) :
  forall s e,
    (fold_left parse_line lines (s, e)).2 = default e (last_explanation lines).
Proof.
  unfold last_explanation.
  induction lines as [|line lines IH]; intros s e; [reflexivity|].
  cbn [fold_left].
  destruct (parse_line (s, e) line) as [s' e'] eqn:Hstep.
  rewrite IH.
  assert (e' = default e (accepted_explanation line)) as ->
    by (rewrite <- parse_line_explanation with (s := s); by rewrite Hstep).
  cbn [omap list_omap].
  destruct (accepted_explanation line) as [d|]; [|reflexivity].
  cbn [default]. rewrite last_cons.
  destruct (last (omap accepted_explanation lines)); reflexivity.
Qed.

Lemma accepted_explanation_needs_colon (line : string) :
  Str.contains ":" line = false -> accepted_explanation line = None.
Proof.
  intros Hno. unfold accepted_explanation.
  destruct (Str.any_in EXPLANATION_KEYWORDS line); [|reflexivity].
  by rewrite (split1_no_separator ":" line Hno).
Qed.

(** X2.  The explanation [parse_evaluation] returns is taken from the last
    line that holds an explanation keyword and a colon: it is what follows
    that line's first colon, stripped and capitalized.  A keyword line
    without a colon changes nothing, and when the text is empty or [None] or
    no line qualifies the explanation is the default text.  For a true
    value that is no text the explanation names the fault of parsing. *)
Theorem parse_evaluation_explanation (evaluation_text : pyval) :
  (parse_evaluation evaluation_text).2 =
    (if py_truthy evaluation_text
     then match strip_fault evaluation_text with
          | Some e => "Error in evaluation parsing: " +:+ exn_msg e
          | None =>
              default DEFAULT_EXPLANATION
                (last_explanation (evaluation_lines (py_format evaluation_text)))
          end
     else DEFAULT_EXPLANATION) /\
  (forall line, Str.contains ":" line = false ->
     accepted_explanation line = None) /\
  (forall before line after,
     Forall (fun l => Str.contains ":" l = false) after ->
     Str.any_in EXPLANATION_KEYWORDS line = true ->
     Str.contains ":" line = true ->
     exists head rest,
       Str.split1 ":" line = [head; rest] /\
       last_explanation (before ++ line :: after) =
         Some (if negb (String.eqb (Str.strip rest) EmptyString)
               then Str.capitalize (Str.strip rest) else Str.strip rest)).
Proof.
  split; [|split].
  - unfold parse_evaluation.
    destruct (py_truthy evaluation_text); [|reflexivity].
    cbn [negb].
    destruct (strip_fault evaluation_text); [reflexivity|].
    pose proof (parse_lines_explanation
                  (evaluation_lines (py_format evaluation_text))
                  DEFAULT_SCORE DEFAULT_EXPLANATION) as Hlast.
    destruct (fold_left parse_line _ _) as [s e].
    exact Hlast.
  - apply accepted_explanation_needs_colon.
  - intros before line after Hafter Hkey Hcolon.
    assert (exists h rest, Str.split1 ":" line = [h; rest]) as (h & rest & Hsplit).
    { unfold Str.split1.
      destruct (Str.split1_from ":" line) as [h [rest|]] eqn:Hs; [by eauto|].
      exfalso. clear -Hs Hcolon. revert h Hs.
      induction line as [|c line IH]; intros h Hs; [discriminate|].
      cbn [Str.contains] in Hcolon. cbn [Str.split1_from] in Hs.
      destruct (String.prefix ":" (String c line)); [discriminate|].
      destruct (Str.split1_from ":" line) as [h' t'] eqn:Hs'.
      injection Hs as <- ->. by eapply IH. }
    exists h, rest. split; [exact Hsplit|].
    unfold last_explanation. rewrite omap_app. cbn [omap list_omap].
    assert (omap accepted_explanation after = []) as ->.
    { clear -Hafter. induction Hafter as [|l ls Hl _ IH]; [reflexivity|].
      cbn [omap list_omap].
      by rewrite (accepted_explanation_needs_colon l Hl). }
    unfold accepted_explanation at 2. rewrite Hkey, Hsplit. cbn [lookup list_lookup].
    by rewrite last_snoc.
Qed.

End ParserFurther.

(* ===================================================================== *)
(** * Batch evaluator: batches, schedules, calls and progress             *)
(* ===================================================================== *)

Section SliceFacts.
Context {A : Type}.
Implicit Types (l : list A).

(** The slices [l[i:i+step]] taken at [m*step], [(m+1)*step], ... put
    together are one slice of [l]. *)
Lemma concat_slices l (step cnt m : nat) :
  concat ((fun i => take step (drop i l))
            <$> ((fun k => (k * step)%nat) <$> seq m cnt))
  = take (cnt * step) (drop (m * step) l).
Proof.
  revert m. induction cnt as [|cnt IH]; intros m; [reflexivity|].
  cbn [seq fmap list_fmap concat]. fold (@fmap list _ nat nat).
  change (list_fmap nat nat ?f ?x) with (f <$> x).
  change (list_fmap nat (list A) ?f ?x) with (f <$> x).
  rewrite IH.
  replace (S m * step)%nat with (m * step + step)%nat by lia.
  rewrite <- drop_drop.
  replace (S cnt * step)%nat with (step + cnt * step)%nat by lia.
  by rewrite take_take_drop.
Qed.

Lemma concat_slices_all l (step : nat) :
  (0 < step)%nat ->
  concat ((fun i => take step (drop i l)) <$> py_range (length l) step) = l.
Proof.
  intros Hstep. unfold py_range. rewrite concat_slices.
  rewrite drop_0. apply take_ge. by apply py_range_covers.
Qed.

Lemma py_range_elem (n step i : nat) :
  (0 < step)%nat -> i ∈ py_range n step ->
  (i < n)%nat /\ (i mod step = 0)%nat.
Proof.
  intros Hstep Hi. unfold py_range in Hi.
  apply list_elem_of_fmap in Hi as (k & -> & Hk).
  apply elem_of_seq in Hk as [_ Hk]. cbn in Hk.
  split; [|by apply Nat.Div0.mod_mul].
  pose proof (Nat.div_mod_eq (n + step - 1) step) as Hdm.
  pose proof (Nat.mod_upper_bound (n + step - 1) step) as Hmod.
  nia.
Qed.

End SliceFacts.

Section MeasureFacts.
Context {W R : Type}.
Variable m : W -> nat.
Variables lo hi : nat.



End MeasureFacts.

Section BatchFurther.
Context {W : Type}.
Variable rag_query_fn : string -> W -> outcome pyval * W.
Variable evaluator_model : string -> W -> outcome pyval * W.

Abbreviation process := (process_question rag_query_fn evaluator_model).




(** For collaborators whose answers do not depend on their state, an
    evaluation does not depend on the state it runs in. *)
Lemma process_question_stateless (r : row) (w w' : W) :
  (forall q w w', (rag_query_fn q w).1 = (rag_query_fn q w').1) ->
  (forall p w w', (evaluator_model p w).1 = (evaluator_model p w').1) ->
  (process r w).1 = (process r w').1.
Proof.
  intros Hrag Hjudge. unfold process_question.
  pose proof (Hrag (row_question r) w w') as H1.
  destruct (rag_query_fn _ w) as [o1 w1], (rag_query_fn _ w') as [o1' w1'].
  cbn [fst] in H1. subst o1'. destruct o1 as [response|e]; [|reflexivity].
  pose proof (Hjudge (eval_prompt r response) w1 w1') as H2.
  destruct (evaluator_model _ w1) as [o2 w2], (evaluator_model _ w1') as [o2' w2'].
  cbn [fst] in H2. subst o2'. destruct o2 as [evaluation|e]; [|reflexivity].
  by destruct (parse_evaluation evaluation).
Qed.

(** X4.  When the answers of the RAG function and of the judge do not
    depend on their state (on the calls made before), the list
    [evaluate_batch] returns is the same for every batch size of at least 1,
    every completion order, every progress bar and every starting state. *)
Theorem evaluate_batch_schedule_independent
    (questions : list row) (batch_size batch_size' : Z)
    (pbar pbar' : option tqdm) (sched_of sched_of' : nat -> list nat) (w w' : W) :
  (forall q w w', (rag_query_fn q w).1 = (rag_query_fn q w').1) ->
  (forall p w w', (evaluator_model p w).1 = (evaluator_model p w').1) ->
  1 <= batch_size -> 1 <= batch_size' ->
  (evaluate_batch rag_query_fn evaluator_model questions batch_size pbar
                  sched_of w).1.1
  = (evaluate_batch rag_query_fn evaluator_model questions batch_size' pbar'
                    sched_of' w').1.1.
Proof.
  intros Hrag Hjudge Hb Hb'.
  assert (forall B pb sc w0, 1 <= B ->
            (evaluate_batch rag_query_fn evaluator_model questions B pb sc w0).1.1
            = Ret ((fun r => (process r w).1) <$> questions)) as Hsame.
  { intros B pb sc w0 HB.
    destruct (evaluate_batch_evaluated rag_query_fn evaluator_model questions
                B pb sc w0 HB) as (results & pb' & w1 & -> & Hall).
    cbn [fst]. f_equal. clear -Hall Hrag Hjudge.
    induction Hall as [|r res rs ress [wi ->] _ IH]; [reflexivity|].
    cbn [fmap list_fmap]. f_equal; [|exact IH].
    by apply process_question_stateless. }
  by rewrite !Hsame.
Qed.

(** X5.  The loop cuts the questions into consecutive batches: put together
    in order the batches are the question list, every batch holds at least
    one and at most [batch_size] questions, and there are
    [ceil(len(questions) / batch_size)] of them. *)
Theorem batches_partition_questions (questions : list row) (step : nat) :
  (1 <= step)%nat ->
  concat ((fun i => take step (drop i questions))
            <$> py_range (length questions) step) = questions /\
  Forall (fun i => (1 <= length (take step (drop i questions)) <= step)%nat)
         (py_range (length questions) step) /\
  length (py_range (length questions) step)
  = batch_count (length questions) step.
Proof.
  intros Hstep. split; [by apply concat_slices_all|]. split.
  - apply Forall_forall. intros i Hi.
    apply py_range_elem in Hi as [Hi _]; [|lia].
    rewrite length_take, length_drop. lia.
  - unfold py_range, batch_count. by rewrite length_fmap, length_seq.
Qed.

End BatchFurther.


Lemma evaluate_batch_schedule_independent_witness :
  1 <= 1 /\ 1 <= 3 /\
  (evaluate_batch Further.rag_pure Further.judge_pure Sample.questions 1 None
     (fun _ => []) tt).1.1
  = (evaluate_batch Further.rag_pure Further.judge_pure Sample.questions 3 None
       Sample.sched_of tt).1.1.
Proof.
  split; [lia|]. split; [lia|].
  apply (evaluate_batch_schedule_independent Further.rag_pure Further.judge_pure
           Sample.questions 1 3 None None (fun _ => []) Sample.sched_of tt tt);
    [reflexivity | reflexivity | lia | lia].
Defined.

Lemma batches_partition_questions_witness :
  (1 <= 2)%nat /\
  concat ((fun i => take 2 (drop i Sample.questions))
            <$> py_range (length Sample.questions) 2) = Sample.questions.
Proof.
  split; [lia|].
  exact (proj1 (batches_partition_questions Sample.questions 2 ltac:(lia))).
Defined.

(* ===================================================================== *)
(** * Batch evaluator: the progress bar                                   *)
(* ===================================================================== *)

Section ProgressFacts.
Context {W : Type}.
Variable rag_query_fn : string -> W -> outcome pyval * W.
Variable evaluator_model : string -> W -> outcome pyval * W.

(** The bar after the loop does not depend on the evaluations. *)
Lemma batch_loop_pbar questions step sched_of :
  forall starts results pbar w,
    (batch_loop rag_query_fn evaluator_model questions step sched_of
       starts results pbar w).1.2
    = fold_left (fun pb i => pbar_progress questions step pb i
                               (length (take step (drop i questions))))
                starts pbar.
Proof.
  induction starts as [|i starts IH]; intros results pbar w; [reflexivity|].
  cbn [batch_loop fold_left].
  destruct (gather _ _ w) as [batch_results w']. apply IH.
Qed.

Lemma pbar_fold_falsy questions step (starts : list nat) (pbar : option tqdm) :
  pbar_truthy pbar = false ->
  fold_left (fun pb i => pbar_progress questions step pb i
                           (length (take step (drop i questions))))
            starts pbar = pbar.
Proof.
  intros Hfalse. induction starts as [|i starts IH]; [reflexivity|].
  cbn [fold_left]. unfold pbar_progress at 2. rewrite Hfalse. exact IH.
Qed.

Lemma pbar_fold_truthy questions step (starts : list nat) :
  forall bar,
    (0 < total bar)%nat ->
    fold_left (fun pb i => pbar_progress questions step pb i
                             (length (take step (drop i questions))))
              starts (Some bar)
    = Some (Tqdm (total bar)
                 (counted bar
                  + length (concat ((fun i => take step (drop i questions))
                                      <$> starts)))
                 (match last starts with
                  | Some i => batch_description questions step i
                  | None => desc bar
                  end)
                 (closed bar)).
Proof.
  induction starts as [|i starts IH]; intros bar Hbar.
  - cbn. rewrite Nat.add_0_r. by destruct bar.
  - cbn [fold_left]. unfold pbar_progress at 2. unfold pbar_truthy.
    assert ((0 <? total bar)%nat = true) as -> by (by apply Nat.ltb_lt).
    cbn [fmap option_fmap option_map].
    rewrite IH by exact Hbar. cbn [total counted desc closed].
    cbn [fmap list_fmap concat].
    change (list_fmap nat (list row) ?f ?x) with (f <$> x).
    rewrite length_app, last_cons.
    f_equal. f_equal; [lia|]. by destruct (last starts).
Qed.

Lemma last_py_range (n step : nat) :
  (0 < step)%nat -> (0 < n)%nat ->
  last (py_range n step) = Some ((batch_count n step - 1) * step)%nat.
Proof.
  intros Hstep Hn. unfold py_range. fold (batch_count n step).
  assert (0 < batch_count n step)%nat as Hcnt.
  { unfold batch_count. apply Nat.div_str_pos. lia. }
  destruct (batch_count n step) as [|cnt]; [lia|].
  rewrite seq_S, fmap_app. cbn [fmap list_fmap]. rewrite last_snoc.
  f_equal. lia.
Qed.

(** X6.  A progress bar whose total is positive ends the run advanced by
    the number of questions, with the description "Processing batch k/t"
    where k is the number of batches and t is
    [len(questions) // batch_size + 1]: t equals k unless [batch_size]
    divides the number of questions, and then t is k + 1, a batch that
    never comes.  A bar whose total is 0, or no bar, is left as it is. *)
Theorem evaluate_batch_progress
    (questions : list row) (batch_size : Z) (pbar : option tqdm)
    (sched_of : nat -> list nat) (w : W) :
  1 <= batch_size ->
  let n := length questions in
  let step := Z.to_nat batch_size in
  let after := (evaluate_batch rag_query_fn evaluator_model questions batch_size
                  pbar sched_of w).1.2 in
  (pbar_truthy pbar = false -> after = pbar) /\
  (forall bar, pbar = Some bar -> (0 < total bar)%nat -> (0 < n)%nat ->
     after = Some (Tqdm (total bar) (counted bar + n)
                     ("Processing batch "
                      +:+ pretty (N.of_nat (batch_count n step)) +:+ "/"
                      +:+ pretty (N.of_nat (n / step + 1)))
                     (closed bar))) /\
  ((n mod step = 0)%nat -> (n / step + 1 = batch_count n step + 1)%nat) /\
  ((n mod step <> 0)%nat -> (n / step + 1 = batch_count n step)%nat).
Proof.
  intros Hb n step after.
  assert (0 < step)%nat as Hstep by (subst step; lia).
  assert (after = fold_left
            (fun pb i => pbar_progress questions step pb i
                           (length (take step (drop i questions))))
            (py_range n step) pbar) as Hafter.
  { subst after. unfold evaluate_batch.
    destruct (Z.eqb_spec batch_size 0) as [|_]; [lia|].
    destruct (Z.ltb_spec batch_size 0) as [|_]; [lia|].
    pose proof (batch_loop_pbar questions step sched_of (py_range n step) []
                  pbar w) as H.
    fold step. fold n.
    destruct (batch_loop _ _ _ _ _ _ _ _ _) as [[results pbar'] w'].
    exact H. }
  split; [|split; [|split]].
  - intros Hfalse. rewrite Hafter. by apply pbar_fold_falsy.
  - intros bar -> Hbar Hn. rewrite Hafter, pbar_fold_truthy by exact Hbar.
    subst n. rewrite (concat_slices_all questions step Hstep).
    rewrite last_py_range by assumption.
    unfold batch_description.
    assert (0 < batch_count (length questions) step)%nat as Hcnt.
    { unfold batch_count. apply Nat.div_str_pos. lia. }
    rewrite Nat.div_mul by lia.
    replace (batch_count (length questions) step - 1 + 1)%nat
      with (batch_count (length questions) step) by lia.
    reflexivity.
  - intros Hmod. unfold batch_count.
    pose proof (Nat.div_mod_eq n step) as Hdm. rewrite Hmod in Hdm.
    replace (n + step - 1)%nat with (n / step * step + (step - 1))%nat by lia.
    rewrite Nat.div_add_l by lia.
    rewrite (Nat.div_small (step - 1) step) by lia. lia.
  - intros Hmod. unfold batch_count.
    pose proof (Nat.div_mod_eq n step) as Hdm.
    pose proof (Nat.mod_upper_bound n step ltac:(lia)) as Hlt.
    replace (n + step - 1)%nat
      with ((n / step + 1) * step + (n mod step - 1))%nat by lia.
    rewrite Nat.div_add_l by lia.
    rewrite (Nat.div_small (n mod step - 1) step) by lia. lia.
Qed.

End ProgressFacts.

Lemma evaluate_batch_progress_witness :
  1 <= 2 /\
  (evaluate_batch Further.rag Further.judge (Sample.questions ++ [Sample.q1]) 2
     (Some Further.tqdm0) Sample.sched_of (0, 0)%nat).1.2
  = Some (Tqdm 3 4 "Processing batch 2/3" false).
Proof.
  split; [lia|].
  destruct (evaluate_batch_progress Further.rag Further.judge
              (Sample.questions ++ [Sample.q1]) 2 (Some Further.tqdm0)
              Sample.sched_of (0, 0)%nat ltac:(lia)) as (_ & H & _).
  rewrite (H Further.tqdm0 eq_refl ltac:(cbn; lia) ltac:(cbn; lia)).
  reflexivity.
Defined.

(* ===================================================================== *)
(** * Aggregator and reporter: bounds, faults and the report              *)
(* ===================================================================== *)

Section AverageFurther.

Lemma Qle_inject (x y : Z) : x <= y -> (inject_Z x <= inject_Z y)%Q.
Proof. intros H. by rewrite <- Zle_Qle. Qed.

(** X7.  Whatever the scores are, the average lies between 0 and 100; it is
    0 when no result is scored 1 and 100 when at least one result is scored
    1 and none is scored 0. *)
Theorem average_of_bounds (results : list result) :
  (0 <= average_of results <= inject_Z 100)%Q /\
  (count_score "1" results = 0 -> (average_of results == 0)%Q) /\
  (count_score "0" results = 0 -> 0 < count_score "1" results ->
   (average_of results == inject_Z 100)%Q).
Proof.
  rewrite average_of_counts.
  pose proof (count_score_nonneg "0" results) as H0.
  pose proof (count_score_nonneg "1" results) as H1.
  set (zero := count_score "0" results) in *.
  set (ones := count_score "1" results) in *.
  destruct (Z.eqb_spec (zero + ones) 0) as [E|E].
  - split; [|split].
    + split; [apply Qle_refl|]. by apply (Qle_inject 0 100).
    + reflexivity.
    + intros ? ?. lia.
  - split; [|split].
    + apply percent_bounds; lia.
    + intros ->. reflexivity.
    + intros -> Hones. rewrite Z.add_0_l. apply percent_all. exact Hones.
Qed.

End AverageFurther.

Section ReporterFurther.
Context {W : Type}.
Variable rag_query_fn : string -> W -> outcome pyval * W.
Variable evaluator_model : string -> W -> outcome pyval * W.

(** Every entry [process_question] makes is scored 0 or 1. *)
Lemma evaluated_valid_score (r : row) (res : result) :
  evaluated rag_query_fn evaluator_model r res ->
  is_valid_score (score res) = true.
Proof.
  intros [w ->]. unfold process_question.
  destruct (rag_query_fn _ w) as [[response|e] w1]; [|reflexivity].
  destruct (evaluator_model _ w1) as [[evaluation|e] w2]; [|reflexivity].
  pose proof (parse_evaluation_last_accepted evaluation) as [_ Hvalid].
  by destruct (parse_evaluation evaluation).
Qed.

Lemma count_valid_all (results : list result) :
  Forall (fun res => is_valid_score (score res) = true) results ->
  count_score "0" results + count_score "1" results = Z.of_nat (length results).
Proof.
  induction 1 as [|res results Hres _ IH]; [reflexivity|].
  rewrite !count_score_cons, length_cons.
  destruct (valid_score_cases _ Hres) as [-> | ->]; cbn; lia.
Qed.


(** What a returning run has read, written and computed. *)
Lemma evaluate_rag_system_returns
    (test_set_path : string) (output_path : option string) (batch_size : Z)
    (num_tests : option Z) (sched_of : nat -> list nat) (w : world W)
    (average : Q) (w' : world W) :
  evaluate_rag_system rag_query_fn evaluator_model test_set_path output_path
                      batch_size num_tests sched_of w = (Ret average, w') ->
  exists rows results,
    fs w !! test_set_path = Some (TestSetFile rows) /\
    fs w' !! report_path output_path (now w)
      = Some (ReportFile (Some result_keys) results) /\
    Forall2 (evaluated rag_query_fn evaluator_model)
            (head_rows num_tests rows) results /\
    results <> [] /\ average = average_of results /\
    1 <= batch_size /\ (forall k, num_tests = Some k -> 1 <= k).
Proof.
  unfold evaluate_rag_system. intros Hrun.
  destruct (path_exists (fs w) test_set_path); cbn [negb] in Hrun; [|discriminate].
  destruct (Z.ltb_spec batch_size 1) as [Hlt|Hge]; [discriminate|].
  destruct (match num_tests with Some k => k <? 1 | None => false end) eqn:Hnum;
    [discriminate|].
  unfold read_csv in Hrun.
  destruct (fs w !! test_set_path) as [[|rows|]|] eqn:Hfile; try discriminate.
  destruct (run_and_report_cases rag_query_fn evaluator_model
              (head_rows num_tests rows) output_path
              batch_size sched_of w Hge) as (results & pbar' & x & _ & Hall & Hcases).
  rewrite Hcases in Hrun.
  destruct (path_exists (fs w) "results" || negb (refused w "results"));
    [|discriminate].
  destruct (refused w (report_path output_path (now w))); [discriminate|].
  destruct results as [|res results]; [discriminate|].
  injection Hrun as <- <-.
  exists rows, (res :: results). cbn [fs].
  split; [reflexivity|]. split; [apply lookup_insert_eq|].
  split; [exact Hall|]. split; [discriminate|]. split; [reflexivity|].
  split; [exact Hge|].
  intros k ->. apply Z.ltb_ge in Hnum. lia.
Qed.

(** X9.  A run that returns has written one report entry for each of the
    first [num_tests] records of the test set (for each record when
    [num_tests] is absent), in the order of the test set: the [i]-th entry
    is the evaluation of the [i]-th record and carries its id, number,
    question, expected answer and source file. *)
Theorem report_follows_test_set
    (test_set_path : string) (output_path : option string) (batch_size : Z)
    (num_tests : option Z) (sched_of : nat -> list nat) (w : world W)
    (average : Q) (w' : world W) :
  evaluate_rag_system rag_query_fn evaluator_model test_set_path output_path
                      batch_size num_tests sched_of w = (Ret average, w') ->
  exists rows results,
    fs w !! test_set_path = Some (TestSetFile rows) /\
    fs w' !! report_path output_path (now w)
      = Some (ReportFile (Some result_keys) results) /\
    length results
    = match num_tests with
      | Some k => Nat.min (Z.to_nat k) (length rows)
      | None => length rows
      end /\
    (0 < length results)%nat /\
    forall i res, results !! i = Some res ->
      exists r, rows !! i = Some r /\ answers r res /\
                evaluated rag_query_fn evaluator_model r res.
Proof.
  intros Hrun.
  destruct (evaluate_rag_system_returns _ _ _ _ _ _ _ _ Hrun)
    as (rows & results & Hfile & Hreport & Hall & Hne & _ & _ & _).
  exists rows, results. split; [exact Hfile|]. split; [exact Hreport|].
  split; [|split].
  - apply Forall2_length in Hall. rewrite <- Hall.
    destruct num_tests as [k|]; [|reflexivity].
    cbn [head_rows]. by rewrite length_take.
  - destruct results; [done | cbn; lia].
  - intros i res Hi.
    destruct (Forall2_lookup_r _ _ _ _ _ Hall Hi) as (r & Hr & Hev).
    exists r. split; [|split; [|exact Hev]].
    + destruct num_tests as [k|]; [|exact Hr].
      cbn [head_rows] in Hr. by apply lookup_take_Some in Hr as [Hr _].
    + destruct Hev as [wi ->]. apply process_question_answers.
Qed.

(** X10.  In a run every entry is scored 0 or 1, so no entry is left out of
    the average: the value returned is [(ones / entries) * 100] computed in
    binary64, where [ones] counts the entries scored 1 and [entries] all of
    them; it lies within [2 ^ -45] of [100 * ones / entries] and between 0
    and 100. *)
Theorem run_average_counts_every_entry
    (test_set_path : string) (output_path : option string) (batch_size : Z)
    (num_tests : option Z) (sched_of : nat -> list nat) (w : world W)
    (average : Q) (w' : world W) :
  evaluate_rag_system rag_query_fn evaluator_model test_set_path output_path
                      batch_size num_tests sched_of w = (Ret average, w') ->
  exists results,
    fs w' !! report_path output_path (now w)
      = Some (ReportFile (Some result_keys) results) /\
    Forall (fun res => score res = "0" \/ score res = "1") results /\
    average
    = Binary64.mul
        (Binary64.truediv (count_score "1" results) (Z.of_nat (length results)))
        100 /\
    (Qabs (average - inject_Z 100 * inject_Z (count_score "1" results)
                     / inject_Z (Z.of_nat (length results)))
     <= 1 # 2 ^ 45)%Q /\
    (0 <= average <= inject_Z 100)%Q.
Proof.
  intros Hrun.
  destruct (evaluate_rag_system_returns _ _ _ _ _ _ _ _ Hrun)
    as (rows & results & _ & Hreport & Hall & Hne & -> & _ & _).
  exists results. split; [exact Hreport|].
  assert (Forall (fun res => is_valid_score (score res) = true) results) as Hvalid.
  { apply Forall_forall. intros res Hin.
    apply list_elem_of_lookup in Hin as [i Hi].
    destruct (Forall2_lookup_r _ _ _ _ _ Hall Hi) as (r & _ & Hev).
    by eapply evaluated_valid_score. }
  pose proof (count_valid_all results Hvalid) as Hsum.
  pose proof (count_score_nonneg "1" results) as H1.
  pose proof (count_score_nonneg "0" results) as H0.
  assert (0 < Z.of_nat (length results)) as Hlen
    by (destruct results; [done | cbn; lia]).
  rewrite average_of_counts, Hsum.
  destruct (Z.eqb_spec (Z.of_nat (length results)) 0) as [E|_]; [lia|].
  split; [|split; [reflexivity|split]].
  - eapply Forall_impl; [exact Hvalid|]. intros res. apply valid_score_cases.
  - apply percent_near; lia.
  - apply percent_bounds; lia.
Qed.

End ReporterFurther.


Lemma report_follows_test_set_witness :
  let run := evaluate_rag_system Sample.rag Sample.judge "data/test.csv"
               (Some "out.csv") 2 (Some 2) Sample.sched_of Sample.world0 in
  run.1 = Ret 50%Q /\
  exists rows results,
    fs Sample.world0 !! "data/test.csv" = Some (TestSetFile rows) /\
    fs run.2 !! "results/out.csv" = Some (ReportFile (Some result_keys) results) /\
    length results = Nat.min 2 (length rows).
Proof.
  intros run. split; [reflexivity|].
  destruct (report_follows_test_set Sample.rag Sample.judge "data/test.csv"
              (Some "out.csv") 2 (Some 2) Sample.sched_of Sample.world0
              50%Q run.2 eq_refl)
    as (rows & results & Hfile & Hreport & Hlen & _).
  exists rows, results. split; [exact Hfile|]. split; [exact Hreport|exact Hlen].
Defined.

Lemma run_average_counts_every_entry_witness :
  let run := evaluate_rag_system Sample.rag Sample.judge "data/test.csv"
               (Some "out.csv") 2 (Some 2) Sample.sched_of Sample.world0 in
  run.1 = Ret 50%Q /\ (0 <= 50 <= inject_Z 100)%Q.
Proof.
  intros run. split; [reflexivity|].
  destruct (run_average_counts_every_entry Sample.rag Sample.judge
              "data/test.csv" (Some "out.csv") 2 (Some 2) Sample.sched_of
              Sample.world0 50%Q run.2 eq_refl)
    as (results & _ & _ & _ & _ & Hbounds).
  exact Hbounds.
Defined.

(* ===================================================================== *)
(** * Rate-limited caller: every way [create_tests] can end               *)
(* ===================================================================== *)

Section RetryFurther.

Lemma sleep_on_cases (fault : nat -> pyfloat -> option exn) (secs : pyfloat)
    (st : caller_state) :
  (fault (invocations st) secs = None /\
   sleep_on fault secs st
   = Ret (CallerState (invocations st) (sleeps st ++ [secs]))) \/
  (exists e, fault (invocations st) secs = Some e /\
             sleep_on fault secs st = Raise e).
Proof.
  unfold sleep_on. destruct (fault (invocations st) secs) as [e|];
    [right; by exists e | by left].
Qed.

(** The documented checks are one of the platforms. *)
Lemma time_sleep_documented (secs : pyfloat) (st : caller_state) :
  time_sleep secs st = sleep_on documented_fault secs st.
Proof.
  unfold sleep_on, documented_fault.
  destruct secs as [q| |]; cbn [time_sleep]; [|reflexivity|reflexivity].
  destruct (negb (Qle_bool 0 q)); [reflexivity|].
  by destruct (Qle_bool _ _).
Qed.

Lemma retry_loop_documented (invoke : nat -> outcome string) (remaining : nat) :
  forall retry_delay st,
    retry_loop time_sleep invoke remaining retry_delay st
    = retry_loop (sleep_on documented_fault) invoke remaining retry_delay st.
Proof.
  induction remaining as [|remaining IH]; intros retry_delay st; [reflexivity|].
  cbn [retry_loop]. destruct (invoke (invocations st)) as [v|e]; [reflexivity|].
  rewrite !time_sleep_documented.
  destruct (Str.contains "rate_limit_exceeded" (exn_msg e));
    destruct (sleep_on documented_fault _ _); by rewrite ?IH.
Qed.

(** [time.sleep] accepts every back-off delay the loop can reach. *)
Lemma backoff_delay_accepted (retry_delay : Z) :
  0 <= retry_delay <= 64 -> sleep_accepts (PyFloat.of_Z retry_delay) = true.
Proof.
  intros [H0 H64]. cbn [sleep_accepts PyFloat.of_Z].
  apply andb_true_iff. split; apply Qle_bool_iff.
  - by apply (Qle_inject 0).
  - rewrite <- inject_Z_mult. apply Qle_inject. lia.
Qed.

Lemma retry_loop_outcomes (fault : nat -> pyfloat -> option exn)
    (invoke : nat -> outcome string) (remaining : nat) :
  forall retry_delay st,
    retry_outcome fault invoke (invocations st) (length (sleeps st)) remaining
      (retry_loop (sleep_on fault) invoke remaining retry_delay st).1
      (retry_loop (sleep_on fault) invoke remaining retry_delay st).2.
Proof.
  induction remaining as [|remaining IH]; intros retry_delay st.
  { unfold retry_outcome. cbn [retry_loop fst snd].
    split; [lia|]. split; [intros k ?; lia|]. left. repeat split; lia. }
  cbn [retry_loop].
  destruct (invoke (invocations st)) as [v|e0] eqn:Hcall.
  { unfold retry_outcome. cbn [fst snd invocations sleeps].
    split; [lia|]. split; [lia|].
    split; [by rewrite Nat.sub_succ, Nat.sub_0_r|].
    split; [intros k ?; lia | lia]. }
  set (called := CallerState (S (invocations st)) (sleeps st)).
  assert (forall delay' wait,
            retry_outcome fault invoke (invocations st) (length (sleeps st))
              (S remaining)
              (retry_loop (sleep_on fault) invoke remaining delay'
                 (CallerState (S (invocations st)) (sleeps st ++ [wait]))).1
              (retry_loop (sleep_on fault) invoke remaining delay'
                 (CallerState (S (invocations st)) (sleeps st ++ [wait]))).2)
    as Hnext.
  { intros delay' wait.
    specialize (IH delay' (CallerState (S (invocations st)) (sleeps st ++ [wait]))).
    cbn [invocations sleeps] in IH. rewrite length_app in IH. cbn [length] in IH.
    destruct (retry_loop (sleep_on fault) invoke remaining delay' _) as [r st'].
    cbn [fst snd] in *. unfold retry_outcome in *. cbn zeta in *.
    destruct IH as [Hcalls IH]. split; [lia|].
    destruct r as [v|e].
    - destruct IH as (Hlt & Hv & Hall & Hlen).
      split; [lia|]. split; [exact Hv|]. split; [|lia].
      intros k Hk. destruct (decide (k = invocations st)) as [->|Hne];
        [by eexists | apply Hall; lia].
    - destruct IH as (Hall & Hend). split.
      + intros k Hk. destruct (decide (k = invocations st)) as [->|Hne];
          [by eexists | apply Hall; lia].
      + destruct Hend as [(-> & Hc & Hlen) | (Hlt & Hfault & Hlen)].
        * left. repeat split; lia.
        * right. split; [lia|]. split; [exact Hfault | lia]. }
  assert (forall wait e',
            fault (invocations called) wait = Some e' ->
            retry_outcome fault invoke (invocations st) (length (sleeps st))
              (S remaining) (Raise e') called) as Hrefused.
  { intros wait e' Hfault. unfold retry_outcome.
    cbn [invocations sleeps called] in *.
    split; [lia|]. split.
    - intros k Hk. assert (k = invocations st) as -> by lia. by eexists.
    - right. split; [lia|]. split; [by exists wait | lia]. }
  destruct (Str.contains "rate_limit_exceeded" (exn_msg e0)).
  - destruct (sleep_on_cases fault (rate_limit_wait (exn_msg e0)) called)
      as [[_ ->] | (e' & Hfault & ->)]; [apply Hnext | by eapply Hrefused].
  - destruct (sleep_on_cases fault (PyFloat.of_Z retry_delay) called)
      as [[_ ->] | (e' & Hfault & ->)]; [apply Hnext | by eapply Hrefused].
Qed.

(** X11.  Whatever [time.sleep] does on the platform, [create_tests] makes at
    least one and at most 5 calls and ends in one of three ways.  It returns
    the response of the first call that succeeds, having slept once after
    each failed call before it.  Or all 5 calls fail, each followed by a
    sleep, and it raises the terminal error.  Or [time.sleep] raises on the
    wait after a failed call (a rate-limit message may suggest a negative
    wait, one that is not a number, or one too large for the clock): that
    exception leaves [create_tests] at once, without further attempts.
    ([retry_outcome] spells the three cases out; [create_tests] with the
    documented checks of [time.sleep] is one instance.) *)
Theorem create_tests_outcomes
    (fault : nat -> pyfloat -> option exn)
    (chain : string -> string -> Z -> nat -> outcome string)
    (context id : string) (num_tests : Z) :
  let run := create_tests_on (sleep_on fault) chain context id num_tests
               caller_init in
  retry_outcome fault (chain context id num_tests) 0 0 5 run.1 run.2 /\
  (1 <= invocations run.2 <= 5)%nat /\
  create_tests chain context id num_tests caller_init
  = create_tests_on (sleep_on documented_fault) chain context id num_tests
      caller_init.
Proof.
  intros run. subst run.
  pose proof (retry_loop_outcomes fault (chain context id num_tests) 5 2
                caller_init) as H.
  split; [exact H|]. split; [|apply retry_loop_documented].
  unfold create_tests_on, max_retries, initial_retry_delay.
  unfold retry_outcome in H. cbn zeta in H. cbn [invocations caller_init] in H.
  destruct H as [Hcalls H]. split; [|lia].
  destruct (retry_loop _ _ _ _ _).1 as [v|e].
  - lia.
  - destruct H as (_ & [(_ & -> & _) | (Hlt & _)]); lia.
Qed.

Lemma ordinary_before_succ (message : nat -> string) (k : nat) :
  ordinary_before message (S k)
  = (ordinary_before message k
     + if is_rate_limit (message k) then 0 else 1)%nat.
Proof.
  unfold ordinary_before. rewrite seq_S, List.filter_app, length_app.
  cbn [List.filter Nat.add]. by destruct (is_rate_limit (message k)).
Qed.

Lemma delay_before_succ (message : nat -> string) (k : nat) :
  delay_before message (S k) = next_delay (message k) (delay_before message k).
Proof.
  unfold delay_before, next_delay. rewrite ordinary_before_succ.
  destruct (is_rate_limit (message k)).
  - by rewrite Nat.add_0_r.
  - rewrite Nat2Z.inj_add, Z.pow_add_r by lia. cbn. lia.
Qed.

Lemma retry_loop_all_fail (invoke : nat -> outcome string) (e : nat -> exn)
    (remaining : nat) :
  (forall k, invoke k = Raise (e k)) ->
  forall st,
    (forall k, (invocations st <= k < invocations st + remaining)%nat ->
               sleep_accepts
                 (wait_for (exn_msg (e k))
                    (delay_before (fun j => exn_msg (e j)) k)) = true) ->
    retry_loop time_sleep invoke remaining
      (delay_before (fun j => exn_msg (e j)) (invocations st)) st
    = (Raise terminal_error,
       CallerState (invocations st + remaining)
         (sleeps st
          ++ ((fun k => wait_for (exn_msg (e k))
                          (delay_before (fun j => exn_msg (e j)) k))
                <$> seq (invocations st) remaining))).
Proof.
  intros Hfail.
  induction remaining as [|remaining IH]; intros st Hacc.
  { cbn. rewrite Nat.add_0_r, app_nil_r. by destruct st. }
  rewrite (retry_loop_failed invoke remaining _ st (e (invocations st)))
    by (apply Hfail || (apply Hacc; lia)).
  pose proof (delay_before_succ (fun j => exn_msg (e j)) (invocations st)) as Hs.
  cbv beta in Hs. rewrite <- Hs.
  specialize (IH (CallerState (S (invocations st))
                    (sleeps st
                     ++ [wait_for (exn_msg (e (invocations st)))
                           (delay_before (fun j => exn_msg (e j))
                              (invocations st))]))).
  cbn [invocations sleeps] in IH.
  rewrite IH by (intros k Hk; apply Hacc; lia).
  cbn [seq fmap list_fmap]. change (list_fmap nat pyfloat ?f ?x) with (f <$> x).
  rewrite <- app_assoc. cbn [app]. f_equal. f_equal. lia.
Qed.

(** X12.  When every call fails and [time.sleep] accepts every wait,
    [create_tests] makes its 5 calls, waits after each of them, the last
    included, and raises the terminal error.  The wait after call [k] is the
    rate-limit wait of its message, or else the back-off delay
    [2 * 2 ^ j] where [j] counts the ordinary failures before [k]: a
    rate-limit failure uses up an attempt and leaves the back-off delay as
    it was. *)
Theorem create_tests_all_fail
    (chain : string -> string -> Z -> nat -> outcome string)
    (context id : string) (num_tests : Z) (e : nat -> exn) :
  let message := fun k => exn_msg (e k) in
  let wait := fun k => wait_for (message k) (delay_before message k) in
  (forall k, chain context id num_tests k = Raise (e k)) ->
  (forall k, (k < 5)%nat -> sleep_accepts (wait k) = true) ->
  create_tests chain context id num_tests caller_init
  = (Raise terminal_error, CallerState 5 (wait <$> seq 0 5)) /\
  (forall k, is_rate_limit (message k) = true ->
             delay_before message (S k) = delay_before message k) /\
  (forall k, is_rate_limit (message k) = false ->
             wait k = PyFloat.of_Z (delay_before message k) /\
             delay_before message (S k) = 2 * delay_before message k).
Proof.
  intros message wait Hfail Hacc. split; [|split].
  - unfold create_tests, create_tests_on, max_retries.
    pose proof (retry_loop_all_fail (chain context id num_tests) e 5 Hfail
                  caller_init) as H.
    specialize (H ltac:(intros k Hk; apply Hacc; cbn in Hk; lia)).
    exact H.
  - intros k Hk. rewrite delay_before_succ. unfold next_delay. by rewrite Hk.
  - intros k Hk. split.
    + subst wait. cbn beta. unfold wait_for. by rewrite Hk.
    + rewrite delay_before_succ. unfold next_delay. rewrite Hk. lia.
Qed.

Lemma create_tests_all_fail_witness :
  (forall k, Further.chain_limited "text" "1" 3 k
             = Raise (Further.limited_error k)) /\
  create_tests Further.chain_limited "text" "1" 3 caller_init
  = (Raise terminal_error,
     CallerState 5 [PyFloat.of_Z 2; PyFloat.of_Z 60; PyFloat.of_Z 4;
                    PyFloat.of_Z 60; PyFloat.of_Z 8]).
Proof.
  split; [reflexivity|].
  destruct (create_tests_all_fail Further.chain_limited "text" "1" 3
              Further.limited_error (fun k => eq_refl)) as [H _].
  - intros k Hk.
    do 5 (destruct k as [|k]; [reflexivity|]). lia.
  - exact H.
Defined.

End RetryFurther.

(* ===================================================================== *)
(** * Test-set generator: faults and provenance of [parse_response]       *)
(* ===================================================================== *)

Section ResponseFurther.

Lemma split1_with_separator (sep s : string) :
  sep <> EmptyString ->
  Str.contains sep s = true -> exists h t, Str.split1 sep s = [h; t].
Proof.
  intros Hsep Hyes. unfold Str.split1.
  destruct (Str.split1_from sep s) as [h [t|]] eqn:Hs; [by eauto|].
  exfalso. revert h Hs.
  induction s as [|c s IH]; intros h Hs.
  - cbn in Hyes. destruct sep; [done | discriminate].
  - cbn [Str.contains] in Hyes. cbn [Str.split1_from] in Hs.
    destruct (String.prefix sep (String c s)); [discriminate|].
    destruct (Str.split1_from sep s) as [h' t'] eqn:Hs'.
    injection Hs as <- ->. by eapply IH.
Qed.

Lemma colon_part_fault (line : string) (e : exn) :
  colon_part 1 line = Raise e -> e = no_colon /\ Str.contains ":" line = false.
Proof.
  unfold colon_part. intros H.
  destruct (Str.contains ":" line) eqn:Hc.
  - destruct (split1_with_separator ":" line ltac:(done) Hc) as (h & t & Hs).
    rewrite Hs in H. discriminate.
  - rewrite (split1_no_separator ":" line Hc) in H. cbn in H.
    by injection H as <-.
Qed.

Lemma colon_part_returns (line : string) :
  Str.contains ":" line = true -> exists raw, colon_part 1 line = Ret raw.
Proof.
  intros Hc. unfold colon_part.
  destruct (split1_with_separator ":" line ltac:(done) Hc) as (h & t & ->).
  by exists t.
Qed.

Lemma parse_response_line_fault (st : parser_state) (line : string) (e : exn) :
  parse_response_line st line = Raise e ->
  e = no_colon /\ Str.contains ":" line = false.
Proof.
  unfold parse_response_line.
  destruct (Str.startswith line "id:"); [discriminate|].
  destruct (Str.startswith line "question_").
  { destruct (colon_part 1 line) eqn:Hc; [discriminate|].
    intros [= <-]. by apply colon_part_fault. }
  destruct (Str.startswith line "answer_"); [|discriminate].
  destruct (String.eqb _ _); [|discriminate].
  destruct (colon_part 1 line) eqn:Hc; [discriminate|].
  intros [= <-]. by apply colon_part_fault.
Qed.

Lemma parse_response_lines_fault (lines : list string) :
  forall st e,
    parse_response_lines lines st = Raise e ->
    e = no_colon /\ exists line, line ∈ lines /\ Str.contains ":" line = false.
Proof.
  induction lines as [|line lines IH]; intros st e H; [discriminate|].
  cbn [parse_response_lines] in H.
  destruct (parse_response_line st line) as [st'|e'] eqn:Hline.
  - destruct (IH _ _ H) as (-> & l & Hl & Hc).
    split; [reflexivity|]. exists l. split; [by right | exact Hc].
  - injection H as <-.
    destruct (parse_response_line_fault _ _ _ Hline) as [-> Hc].
    split; [reflexivity|]. exists line. split; [by left | exact Hc].
Qed.

(** X13.  The only fault of [parse_response] is the [IndexError] of a line
    without a colon: a response in which every line holds a colon is always
    parsed, and when [parse_response] raises, it raises that [IndexError]
    and some line of the response has no colon. *)
Theorem parse_response_faults (response_text : string) :
  let lines := Str.split Str.nl (Str.strip response_text) in
  (Forall (fun line => Str.contains ":" line = true) lines ->
   exists data, parse_response response_text = Ret data) /\
  (forall e, parse_response response_text = Raise e ->
     e = no_colon /\
     exists line, line ∈ lines /\ Str.contains ":" line = false).
Proof.
  intros lines. unfold parse_response. fold lines.
  destruct (parse_response_lines lines parser_init) as [st|e] eqn:Hp.
  - split; [by eauto | discriminate].
  - destruct (parse_response_lines_fault _ _ _ Hp) as (-> & line & Hin & Hc).
    split.
    + intros Hall. eapply Forall_forall in Hall; [|exact Hin]. congruence.
    + intros e [= <-]. split; [reflexivity | by eauto].
Qed.

Lemma item_from_lines_more (seen more : list string) (item : TestCase) :
  item_from_lines seen item -> item_from_lines (seen ++ more) item.
Proof.
  intros [(al & Hal & Ha) Hq]. split.
  - exists al. split; [apply elem_of_app; by left | exact Ha].
  - destruct Hq as [Hq | (ql & Hql & Hq)]; [by left|].
    right. exists ql. split; [apply elem_of_app; by left | exact Hq].
Qed.

Lemma parser_inv_more (seen : list string) (line : string) (st : parser_state)
    (id : string) :
  parser_inv seen st ->
  parser_inv (seen ++ [line])
    (ParserState (data st) id (current_question_num st) (current_question st)
                 (current_answer st)).
Proof.
  intros (Hdata & Hq & Hlen). split; [|split]; cbn [data current_question
    current_question_num].
  - eapply Forall_impl; [exact Hdata|]. intros item. apply item_from_lines_more.
  - destruct Hq as [Hq | (ql & Hql & Hq)]; [by left|].
    right. exists ql. split; [apply elem_of_app; by left | exact Hq].
  - rewrite List.filter_app, length_app. lia.
Qed.

Lemma parser_inv_same (seen : list string) (line : string) (st : parser_state) :
  parser_inv seen st -> parser_inv (seen ++ [line]) st.
Proof.
  intros H. destruct st as [d i n q a].
  exact (parser_inv_more seen line (ParserState d i n q a) i H).
Qed.

Lemma parse_response_line_inv (seen : list string) (st st' : parser_state)
    (line : string) :
  parse_response_line st line = Ret st' ->
  parser_inv seen st -> parser_inv (seen ++ [line]) st'.
Proof.
  unfold parse_response_line. intros Hstep Hinv.
  destruct (Str.startswith line "id:") eqn:Hid.
  { injection Hstep as <-. by apply parser_inv_more. }
  destruct (Str.startswith line "question_") eqn:Hqu.
  { destruct (colon_part 1 line) as [raw|] eqn:Hraw; [|discriminate].
    injection Hstep as <-. destruct Hinv as (Hdata & _ & Hlen).
    split; [|split]; cbn [data current_question current_question_num].
    - eapply Forall_impl; [exact Hdata|]. intros item.
      apply item_from_lines_more.
    - right. exists line. split; [apply elem_of_app; right; by left|].
      repeat split; try done. by exists raw.
    - rewrite List.filter_app, length_app. lia. }
  destruct (Str.startswith line "answer_") eqn:Han.
  2: { injection Hstep as <-. by apply parser_inv_same. }
  destruct (String.eqb_spec (tag_number "answer_" line) (current_question_num st))
    as [Hnum|_].
  2: { injection Hstep as <-. by apply parser_inv_same. }
  destruct (colon_part 1 line) as [raw|] eqn:Hraw; [|discriminate].
  injection Hstep as <-. destruct Hinv as (Hdata & Hq & Hlen).
  split; [|split]; cbn [data current_question current_question_num].
  - apply Forall_app. split.
    + eapply Forall_impl; [exact Hdata|]. intros item.
      apply item_from_lines_more.
    + constructor; [|constructor]. split; cbn [tc_question_num tc_answer tc_question].
      * exists line. split; [apply elem_of_app; right; by left|].
        repeat split; try done. by exists raw.
      * destruct Hq as [Hq | (ql & Hql & Hq)]; [by left|].
        right. exists ql. split; [apply elem_of_app; by left | exact Hq].
  - by left.
  - rewrite List.filter_app, !length_app. cbn [List.filter].
    unfold is_answer_line in *. rewrite Hid, Hqu, Han. cbn. lia.
Qed.

Lemma parse_response_lines_inv (rest : list string) :
  forall seen st st',
    parse_response_lines rest st = Ret st' ->
    parser_inv seen st -> parser_inv (seen ++ rest) st'.
Proof.
  induction rest as [|line rest IH]; intros seen st st' Hrun Hinv.
  - injection Hrun as <-. by rewrite app_nil_r.
  - cbn [parse_response_lines] in Hrun.
    destruct (parse_response_line st line) as [st1|] eqn:Hline; [|discriminate].
    replace (seen ++ line :: rest) with ((seen ++ [line]) ++ rest)
      by (by rewrite <- app_assoc).
    eapply IH; [exact Hrun|]. by eapply parse_response_line_inv.
Qed.

(** X14.  Every item [parse_response] returns was emitted by an answer line
    of the response: its number and answer are those of that line, and its
    question, unless empty, is the text of a question line with the same
    number.  So no item pairs a question with an answer of another number,
    and there are at most as many items as answer lines. *)
Theorem parse_response_provenance (response_text : string) (items : list TestCase) :
  parse_response response_text = Ret items ->
  let lines := Str.split Str.nl (Str.strip response_text) in
  Forall (item_from_lines lines) items /\
  (length items <= length (List.filter is_answer_line lines))%nat.
Proof.
  intros Hrun lines. unfold parse_response in Hrun. fold lines in Hrun.
  destruct (parse_response_lines lines parser_init) as [st|] eqn:Hp;
    [|discriminate].
  injection Hrun as <-.
  assert (parser_inv [] parser_init) as Hinit.
  { split; [constructor|]. split; [by left | cbn; lia]. }
  destruct (parse_response_lines_inv lines [] parser_init st Hp Hinit)
    as (Hdata & _ & Hlen).
  by split.
Qed.

Lemma parse_response_provenance_witness :
  let response_text :=
    render_response "7" [MkTestCase "7" "1" "What is it?" "A test"] in
  parse_response response_text = Ret [MkTestCase "7" "1" "What is it?" "A test"] /\
  (length [MkTestCase "7" "1" "What is it?" "A test"]
   <= length (List.filter is_answer_line
                (Str.split Str.nl (Str.strip response_text))))%nat.
Proof.
  intros response_text. split; [reflexivity|].
  exact (proj2 (parse_response_provenance response_text
                  [MkTestCase "7" "1" "What is it?" "A test"] eq_refl)).
Defined.

End ResponseFurther.

(* ===================================================================== *)
(** * Test-set generator: a response in the format is read back           *)
(* ===================================================================== *)

Section RoundTripFacts.

Lemma all_chars_impl (p q : ascii -> bool) (s : string) :
  (forall c, p c = true -> q c = true) ->
  all_chars p s = true -> all_chars q s = true.
Proof.
  intros Hpq. induction s as [|c s IH]; [done|].
  cbn [all_chars]. intros [Hc Hs]%andb_true_iff.
  by rewrite (Hpq c Hc), (IH Hs).
Qed.

Lemma all_chars_app (p : ascii -> bool) (a b : string) :
  all_chars p (a +:+ b) = all_chars p a && all_chars p b.
Proof.
  induction a as [|c a IH]; [reflexivity|].
  rewrite append_cons. cbn [all_chars]. by rewrite IH, andb_assoc.
Qed.

Lemma is_decimal_other (c : ascii) :
  is_decimal c = true ->
  negb (is_newline c) = true /\ negb (Str.isspace c) = true /\
  negb (Ascii.eqb ":" c) = true /\ negb (Ascii.eqb "q" c) = true /\
  negb (Ascii.eqb "a" c) = true /\ negb (Ascii.eqb "i" c) = true.
Proof.
  destruct c as [[] [] [] [] [] [] [] []]; cbn; intros H;
    (discriminate H || by repeat split).
Qed.

Lemma substring_all (s : string) : String.substring 0 (String.length s) s = s.
Proof. induction s as [|c s IH]; [reflexivity|]. cbn. by rewrite IH. Qed.

(** Cutting at the first colon, when what precedes it has none. *)
Lemma split1_at_colon (h t : string) :
  all_chars (fun c => negb (Ascii.eqb ":" c)) h = true ->
  Str.split1 ":" (h +:+ String ":" t) = [h; t].
Proof.
  intros Hh. unfold Str.split1.
  assert (Str.split1_from ":" (h +:+ String ":" t) = (h, Some t)) as ->;
    [|reflexivity].
  induction h as [|c h IH].
  - change (EmptyString +:+ String ":" t) with (String ":" t).
    cbn [Str.split1_from]. rewrite prefix_char, Ascii.eqb_refl.
    cbn [String.length Nat.sub String.substring].
    by rewrite Nat.sub_0_r, substring_all.
  - cbn [all_chars] in Hh. apply andb_true_iff in Hh as [Hc Hh].
    rewrite append_cons. cbn [Str.split1_from]. rewrite prefix_char.
    apply negb_true_iff in Hc. rewrite Hc, (IH Hh). reflexivity.
Qed.

(** Where the first character of [old] does not occur, nothing is
    replaced. *)
Lemma replace_from_absent (a : ascii) (old new s : string) :
  all_chars (fun c => negb (Ascii.eqb a c)) s = true ->
  Str.replace_from (String a old) new 0 s = s.
Proof.
  induction s as [|c s IH]; [reflexivity|].
  cbn [all_chars]. intros [Hc Hs]%andb_true_iff.
  cbn [Str.replace_from String.prefix].
  apply negb_true_iff, Ascii.eqb_neq in Hc.
  destruct (ascii_dec a c) as [->|_]; [done|]. by rewrite (IH Hs).
Qed.

Lemma replace_from_skip (old new x rest : string) :
  Str.replace_from old new (String.length x) (x +:+ rest)
  = Str.replace_from old new 0 rest.
Proof.
  induction x as [|c x IH]; [reflexivity|].
  rewrite append_cons. cbn [String.length Str.replace_from]. exact IH.
Qed.

(** Removing a tag of at least two characters from the front of a text in
    which its first character does not occur again. *)
Lemma replace_front (a b : ascii) (old rest : string) :
  all_chars (fun c => negb (Ascii.eqb a c)) rest = true ->
  Str.replace (String a (String b old)) EmptyString
              (String a (String b old) +:+ rest) = rest.
Proof.
  intros Hrest. unfold Str.replace.
  rewrite (append_cons a (String b old) rest).
  cbn [Str.replace_from].
  rewrite <- (append_cons a (String b old) rest), prefix_append.
  cbn [String.length].
  change (String b (old +:+ rest)) with (String b old +:+ rest).
  change (S (String.length old)) with (String.length (String b old)).
  rewrite replace_from_skip. by apply replace_from_absent.
Qed.

Lemma lstrip_shorter (s : string) :
  (String.length (Str.lstrip s) <= String.length s)%nat.
Proof.
  induction s as [|c s IH]; [done|]. cbn [Str.lstrip].
  destruct (Str.isspace c); cbn [String.length]; lia.
Qed.

Lemma rstrip_shorter (s : string) :
  (String.length (Str.rstrip s) <= String.length s)%nat.
Proof.
  induction s as [|c s IH]; [done|]. cbn [Str.rstrip].
  destruct (Str.rstrip s); [destruct (Str.isspace c)|];
    cbn [String.length] in *; lia.
Qed.

Lemma lstrip_same_length (s : string) :
  String.length (Str.lstrip s) = String.length s -> Str.lstrip s = s.
Proof.
  destruct s as [|c s]; [done|]. cbn [Str.lstrip].
  destruct (Str.isspace c); [|done].
  pose proof (lstrip_shorter s). cbn [String.length]. lia.
Qed.

(** A text that [strip] leaves alone is left alone by both of its halves. *)
Lemma strip_fixed (s : string) :
  Str.strip s = s -> Str.lstrip s = s /\ Str.rstrip s = s.
Proof.
  unfold Str.strip. intros H.
  assert (Str.lstrip s = s) as Hl.
  { apply lstrip_same_length.
    pose proof (lstrip_shorter s). pose proof (rstrip_shorter (Str.lstrip s)).
    apply (f_equal String.length) in H. lia. }
  split; [exact Hl|]. by rewrite Hl in H.
Qed.

Lemma rstrip_no_space (s : string) :
  all_chars (fun c => negb (Str.isspace c)) s = true -> Str.rstrip s = s.
Proof.
  induction s as [|c s IH]; [reflexivity|].
  cbn [all_chars]. intros [Hc Hs]%andb_true_iff.
  cbn [Str.rstrip]. rewrite (IH Hs). apply negb_true_iff in Hc.
  destruct s; [by rewrite Hc | reflexivity].
Qed.

Lemma strip_no_space (s : string) :
  all_chars (fun c => negb (Str.isspace c)) s = true -> Str.strip s = s.
Proof.
  intros Hs. unfold Str.strip.
  assert (Str.lstrip s = s) as ->; [|by apply rstrip_no_space].
  destruct s as [|c s]; [reflexivity|]. cbn [all_chars] in Hs.
  apply andb_true_iff in Hs as [Hc _]. apply negb_true_iff in Hc.
  cbn [Str.lstrip]. by rewrite Hc.
Qed.

(** White space is stripped from the end only: a text that ends in a
    non-empty part without white space at its end is left alone. *)
Lemma rstrip_app (x y : string) :
  Str.rstrip y = y -> y <> EmptyString -> Str.rstrip (x +:+ y) = x +:+ y.
Proof.
  intros Hy Hne. induction x as [|c x IH]; [exact Hy|].
  rewrite append_cons. cbn [Str.rstrip]. rewrite IH.
  destruct (x +:+ y) eqn:Hxy; [|reflexivity].
  destruct x; [by cbn in Hxy | by rewrite append_cons in Hxy].
Qed.

Lemma split_line (l rest : string) :
  all_chars (fun c => negb (is_newline c)) l = true ->
  Str.split Str.nl (l +:+ Str.nl +:+ rest) = l :: Str.split Str.nl rest.
Proof.
  unfold Str.nl. intros Hl. induction l as [|c l IH].
  - change (EmptyString +:+ String (ascii_of_N 10) EmptyString +:+ rest)
      with (String (ascii_of_N 10) rest).
    rewrite split_char_cons. by rewrite Ascii.eqb_refl.
  - cbn [all_chars] in Hl. apply andb_true_iff in Hl as [Hc Hl].
    rewrite append_cons, split_char_cons, (IH Hl).
    unfold is_newline in Hc. apply negb_true_iff in Hc.
    by rewrite Ascii.eqb_sym, Hc.
Qed.

Lemma split_one_line (l : string) :
  all_chars (fun c => negb (is_newline c)) l = true ->
  Str.split Str.nl l = [l].
Proof.
  unfold Str.nl. intros Hl. induction l as [|c l IH]; [reflexivity|].
  cbn [all_chars] in Hl. apply andb_true_iff in Hl as [Hc Hl].
  rewrite split_char_cons, (IH Hl).
  unfold is_newline in Hc. apply negb_true_iff in Hc.
  by rewrite Ascii.eqb_sym, Hc.
Qed.

(** Joining lines and splitting at the newlines gives the lines back. *)
Lemma split_join_lines (l : string) (lines : list string) :
  Forall (fun l => all_chars (fun c => negb (is_newline c)) l = true)
         (l :: lines) ->
  Str.split Str.nl (join_lines (l :: lines)) = l :: lines.
Proof.
  revert l. induction lines as [|l' lines IH]; intros l Hall.
  - apply split_one_line. by inversion Hall.
  - inversion Hall as [|? ? Hl Hrest]; subst.
    change (join_lines (l :: l' :: lines))
      with (l +:+ Str.nl +:+ join_lines (l' :: lines)).
    by rewrite (split_line l _ Hl), (IH l' Hrest).
Qed.

Lemma join_lines_snoc (lines : list string) (z y : string) :
  exists x, join_lines (lines ++ [z +:+ y]) = x +:+ y.
Proof.
  induction lines as [|l lines [x IH]]; [by exists z|].
  destruct lines as [|l' lines].
  - exists (l +:+ Str.nl +:+ z). cbn [app join_lines].
    by rewrite !append_assoc.
  - exists (l +:+ Str.nl +:+ x).
    change (join_lines ((l :: l' :: lines) ++ [z +:+ y]))
      with (l +:+ Str.nl +:+ join_lines ((l' :: lines) ++ [z +:+ y])).
    by rewrite IH, !append_assoc.
Qed.

End RoundTripFacts.

Section RoundTrip.

Lemma digits_no (p : ascii -> bool) (s : string) :
  (forall c, is_decimal c = true -> p c = true) ->
  digits_only s = true -> all_chars p s = true.
Proof. intros Hp. by apply all_chars_impl. Qed.

Lemma digits_strip (s : string) : digits_only s = true -> Str.strip s = s.
Proof.
  intros Hs. apply strip_no_space.
  eapply digits_no; [|exact Hs]. intros c Hc. by apply is_decimal_other.
Qed.

(** A line [tag num: text], for a tag of at least two characters without a
    colon whose first character is no digit. *)
Lemma tagged_line (a b : ascii) (tag' num text : string) :
  let tag := String a (String b tag') in
  let line := tag +:+ num +:+ ": " +:+ text in
  all_chars (fun c => negb (Ascii.eqb ":" c)) tag = true ->
  (forall c, is_decimal c = true -> negb (Ascii.eqb a c) = true) ->
  digits_only num = true ->
  Str.startswith line tag = true /\
  tag_number tag line = num /\
  colon_part 1 line = Ret (" " +:+ text).
Proof.
  intros tag line Htag Ha Hnum.
  assert (Str.split1 ":" line = [tag +:+ num; " " +:+ text]) as Hsplit.
  { subst line. rewrite <- append_assoc.
    change (": " +:+ text) with (String ":" (" " +:+ text)).
    apply split1_at_colon. rewrite all_chars_app, Htag. cbn [andb].
    eapply digits_no; [|exact Hnum]. intros c Hc. by apply is_decimal_other. }
  split; [apply prefix_append|]. split.
  - unfold tag_number. rewrite Hsplit. subst tag.
    rewrite replace_front by (by eapply digits_no).
    by apply digits_strip.
  - unfold colon_part. by rewrite Hsplit.
Qed.

Lemma strip_after_space (text : string) :
  Str.strip text = text -> Str.strip (" " +:+ text) = text.
Proof. intros H. exact H. Qed.

Lemma id_line_step (st : parser_state) (id : string) :
  digits_only id = true ->
  parse_response_line st ("id: " +:+ id)
  = Ret (ParserState (data st) id (current_question_num st)
                     (current_question st) (current_answer st)).
Proof.
  intros Hid. unfold parse_response_line.
  change (Str.startswith ("id: " +:+ id) "id:") with true. cbn match.
  change ("id: " +:+ id) with ("id:" +:+ " " +:+ id).
  rewrite (replace_front "i" "d" ":" (" " +:+ id)).
  - change (Str.strip (" " +:+ id)) with (Str.strip id).
    by rewrite digits_strip.
  - rewrite all_chars_app. cbn [andb all_chars]. cbn.
    eapply digits_no; [|exact Hid]. intros c Hc. by apply is_decimal_other.
Qed.

Lemma question_line_step (emitted : list TestCase) (id n0 num text : string) :
  digits_only num = true -> Str.strip text = text ->
  parse_response_line (ParserState emitted id n0 EmptyString EmptyString)
                      ("question_" +:+ num +:+ ": " +:+ text)
  = Ret (ParserState emitted id num text EmptyString).
Proof.
  intros Hnum Htext.
  destruct (tagged_line "q" "u" "estion_" num text eq_refl
              ltac:(intros c Hc; by apply is_decimal_other) Hnum)
    as (Hstart & Htag & Hcolon).
  unfold parse_response_line.
  change (Str.startswith ("question_" +:+ num +:+ ": " +:+ text) "id:")
    with false. cbn match.
  unfold Str.startswith in *. rewrite Hstart, Htag, Hcolon.
  cbn [data current_id current_answer].
  by rewrite (strip_after_space text Htext).
Qed.

Lemma answer_line_step (emitted : list TestCase) (id num question text : string) :
  digits_only num = true -> Str.strip text = text ->
  parse_response_line (ParserState emitted id num question EmptyString)
                      ("answer_" +:+ num +:+ ": " +:+ text)
  = Ret (ParserState (emitted ++ [MkTestCase id num question text]) id num
                     EmptyString EmptyString).
Proof.
  intros Hnum Htext.
  destruct (tagged_line "a" "n" "swer_" num text eq_refl
              ltac:(intros c Hc; by apply is_decimal_other) Hnum)
    as (Hstart & Htag & Hcolon).
  unfold parse_response_line.
  change (Str.startswith ("answer_" +:+ num +:+ ": " +:+ text) "id:")
    with false. cbn match.
  change (Str.startswith ("answer_" +:+ num +:+ ": " +:+ text) "question_")
    with false. cbn match.
  unfold Str.startswith in *. rewrite Hstart, Htag, Hcolon.
  cbn [data current_id current_question_num current_question].
  rewrite String.eqb_refl.
  by rewrite (strip_after_space text Htext).
Qed.

Lemma parse_response_lines_app (l1 l2 : list string) (st : parser_state) :
  parse_response_lines (l1 ++ l2) st
  = match parse_response_lines l1 st with
    | Ret st' => parse_response_lines l2 st'
    | Raise e => Raise e
    end.
Proof.
  revert st. induction l1 as [|line l1 IH]; intros st; [reflexivity|].
  cbn [app parse_response_lines].
  destruct (parse_response_line st line); [apply IH | reflexivity].
Qed.

Lemma pairs_step (id : string) (items : list TestCase) :
  Forall (well_formed_item id) items ->
  forall emitted n0,
    exists n1,
      parse_response_lines (concat (pair_lines <$> items))
        (ParserState emitted id n0 EmptyString EmptyString)
      = Ret (ParserState (emitted ++ items) id n1 EmptyString EmptyString).
Proof.
  induction 1 as [|item items Hitem _ IH]; intros emitted n0.
  - exists n0. cbn. by rewrite app_nil_r.
  - destruct Hitem as (Hid & Hnum & [Hq _] & [Ha _] & _).
    destruct (IH (emitted ++ [item]) (tc_question_num item)) as [n1 Hrest].
    exists n1. cbn [fmap list_fmap concat].
    change (list_fmap TestCase (list string) ?f ?x) with (f <$> x).
    rewrite parse_response_lines_app. unfold pair_lines in Hrest |- *.
    cbn [parse_response_lines].
    rewrite (question_line_step emitted id n0 _ _ Hnum Hq).
    rewrite (answer_line_step emitted id _ _ _ Hnum Ha).
    assert (MkTestCase id (tc_question_num item) (tc_question item)
              (tc_answer item) = item) as ->
      by (destruct item; cbn in *; by subst).
    rewrite Hrest. by rewrite <- app_assoc.
Qed.

Lemma render_lines_no_newline (id : string) (items : list TestCase) :
  digits_only id = true ->
  Forall (well_formed_item id) items ->
  Forall (fun l => all_chars (fun c => negb (is_newline c)) l = true)
         (("id: " +:+ id) :: concat (pair_lines <$> items)).
Proof.
  intros Hid Hitems.
  assert (forall s, digits_only s = true ->
            all_chars (fun c => negb (is_newline c)) s = true) as Hdigits.
  { intros s Hs. eapply digits_no; [|exact Hs].
    intros c Hc. by apply is_decimal_other. }
  constructor.
  - rewrite all_chars_app, (Hdigits id Hid). reflexivity.
  - induction Hitems as [|item items Hitem _ IH]; [constructor|].
    destruct Hitem as (_ & Hnum & [_ Hq] & [_ Ha] & _).
    cbn [fmap list_fmap concat]. unfold pair_lines at 1. cbn [app].
    constructor; [|constructor; [|exact IH]].
    + by rewrite !all_chars_app, (Hdigits _ Hnum), Hq.
    + by rewrite !all_chars_app, (Hdigits _ Hnum), Ha.
Qed.

(** The rendered text ends in a non-empty part that [rstrip] leaves. *)
Lemma render_strip (id : string) (items : list TestCase) :
  digits_only id = true -> id <> EmptyString \/ items <> [] ->
  Forall (well_formed_item id) items ->
  Str.strip (render_response id items) = render_response id items.
Proof.
  intros Hid Hne Hitems. unfold Str.strip, render_response.
  assert (Str.lstrip (join_lines (("id: " +:+ id) :: concat (pair_lines <$> items)))
          = join_lines (("id: " +:+ id) :: concat (pair_lines <$> items))) as ->.
  { destruct (concat (pair_lines <$> items)); reflexivity. }
  destruct (decide (items = [])) as [->|Hitems_ne].
  - destruct Hne as [Hne|]; [|done]. cbn [fmap list_fmap concat join_lines].
    apply rstrip_app; [|exact Hne].
    apply rstrip_no_space. eapply digits_no; [|exact Hid].
    intros c Hc. by apply is_decimal_other.
  - destruct (exists_last Hitems_ne) as (front & item & ->).
    apply Forall_app in Hitems as [_ Hlast].
    inversion Hlast as [|? ? (_ & _ & _ & [Ha _] & Hane) _]; subst.
    assert (exists x,
              join_lines (("id: " +:+ id)
                          :: concat (pair_lines <$> front ++ [item]))
              = x +:+ tc_answer item) as [x ->].
    { rewrite fmap_app, concat_app. cbn [fmap list_fmap concat].
      rewrite app_nil_r. unfold pair_lines at 2.
      replace (("id: " +:+ id)
               :: concat (pair_lines <$> front)
                  ++ ["question_" +:+ tc_question_num item +:+ ": "
                      +:+ tc_question item;
                      "answer_" +:+ tc_question_num item +:+ ": "
                      +:+ tc_answer item])
        with ((("id: " +:+ id)
               :: concat (pair_lines <$> front)
                  ++ ["question_" +:+ tc_question_num item +:+ ": "
                      +:+ tc_question item])
              ++ [("answer_" +:+ tc_question_num item +:+ ": ")
                  +:+ tc_answer item]).
      2: { rewrite !append_assoc. cbn [app]. by rewrite <- app_assoc. }
      apply join_lines_snoc. }
    apply rstrip_app; [|exact Hane].
    by apply strip_fixed in Ha as [_ Ha].
Qed.

(** The items of a rendered response that is not empty are read back. *)
Lemma parse_rendered (id : string) (items : list TestCase) :
  digits_only id = true ->
  id <> EmptyString \/ items <> [] ->
  Forall (well_formed_item id) items ->
  parse_response (render_response id items) = Ret items.
Proof.
  intros Hid Hne Hitems.
  unfold parse_response. rewrite (render_strip id items Hid Hne Hitems).
  unfold render_response.
  rewrite (split_join_lines _ _ (render_lines_no_newline id items Hid Hitems)).
  cbn [parse_response_lines].
  rewrite (id_line_step parser_init id Hid). cbn [data parser_init
    current_question_num current_question current_answer].
  destruct (pairs_step id items Hitems [] EmptyString) as [n1 ->].
  reflexivity.
Qed.

(** X15.  A response written in the format the prompt asks for is read back
    exactly: for an id and question numbers made of digits and for question
    and answer texts on one line without surrounding white space (the
    answers not empty), [parse_response] applied to the id line followed by
    the question and answer lines of the items returns these items, in
    order. *)
Theorem parse_response_round_trip (id : string) (items : list TestCase) :
  digits_only id = true ->
  Forall (well_formed_item id) items ->
  parse_response (render_response id items) = Ret items.
Proof.
  intros Hid Hitems.
  destruct (decide (id = EmptyString /\ items = [])) as [[-> ->]|Hne].
  { reflexivity. }
  apply parse_rendered; [exact Hid | | exact Hitems].
  destruct (decide (id = EmptyString)) as [->|]; [|by left].
  right. intros ->. by apply Hne.
Qed.

Lemma parse_response_round_trip_witness :
  digits_only "7" = true /\
  parse_response
    (render_response "7" [MkTestCase "7" "1" "What is it?" "A test";
                          MkTestCase "7" "2" "Where?" "Here"])
  = Ret [MkTestCase "7" "1" "What is it?" "A test";
         MkTestCase "7" "2" "Where?" "Here"].
Proof.
  split; [reflexivity|].
  apply (parse_response_round_trip "7"); [reflexivity|].
  repeat constructor; try reflexivity; discriminate.
Defined.

End RoundTrip.

(* ===================================================================== *)
(** * An index that is not loaded; one document; all documents            *)
(* ===================================================================== *)

Section UnloadedIndex.
Context {W : Type}.
Variable evaluator_model : string -> W -> outcome pyval * W.

(** X16.  With a RAG system whose index is not loaded, [query] returns
    [None] for every question and the batch still yields one entry per
    question: the judge is asked about the response None, and the entry
    keeps [None] as rag_response with the judge's score and explanation;
    only a fault of the judge itself makes an entry the sentinel. *)
Theorem unloaded_index_batch
    (questions : list row) (batch_size : Z) (pbar : option tqdm)
    (sched_of : nat -> list nat) (w : W) :
  1 <= batch_size ->
  exists results pbar' w',
    evaluate_batch (RAGSystem_query (MkRAGSystem None)) evaluator_model
                   questions batch_size pbar sched_of w
    = (Ret results, pbar', w') /\
    length results = length questions /\
    forall i r, questions !! i = Some r ->
      exists res wi,
        results !! i = Some res /\
        match (evaluator_model (eval_prompt r PyNone) wi).1 with
        | Ret evaluation =>
            rag_response res = PyNone /\
            score res = (parse_evaluation evaluation).1 /\
            explanation res = (parse_evaluation evaluation).2
        | Raise e => res = error_result r e
        end.
Proof.
  intros Hb.
  destruct (evaluate_batch_evaluated (RAGSystem_query (MkRAGSystem None))
              evaluator_model questions batch_size pbar sched_of w Hb)
    as (results & pbar' & w' & Heq & Hall).
  exists results, pbar', w'. split; [exact Heq|]. split.
  - symmetry. by eapply Forall2_length.
  - intros i r Hi.
    destruct (Forall2_lookup_l _ _ _ _ _ Hall Hi) as (res & Hres & [wi ->]).
    eexists; exists wi. split; [exact Hres|].
    unfold process_question, RAGSystem_query. cbn [query_engine].
    destruct (evaluator_model (eval_prompt r PyNone) wi) as [[evaluation|e] w2];
      cbn [fst]; [|reflexivity].
    by destruct (parse_evaluation evaluation).
Qed.

End UnloadedIndex.

Lemma unloaded_index_batch_witness :
  1 <= 2 /\
  exists results pbar' w',
    evaluate_batch (RAGSystem_query (MkRAGSystem None)) Sample.judge
                   Sample.questions 2 None Sample.sched_of 0%nat
    = (Ret results, pbar', w') /\
    length results = length Sample.questions.
Proof.
  split; [lia|].
  destruct (unloaded_index_batch Sample.judge Sample.questions 2 None
              Sample.sched_of 0%nat ltac:(lia))
    as (results & pbar' & w' & Heq & Hlen & _).
  by exists results, pbar', w'.
Defined.

Section Generator.
Variable chain : string -> string -> Z -> nat -> outcome string.
Variable documents : gmap string string.

(** X17.  One document, end to end: when the file can be read and
    [create_tests] comes back with a response in the format, [process_file]
    returns the items of that response, in order, each with the base name of
    the file (its directories dropped) as filename.  The ids are the ones
    the response carries. *)
Theorem process_file_rendered
    (file_path context : string) (id_counter : nat) (num_tests : Z)
    (id : string) (items : list TestCase) (st : caller_state) :
  documents !! file_path = Some context ->
  create_tests chain context (pretty (N.of_nat id_counter)) num_tests caller_init
  = (Ret (render_response id items), st) ->
  digits_only id = true ->
  id <> EmptyString \/ items <> [] ->
  Forall (well_formed_item id) items ->
  process_file chain documents (file_path, id_counter, num_tests)
  = (Ret ((fun item => Row id (tc_question_num item) (tc_question item)
                           (tc_answer item) (basename file_path)) <$> items),
     st).
Proof.
  intros Hdoc Hgen Hid Hne Hitems. unfold process_file, read_document.
  rewrite Hdoc, Hgen, (render_strip id items Hid Hne Hitems).
  rewrite (parse_rendered id items Hid Hne Hitems). f_equal. f_equal.
  apply Forall_fmap_ext_1. eapply Forall_impl; [exact Hitems|].
  intros item (Hi & _). unfold with_filename. by rewrite Hi.
Qed.

Lemma collect_results_ret {A : Type} (results : list (outcome A)) (values : list A) :
  collect_results results = Ret values <-> results = Ret <$> values.
Proof.
  revert values. induction results as [|[a|e] results IH]; intros values.
  - cbn. split; [intros [= <-]; reflexivity | by destruct values].
  - cbn [collect_results].
    destruct (collect_results results) as [others|e'] eqn:Hc.
    + split.
      * intros [= <-]. cbn. f_equal. by apply IH.
      * destruct values as [|v values]; [done|]. cbn. intros [= -> Hrest].
        apply IH in Hrest. by injection Hrest as ->.
    + split; [done|]. destruct values as [|v values]; [done|].
      cbn. intros [= -> Hrest]. apply IH in Hrest. discriminate.
  - cbn. split; [done | by destruct values].
Qed.

Lemma collect_results_raise {A : Type} (results : list (outcome A)) (e : exn) :
  collect_results results = Raise e ->
  exists i, results !! i = Some (Raise e) /\
            forall j, (j < i)%nat -> exists a, results !! j = Some (Ret a).
Proof.
  induction results as [|[a|e0] results IH]; [done| |].
  - cbn [collect_results].
    destruct (collect_results results) as [others|e'] eqn:Hc; [done|].
    intros [= ->]. destruct (IH eq_refl) as (i & Hi & Hbefore).
    exists (S i). split; [exact Hi|].
    intros [|j] Hj; [by exists a | apply Hbefore; lia].
  - intros [= ->]. exists 0%nat. split; [reflexivity | intros j Hj; lia].
Qed.

(** X18.  [main] writes all or nothing.  When every document is processed,
    output.csv holds the records of the documents in the order [glob] listed
    them, the [i]-th document having been given the id [i + 1] and 20 as the
    number of pairs; when the processing of any document raises, [main]
    raises the exception of the first such document in that order and
    output.csv is left as it was, the records of the other documents being
    lost. *)
Theorem generator_main_all_or_nothing
    (files : list string) (csv_files : gmap string (list row)) :
  let run := generator_main chain documents files csv_files in
  match run.1 with
  | Ret _ =>
      exists per_file,
        length per_file = length files /\
        (forall i file_path, files !! i = Some file_path ->
           exists rows,
             per_file !! i = Some rows /\
             (process_file chain documents (file_path, S i, 20)).1 = Ret rows) /\
        run.2 = <["output.csv" := concat per_file]> csv_files
  | Raise e =>
      run.2 = csv_files /\
      exists i file_path,
        files !! i = Some file_path /\
        (process_file chain documents (file_path, S i, 20)).1 = Raise e /\
        forall j file_path', (j < i)%nat -> files !! j = Some file_path' ->
          exists rows,
            (process_file chain documents (file_path', S j, 20)).1 = Ret rows
  end.
Proof.
  intros run. subst run. unfold generator_main, args_list, num_tests_per_file.
  set (futures := (fun args => (process_file chain documents args).1)
                    <$> imap (fun idx file_path => (file_path, S idx, 20)) files).
  assert (forall i, futures !! i
            = (fun file_path => (process_file chain documents
                                   (file_path, S i, 20)).1) <$> files !! i)
    as Hfut.
  { intros i. subst futures. rewrite list_lookup_fmap, list_lookup_imap.
    by destruct (files !! i). }
  destruct (collect_results futures) as [parsed|e] eqn:Hc; cbn [fst snd].
  - apply collect_results_ret in Hc.
    exists parsed. split; [|split; [|reflexivity]].
    + apply (f_equal length) in Hc. rewrite length_fmap in Hc.
      subst futures. by rewrite length_fmap, length_imap in Hc.
    + intros i file_path Hi.
      pose proof (Hfut i) as Hi'. rewrite Hi, Hc, list_lookup_fmap in Hi'.
      destruct (parsed !! i) as [rows|]; [|discriminate].
      exists rows. split; [reflexivity|]. injection Hi' as Hi'. symmetry. exact Hi'.
  - split; [reflexivity|].
    destruct (collect_results_raise _ _ Hc) as (i & Hi & Hbefore).
    rewrite Hfut in Hi.
    destruct (files !! i) as [file_path|] eqn:Hfile; [|discriminate].
    exists i, file_path. split; [exact Hfile|]. split; [by injection Hi|].
    intros j file_path' Hj Hfile'.
    destruct (Hbefore j Hj) as [rows Hrows].
    rewrite Hfut, Hfile' in Hrows. exists rows. by injection Hrows.
Qed.

End Generator.

Lemma process_file_rendered_witness :
  Further.documents !! "documents/a.txt" = Some "Text of a." /\
  process_file Further.chain_answers Further.documents ("documents/a.txt", 1%nat, 20)
  = (Ret [Row "1" "1" "What is it?" "A test" "a.txt"], CallerState 1 []).
Proof.
  split; [reflexivity|].
  apply (process_file_rendered Further.chain_answers Further.documents
           "documents/a.txt" "Text of a." 1 20 "1"
           [MkTestCase "1" "1" "What is it?" "A test"] (CallerState 1 []));
    try reflexivity.
  - by left.
  - repeat constructor; try reflexivity; discriminate.
Defined.

(* ===================================================================== *)
(** * [get_env_variable]                                                  *)
(* ===================================================================== *)

Section EnvFacts.

Lemma contains_char (a c : ascii) (r : string) :
  Str.contains (String a EmptyString) (String c r)
  = Ascii.eqb a c || Str.contains (String a EmptyString) r.
Proof. cbn [Str.contains]. by rewrite prefix_char. Qed.

Lemma contains_char_nil (a : ascii) :
  Str.contains (String a EmptyString) EmptyString = false.
Proof. reflexivity. Qed.

Lemma contains_char_lstrip (a : ascii) (s : string) :
  Str.isspace a = false ->
  Str.contains (String a EmptyString) s = true ->
  Str.contains (String a EmptyString) (Str.lstrip s) = true.
Proof.
  intros Ha. induction s as [|c s IH]; [done|].
  intros Hs. cbn [Str.lstrip].
  destruct (Str.isspace c) eqn:Hc; [|exact Hs].
  rewrite contains_char in Hs. apply orb_true_iff in Hs as [Heq|Hs].
  - apply Ascii.eqb_eq in Heq as ->. congruence.
  - by apply IH.
Qed.

Lemma contains_char_rstrip (a : ascii) (s : string) :
  Str.isspace a = false ->
  Str.contains (String a EmptyString) s = true ->
  Str.contains (String a EmptyString) (Str.rstrip s) = true.
Proof.
  intros Ha. induction s as [|c s IH]; [done|].
  rewrite contains_char. intros Hs. cbn [Str.rstrip].
  destruct (Ascii.eqb a c) eqn:Heq.
  - apply Ascii.eqb_eq in Heq as <-. rewrite Ha.
    destruct (Str.rstrip s); by rewrite contains_char, Ascii.eqb_refl.
  - cbn [orb] in Hs. specialize (IH Hs).
    destruct (Str.rstrip s) as [|c' r'] eqn:Hr; [done|].
    rewrite contains_char, Heq. exact IH.
Qed.

Lemma read_env_line_some (vars : list (string * string)) (line : string) :
  exists vars', read_env_line (Some vars) line = Some vars'.
Proof.
  unfold read_env_line.
  destruct (Str.contains "=" line) eqn:Hc; [|by eauto].
  assert (Str.contains "=" (Str.strip line) = true) as Hs.
  { unfold Str.strip. apply contains_char_rstrip; [reflexivity|].
    by apply contains_char_lstrip. }
  destruct (split1_with_separator "=" (Str.strip line) ltac:(done) Hs)
    as (h & t & ->).
  by eauto.
Qed.

Lemma read_env_lines_some (lines : list string) (vars : list (string * string)) :
  exists vars', fold_left read_env_line lines (Some vars) = Some vars'.
Proof.
  revert vars. induction lines as [|line lines IH]; intros vars; [by eauto|].
  cbn [fold_left]. destruct (read_env_line_some vars line) as [vars' ->].
  apply IH.
Qed.

(** Whatever the [.env] file holds, reading it gives a dictionary: a line
    with an equals sign still has it after [strip], so the unpacking into
    [key, val] finds its two parts. *)
Lemma read_env_some (text : string) : exists vars, read_env text = Some vars.
Proof. apply read_env_lines_some. Qed.

Lemma dict_get_set_same (key val : string) (d : list (string * string)) :
  dict_get key (dict_set key val d) = Some val.
Proof.
  induction d as [|[k v] d IH]; cbn [dict_set dict_get].
  - by rewrite String.eqb_refl.
  - destruct (String.eqb k key) eqn:Hk; cbn [dict_get]; by rewrite Hk.
Qed.

Lemma dict_get_set_other (key val other : string) (d : list (string * string)) :
  other <> key -> dict_get other (dict_set key val d) = dict_get other d.
Proof.
  intros Hne. induction d as [|[k v] d IH]; cbn [dict_set dict_get].
  - apply String.eqb_neq in Hne. rewrite String.eqb_sym in Hne. by rewrite Hne.
  - destruct (String.eqb k key) eqn:Hk; cbn [dict_get].
    + apply String.eqb_eq in Hk as ->.
      apply String.eqb_neq in Hne. rewrite String.eqb_sym in Hne.
      by rewrite Hne.
    + by rewrite IH.
Qed.

Lemma dict_set_fresh (key val : string) (d : list (string * string)) :
  key ∉ d.*1 -> dict_set key val d = d ++ [(key, val)].
Proof.
  induction d as [|[k v] d IH]; [reflexivity|].
  cbn [fmap list_fmap fst]. intros Hnot. cbn [dict_set].
  apply not_elem_of_cons in Hnot as [Hne Hnot].
  destruct (String.eqb k key) eqn:Hk.
  - apply String.eqb_eq in Hk. congruence.
  - cbn [app]. by rewrite (IH Hnot).
Qed.

Lemma dict_set_keys (key val : string) (d : list (string * string)) :
  (dict_set key val d).*1 = d.*1 \/
  ((key ∉ d.*1) /\ (dict_set key val d).*1 = d.*1 ++ [key]).
Proof.
  induction d as [|[k v] d IH].
  - right. split; [apply not_elem_of_nil | reflexivity].
  - cbn [dict_set]. destruct (String.eqb k key) eqn:Hk; [by left|].
    apply String.eqb_neq in Hk.
    destruct IH as [IH|[Hnot IH]].
    + left. cbn [fmap list_fmap fst] in *. by rewrite IH.
    + right. split.
      * cbn [fmap list_fmap fst]. apply not_elem_of_cons. split; [congruence|done].
      * cbn [fmap list_fmap fst] in *. by rewrite IH.
Qed.

Lemma dict_set_clean (key val : string) (d : list (string * string)) :
  clean_entry (key, val) -> clean_dict d -> clean_dict (dict_set key val d).
Proof.
  intros Hkv [Hnd Hall]. split.
  - destruct (dict_set_keys key val d) as [->|[Hnot ->]]; [exact Hnd|].
    apply NoDup_app. split; [exact Hnd|]. split.
    + intros x Hx [->|[]%elem_of_nil]%elem_of_cons. by apply Hnot.
    + apply NoDup_singleton.
  - clear Hnd. induction Hall as [|[k v] d Hk Hd IH]; cbn [dict_set].
    + by constructor.
    + destruct (String.eqb k key) eqn:Heq.
      * apply String.eqb_eq in Heq as ->. by constructor.
      * by constructor.
Qed.

Lemma fold_dict_set (d acc : list (string * string)) :
  NoDup (acc.*1 ++ d.*1) ->
  fold_left (fun a entry => dict_set entry.1 entry.2 a) d acc = acc ++ d.
Proof.
  revert acc. induction d as [|[k v] d IH]; intros acc Hnd.
  - by rewrite app_nil_r.
  - cbn [fold_left fst snd]. cbn [fmap list_fmap fst] in Hnd.
    rewrite dict_set_fresh.
    + rewrite IH; [by rewrite <- app_assoc|].
      rewrite fmap_app. cbn [fmap list_fmap fst]. by rewrite <- app_assoc.
    + apply NoDup_app in Hnd as (_ & Hdisj & _).
      intros Hin. apply (Hdisj k Hin). by left.
Qed.

Lemma split1_at_char (a : ascii) (h t : string) :
  all_chars (fun c => negb (Ascii.eqb a c)) h = true ->
  Str.split1 (String a EmptyString) (h +:+ String a t) = [h; t].
Proof.
  intros Hh. unfold Str.split1.
  assert (Str.split1_from (String a EmptyString) (h +:+ String a t) = (h, Some t))
    as ->; [|reflexivity].
  induction h as [|c h IH].
  - change (EmptyString +:+ String a t) with (String a t).
    cbn [Str.split1_from]. rewrite prefix_char, Ascii.eqb_refl.
    cbn [String.length Nat.sub String.substring].
    by rewrite Nat.sub_0_r, substring_all.
  - cbn [all_chars] in Hh. apply andb_true_iff in Hh as [Hc Hh].
    rewrite append_cons. cbn [Str.split1_from]. rewrite prefix_char.
    apply negb_true_iff in Hc. rewrite Hc, (IH Hh). reflexivity.
Qed.

Lemma rstrip_space_end (x : string) (c : ascii) :
  Str.isspace c = true ->
  Str.rstrip (x +:+ String c EmptyString) = Str.rstrip x.
Proof.
  intros Hc. induction x as [|a x IH].
  - change (EmptyString +:+ String c EmptyString) with (String c EmptyString).
    cbn [Str.rstrip]. by rewrite Hc.
  - rewrite append_cons. cbn [Str.rstrip]. by rewrite IH.
Qed.

Lemma lstrip_app (x y : string) :
  Str.lstrip x = x -> x <> EmptyString -> Str.lstrip (x +:+ y) = x +:+ y.
Proof.
  destruct x as [|c x]; [done|]. intros Hx _.
  rewrite append_cons. cbn [Str.lstrip] in *.
  destruct (Str.isspace c); [|reflexivity].
  pose proof (lstrip_shorter x) as Hlen. rewrite Hx in Hlen.
  cbn [String.length] in Hlen. lia.
Qed.

(** The line of a clean entry, stripped, is the key, the equals sign and the
    value. *)
Lemma env_line_strip (key val : string) :
  clean_entry (key, val) ->
  Str.strip (env_line (key, val)) = key +:+ String "=" val.
Proof.
  intros (_ & _ & _ & Hk & Hv). cbn [fst snd] in *.
  unfold env_line, Str.strip, Str.nl. cbn [fst snd].
  assert (key +:+ "=" +:+ val +:+ String (ascii_of_N 10) EmptyString
          = (key +:+ String "=" val) +:+ String (ascii_of_N 10) EmptyString)
    as ->.
  { rewrite append_assoc. f_equal. }
  assert (Str.lstrip ((key +:+ String "=" val)
                      +:+ String (ascii_of_N 10) EmptyString)
          = (key +:+ String "=" val) +:+ String (ascii_of_N 10) EmptyString)
    as ->.
  { destruct key as [|c key].
    - reflexivity.
    - rewrite append_assoc. by apply lstrip_app. }
  rewrite rstrip_space_end by reflexivity.
  apply rstrip_app; [|done].
  cbn [Str.rstrip]. rewrite Hv. by destruct val.
Qed.

Lemma read_env_line_clean (vars : list (string * string)) (key val : string) :
  clean_entry (key, val) ->
  read_env_line (Some vars) (env_line (key, val)) = Some (dict_set key val vars).
Proof.
  intros Hkv. unfold read_env_line.
  rewrite (env_line_strip key val Hkv).
  destruct Hkv as (_ & _ & Heq & _). cbn [fst] in Heq.
  rewrite (split1_at_char "=" key val Heq).
  assert (Str.contains "=" (env_line (key, val)) = true) as ->; [|reflexivity].
  unfold env_line. cbn [fst snd]. apply contains_append, contains_here.
Qed.

Lemma read_env_lines_clean (d acc : list (string * string)) :
  Forall clean_entry d ->
  fold_left read_env_line (env_line <$> d) (Some acc)
  = Some (fold_left (fun a entry => dict_set entry.1 entry.2 a) d acc).
Proof.
  intros Hd. revert acc. induction Hd as [|[k v] d Hkv Hd IH]; intros acc.
  - reflexivity.
  - cbn [fmap list_fmap fold_left]. rewrite (read_env_line_clean acc k v Hkv).
    apply IH.
Qed.

Lemma file_lines_from_line (current l rest : string) :
  all_chars (fun c => negb (is_newline c)) l = true ->
  file_lines_from current (l +:+ Str.nl +:+ rest)
  = (current +:+ l +:+ Str.nl) :: file_lines_from EmptyString rest.
Proof.
  revert current. induction l as [|c l IH]; intros current Hl.
  - unfold Str.nl.
    change (EmptyString +:+ String (ascii_of_N 10) EmptyString +:+ rest)
      with (String (ascii_of_N 10) rest).
    cbn [file_lines_from]. by rewrite Ascii.eqb_refl.
  - cbn [all_chars] in Hl. apply andb_true_iff in Hl as [Hc Hl].
    rewrite append_cons. cbn [file_lines_from].
    unfold is_newline in Hc. apply negb_true_iff in Hc. rewrite Hc.
    rewrite (IH _ Hl). f_equal. by rewrite append_assoc.
Qed.

Lemma plain_not_newline (s : string) :
  all_chars plain_char s = true ->
  all_chars (fun c => negb (is_newline c)) s = true.
Proof.
  apply all_chars_impl. intros c Hc. unfold plain_char in Hc.
  by apply andb_true_iff in Hc as [Hc _].
Qed.

Lemma file_lines_write_env (d : list (string * string)) :
  Forall clean_entry d ->
  file_lines (write_env d) = env_line <$> d.
Proof.
  unfold file_lines. induction 1 as [|[k v] d Hkv Hd IH]; [reflexivity|].
  cbn [write_env fmap list_fmap].
  destruct Hkv as (Hk & Hv & _). cbn [fst snd] in Hk, Hv.
  assert (k +:+ "=" +:+ v +:+ Str.nl +:+ write_env d
          = (k +:+ "=" +:+ v) +:+ Str.nl +:+ write_env d) as ->.
  { by rewrite !append_assoc. }
  rewrite file_lines_from_line.
  - fold (list_fmap _ _ env_line d). rewrite IH. f_equal.
    unfold env_line. cbn [fst snd].
    change (EmptyString +:+ ?x) with x. by rewrite !append_assoc.
  - rewrite !all_chars_app, (plain_not_newline k Hk), (plain_not_newline v Hv).
    reflexivity.
Qed.

Lemma universal_newlines_plain (s : string) :
  all_chars (fun c => negb (Ascii.eqb c (ascii_of_N 13))) s = true ->
  universal_newlines s = s.
Proof.
  induction s as [|c s IH]; [reflexivity|].
  cbn [all_chars]. intros [Hc Hs]%andb_true_iff.
  cbn [universal_newlines]. apply negb_true_iff in Hc.
  by rewrite Hc, (IH Hs).
Qed.

Lemma write_env_no_cr (d : list (string * string)) :
  Forall clean_entry d ->
  all_chars (fun c => negb (Ascii.eqb c (ascii_of_N 13))) (write_env d) = true.
Proof.
  assert (forall s, all_chars plain_char s = true ->
            all_chars (fun c => negb (Ascii.eqb c (ascii_of_N 13))) s = true)
    as Hplain.
  { intros s. apply all_chars_impl. intros c Hc. unfold plain_char in Hc.
    by apply andb_true_iff in Hc as [_ Hc]. }
  induction 1 as [|[k v] d Hkv Hd IH]; [reflexivity|].
  cbn [write_env]. destruct Hkv as (Hk & Hv & _). cbn [fst snd] in Hk, Hv.
  rewrite !all_chars_app, (Hplain k Hk), (Hplain v Hv), IH. reflexivity.
Qed.

(** What [write_env] writes for a clean dictionary is read back as that
    dictionary. *)
Lemma read_write_env (d : list (string * string)) :
  clean_dict d -> read_env (write_env d) = Some d.
Proof.
  intros [Hnd Hall]. unfold read_env.
  rewrite (universal_newlines_plain _ (write_env_no_cr d Hall)).
  rewrite (file_lines_write_env d Hall), (read_env_lines_clean d [] Hall).
  by rewrite fold_dict_set.
Qed.

(** What the body of [if not value] can do. *)
Lemma prompt_and_store_cases
    (variable_name : string) (persist : bool) (st : env_state) :
  exists r st',
    prompt_and_store variable_name persist st = Some (r, st') /\
    match r with
    | EnvRet value =>
        head (stdin st) = Some value /\
        environ st' = <[variable_name := value]> (environ st) /\
        (if persist
         then exists vars,
                existing_env st = EnvRet (Some vars) /\
                dotenv st'
                = Some (write_env (dict_set variable_name value vars))
         else dotenv st' = dotenv st)
    | EnvRaise EOFError => stdin st = [] /\ st' = st
    | EnvRaise IllegalName =>
        (variable_name = EmptyString \/
         Str.contains "=" variable_name = true) /\
        environ st' = environ st /\ dotenv st' = dotenv st
    | EnvRaise EmbeddedNull =>
        (exists value, head (stdin st) = Some value /\
           (has_null variable_name = true \/ has_null value = true)) /\
        environ st' = environ st /\ dotenv st' = dotenv st
    | EnvRaise (FileFault e) =>
        persist = true /\
        exists value,
          head (stdin st) = Some value /\
          environ st' = <[variable_name := value]> (environ st) /\
          ((is_Some (dotenv st) /\ read_fault st = Some e /\
            dotenv st' = dotenv st) \/
           (exists remains, write_fault st = Some (e, remains) /\
              dotenv st' = remains))
    end.
Proof.
  unfold prompt_and_store.
  destruct (stdin st) as [|value typed] eqn:Hin.
  { eexists _, _. split; [reflexivity|]. by split. }
  unfold environ_set.
  destruct (has_null variable_name || has_null value) eqn:Hnull.
  { eexists _, _. split; [reflexivity|]. cbn [environ dotenv].
    split; [|by split]. exists value. split; [reflexivity|].
    by apply orb_true_iff. }
  destruct (String.eqb variable_name EmptyString
            || Str.contains "=" variable_name) eqn:Hname.
  { eexists _, _. split; [reflexivity|]. cbn [environ dotenv].
    split; [|by split].
    apply orb_true_iff in Hname as [Hname|Hname]; [left|by right].
    by apply String.eqb_eq. }
  destruct persist.
  2: { eexists _, _. split; [reflexivity|]. by cbn. }
  unfold existing_env.
  destruct (dotenv st) as [text|] eqn:Hdot.
  - destruct (read_fault st) as [e|] eqn:Hread.
    { eexists _, _. split; [reflexivity|]. cbn [environ dotenv].
      split; [reflexivity|]. exists value. split; [reflexivity|].
      split; [reflexivity|]. left. by eauto. }
    destruct (read_env_some text) as [vars ->].
    destruct (write_fault st) as [[e remains]|] eqn:Hwrite.
    + eexists _, _. split; [reflexivity|]. cbn [environ dotenv].
      split; [reflexivity|]. exists value. split; [reflexivity|].
      split; [reflexivity|]. right. by exists remains.
    + eexists _, _. split; [reflexivity|]. cbn [environ dotenv head].
      split; [reflexivity|]. split; [reflexivity|]. by exists vars.
  - destruct (write_fault st) as [[e remains]|] eqn:Hwrite.
    + eexists _, _. split; [reflexivity|]. cbn [environ dotenv].
      split; [reflexivity|]. exists value. split; [reflexivity|].
      split; [reflexivity|]. right. by exists remains.
    + eexists _, _. split; [reflexivity|]. cbn [environ dotenv head].
      split; [reflexivity|]. split; [reflexivity|]. by exists [].
Qed.

(** X19.  Whatever the [.env] file holds, a call comes back with a value or
    with one of its faults: reading the file never fails on the unpacking
    of a line into key and value.  When no line can be read from the input
    or the environment refuses the name or the value, neither the
    environment nor the file has changed.  A fault of the file itself (it
    cannot be opened, decoded or written) can only leave a call that
    persists, and it does so after the variable was set in the environment:
    the call raises although the environment has changed. *)
Theorem get_env_variable_returns
    (variable_name : string) (persist : bool) (st : env_state) :
  exists r st',
    get_env_variable variable_name persist st = Some (r, st') /\
    forall e, r = EnvRaise e ->
      match e with
      | EOFError => stdin st = [] /\ st' = st
      | IllegalName =>
          (variable_name = EmptyString \/
           Str.contains "=" variable_name = true) /\
          environ st' = environ st /\ dotenv st' = dotenv st
      | EmbeddedNull =>
          (exists value, head (stdin st) = Some value /\
             (has_null variable_name = true \/ has_null value = true)) /\
          environ st' = environ st /\ dotenv st' = dotenv st
      | FileFault e' =>
          persist = true /\
          exists value,
            head (stdin st) = Some value /\
            environ st' = <[variable_name := value]> (environ st) /\
            ((is_Some (dotenv st) /\ read_fault st = Some e' /\
              dotenv st' = dotenv st) \/
             (exists remains, write_fault st = Some (e', remains) /\
                              dotenv st' = remains))
      end.
Proof.
  unfold get_env_variable.
  destruct (prompt_and_store_cases variable_name persist st)
    as (r & st' & Hprompt & Hcases).
  destruct (environ st !! variable_name) as [[|c v]|].
  2: { eexists _, _. split; [reflexivity|]. by intros e. }
  all: exists r, st'; split; [exact Hprompt|]; by intros e ->.
Qed.

(** X20.  A value that is not empty stays: once a call has returned it, the
    variable is set to it in the environment, and every later call returns
    it again without reading the input and without touching the file. *)
Theorem get_env_variable_settled
    (variable_name value : string) (persist persist' : bool)
    (st st' : env_state) :
  get_env_variable variable_name persist st = Some (EnvRet value, st') ->
  value <> EmptyString ->
  environ st' !! variable_name = Some value /\
  get_env_variable variable_name persist' st' = Some (EnvRet value, st').
Proof.
  intros Hcall Hne.
  assert (environ st' !! variable_name = Some value) as Hset.
  { unfold get_env_variable in Hcall.
    destruct (prompt_and_store_cases variable_name persist st)
      as (r & st1 & Hprompt & Hcases).
    destruct (environ st !! variable_name) as [[|c v]|] eqn:Hget.
    2: { injection Hcall as <- <-. exact Hget. }
    all: rewrite Hprompt in Hcall; injection Hcall as -> ->;
      destruct Hcases as (_ & -> & _); apply lookup_insert_eq. }
  split; [exact Hset|].
  unfold get_env_variable. rewrite Hset. by destruct value.
Qed.

(** X21.  Persisting keeps the [.env] file readable.  Let the file be absent
    or hold what the function writes for a clean dictionary (no line break
    in keys and values, no equals sign in keys, no white space before a key
    or after a value).  After a call that prompts and persists a clean
    entry, the file holds what the function writes for the dictionary with
    that entry set; this dictionary is clean again, reading the file gives
    it back, the variable has the typed value in it and every other key has
    the value it had. *)
Theorem get_env_variable_persists
    (variable_name value : string) (vars : list (string * string))
    (st st' : env_state) :
  clean_dict vars ->
  env_file_holds st vars ->
  unset variable_name st ->
  clean_entry (variable_name, value) ->
  get_env_variable variable_name true st = Some (EnvRet value, st') ->
  let vars' := dict_set variable_name value vars in
  dotenv st' = Some (write_env vars') /\
  clean_dict vars' /\
  env_file_holds st' vars' /\
  read_env (write_env vars') = Some vars' /\
  dict_get variable_name vars' = Some value /\
  forall other, other <> variable_name ->
    dict_get other vars' = dict_get other vars.
Proof.
  intros Hclean Hfile Hunset Hentry Hcall vars'.
  assert (clean_dict vars') as Hclean' by (by apply dict_set_clean).
  assert (dotenv st' = Some (write_env vars')) as Hdot.
  { unfold get_env_variable in Hcall.
    destruct (prompt_and_store_cases variable_name true st)
      as (r & st1 & Hprompt & Hcases).
    assert (prompt_and_store variable_name true st = Some (EnvRet value, st'))
      as Hcall' by (by destruct Hunset as [Hu|Hu]; rewrite Hu in Hcall).
    rewrite Hprompt in Hcall'. injection Hcall' as -> ->.
    destruct Hcases as (_ & _ & vars0 & Hread & ->).
    assert (vars0 = vars) as ->; [|reflexivity].
    unfold existing_env, env_file_holds in *.
    destruct (dotenv st) as [text|]; [|by injection Hread as <-].
    destruct (read_fault st); [discriminate|].
    subst text. rewrite (read_write_env vars Hclean) in Hread.
    by injection Hread as <-. }
  split; [exact Hdot|]. split; [exact Hclean'|].
  split; [unfold env_file_holds; by rewrite Hdot|].
  split; [by apply read_write_env|].
  split; [apply dict_get_set_same|].
  intros other Hother. by apply dict_get_set_other.
Qed.

End EnvFacts.

Lemma get_env_variable_settled_witness :
  get_env_variable "OPENAI_API_KEY" true Further.env0
  = Some (EnvRet "sk-123",
          EnvState (<["OPENAI_API_KEY" := "sk-123"]> {[ "HOME" := "/root" ]}) []
                   (Some ("OTHER=1" +:+ Str.nl +:+ "OPENAI_API_KEY=sk-123" +:+ Str.nl))
                   None None) /\
  get_env_variable "OPENAI_API_KEY" false
    (EnvState (<["OPENAI_API_KEY" := "sk-123"]> {[ "HOME" := "/root" ]}) []
              (Some ("OTHER=1" +:+ Str.nl +:+ "OPENAI_API_KEY=sk-123" +:+ Str.nl))
              None None)
  = Some (EnvRet "sk-123",
          EnvState (<["OPENAI_API_KEY" := "sk-123"]> {[ "HOME" := "/root" ]}) []
                   (Some ("OTHER=1" +:+ Str.nl +:+ "OPENAI_API_KEY=sk-123" +:+ Str.nl))
                   None None).
Proof.
  assert (get_env_variable "OPENAI_API_KEY" true Further.env0
    = Some (EnvRet "sk-123",
            EnvState (<["OPENAI_API_KEY" := "sk-123"]> {[ "HOME" := "/root" ]}) []
                     (Some ("OTHER=1" +:+ Str.nl +:+ "OPENAI_API_KEY=sk-123" +:+ Str.nl))
                     None None))
    as Hcall by reflexivity.
  split; [exact Hcall|].
  apply (get_env_variable_settled "OPENAI_API_KEY" "sk-123" true false
           Further.env0 _ Hcall).
  discriminate.
Defined.

Lemma get_env_variable_persists_witness :
  let st := EnvState {[ "HOME" := "/root" ]} ["sk-123"]
                     (Some ("OTHER=1" +:+ Str.nl)) None None in
  exists st',
    get_env_variable "OPENAI_API_KEY" true st = Some (EnvRet "sk-123", st') /\
    dotenv st' = Some ("OTHER=1" +:+ Str.nl +:+ "OPENAI_API_KEY=sk-123" +:+ Str.nl).
Proof.
  intros st. eexists. split; [reflexivity|].
  refine (proj1 (get_env_variable_persists "OPENAI_API_KEY" "sk-123"
                   [("OTHER", "1")] st _ _ _ _ _ eq_refl)).
  - split; [apply NoDup_singleton|].
    repeat constructor.
  - reflexivity.
  - by left.
  - repeat split.
Defined.

(** With a [.env] file that may not be read, a persisting call raises the
    fault of the file after it has set the variable. *)
Example get_env_variable_locked_file :
  match get_env_variable "OPENAI_API_KEY" true Further.env_locked with
  | Some (r, st') =>
      r = EnvRaise (FileFault (Exn OSError "[Errno 13] Permission denied: '.env'")) /\
      environ st' !! "OPENAI_API_KEY" = Some "sk-123" /\
      dotenv st' = dotenv Further.env_locked
  | None => False
  end.
Proof. vm_compute. repeat split. Qed.
